(** * Supply-chain cost optimisation pipeline: a shallow embedding

    The four stage runners of [backend/agents] (scraper, forecast, inventory,
    optimizer) and the numeric kernels they call, embedded as Rocq functions.

    Conventions.
    - A Python [float] is read as a real number: arithmetic is exact, and
      [round(x, n)] is round-half-to-even on [x * 10^n].  Infinities and NaN
      are outside the model.
    - A raised exception is a value: partial operations return [option], and
      the stage runners live in a small state-and-exception monad over the
      SQLAlchemy session.
    - Calls into external libraries (scipy's [norm.ppf], the statsmodels and
      prophet fitters, pandas' [resample], the CBC solver, Python's seeded
      [random.Random]) are Section variables: the theorems hold for whatever
      those libraries return. *)

From Stdlib Require Import String Reals Zfloor Lra Lia ZArith Bool Psatz List.
From Stdlib Require Import Sorting.Sorted Sorting.Permutation.
Import ListNotations.

Open Scope R_scope.

(** ** Python numerics *)
Module Py.

(** [round_half_even x]: the integer nearest to [x], ties to the even one. *)
Definition round_half_even (x : R) : Z :=
  let f := Zfloor x in
  let d := x - IZR f in
  if Rlt_dec d (1 / 2) then f
  else if Rlt_dec (1 / 2) d then (f + 1)%Z
  else if Z.even f then f else (f + 1)%Z.

(** Python's [round(x, ndigits)] on a float. *)
Definition round (x : R) (ndigits : nat) : R :=
  IZR (round_half_even (x * 10 ^ ndigits)) / 10 ^ ndigits.

(** [sum] / [np.sum] over a sequence of floats. *)
Definition fsum (xs : list R) : R := fold_right Rplus 0 xs.

(** [np.mean]. *)
Definition np_mean (xs : list R) : R := fsum xs / INR (length xs).

(** [np.std] (population standard deviation, [ddof = 0]). *)
Definition np_std (xs : list R) : R :=
  let m := np_mean xs in
  sqrt (np_mean (map (fun x => Rsqr (x - m)) xs)).

(** [pandas.Series.std] (sample standard deviation, [ddof = 1]). *)
Definition pd_std (xs : list R) : R :=
  let m := np_mean xs in
  sqrt (fsum (map (fun x => Rsqr (x - m)) xs) / (INR (length xs) - 1)).

(** Exceptions, and [str(exc)]. *)
Inductive exn : Type :=
| ValueError (msg : string)
| TypeError (msg : string)
| IndexError (msg : string)
| OperationalError (msg : string)
| LibraryError (msg : string).

Definition str (e : exn) : string :=
  match e with
  | ValueError m | TypeError m | IndexError m | OperationalError m
  | LibraryError m => m
  end.

(** A computation that returns a value or raises. *)
Definition result (A : Type) : Type := (exn + A)%type.

Definition rbind {A B : Type} (r : result A) (k : A -> result B) : result B :=
  match r with
  | inl e => inl e
  | inr a => k a
  end.

(** [math.sqrt]: raises [ValueError] on a negative argument. *)
Definition math_sqrt (x : R) : result R :=
  if Rlt_dec x 0 then inl (ValueError "math domain error") else inr (sqrt x).

(** Elementwise [a - b] on one-dimensional numpy arrays, with numpy's
    broadcasting of a length-one operand. *)
Definition np_sub (a b : list R) : result (list R) :=
  if Nat.eqb (length a) (length b)
  then inr (map (fun p => fst p - snd p) (combine a b))
  else if Nat.eqb (length b) 1 then inr (map (fun x => x - hd 0 b) a)
  else if Nat.eqb (length a) 1 then inr (map (fun y => hd 0 a - y) b)
  else inl (ValueError "operands could not be broadcast together").

(** [np.maximum(0, a)]. *)
Definition np_maximum0 (a : list R) : list R := map (Rmax 0) a.

(** [np.full(n, v)]. *)
Definition np_full (n : nat) (v : R) : list R := repeat v n.

(** A [dict], in insertion order: [d[k] = v] and [d.get(k)]. *)
Fixpoint dict_set {K V : Type} (eqb : K -> K -> bool) (k : K) (v : V)
  (d : list (K * V)) : list (K * V) :=
  match d with
  | [] => [(k, v)]
  | (k', v') :: rest =>
      if eqb k k' then (k, v) :: rest else (k', v') :: dict_set eqb k v rest
  end.

Definition dict_get {K V : Type} (eqb : K -> K -> bool) (k : K)
  (d : list (K * V)) : option V :=
  option_map snd (find (fun kv => eqb k (fst kv)) d).

Lemma Rabs_le_inv (x a : R) : Rabs x <= a -> - a <= x <= a.
Proof. unfold Rabs. destruct (Rcase_abs x); lra. Qed.

Lemma pow10_pos (n : nat) : 0 < 10 ^ n.
Proof. apply pow_lt; lra. Qed.

Lemma round_half_even_near (x : R) :
  Rabs (IZR (round_half_even x) - x) <= 1 / 2.
Proof.
  unfold round_half_even.
  destruct (Zfloor_bound x) as [Hlo Hhi].
  destruct (Rlt_dec (x - IZR (Zfloor x)) (1 / 2)) as [Hd | Hd].
  - apply Rabs_le; lra.
  - destruct (Rlt_dec (1 / 2) (x - IZR (Zfloor x))) as [Hu | Hu].
    + rewrite plus_IZR; apply Rabs_le; simpl; lra.
    + destruct (Z.even (Zfloor x)).
      * apply Rabs_le; lra.
      * rewrite plus_IZR; apply Rabs_le; simpl; lra.
Qed.

Lemma round_half_even_unique (x : R) (k : Z) :
  IZR k - 1 / 2 < x < IZR k + 1 / 2 -> round_half_even x = k.
Proof.
  intros [Hlo Hhi].
  unfold round_half_even.
  destruct (Zfloor_bound x) as [Flo Fhi].
  assert (Hcases : (Zfloor x = k \/ Zfloor x = k - 1)%Z).
  { assert (IZR (Zfloor x) < IZR (k + 1)) by (rewrite plus_IZR; simpl; lra).
    assert (IZR (k - 2) < IZR (Zfloor x)) by (rewrite minus_IZR; simpl; lra).
    apply lt_IZR in H, H0. lia. }
  destruct Hcases as [E | E]; rewrite E in *.
  - destruct (Rlt_dec (x - IZR k) (1 / 2)); [reflexivity | lra].
  - rewrite minus_IZR in *; simpl in *.
    destruct (Rlt_dec (x - (IZR k - 1)) (1 / 2)); [lra |].
    destruct (Rlt_dec (1 / 2) (x - (IZR k - 1))); [lia | lra].
Qed.

Lemma round_half_even_IZR (k : Z) : round_half_even (IZR k) = k.
Proof. apply round_half_even_unique; lra. Qed.

Lemma round_half_even_mono (x y : R) :
  x <= y -> (round_half_even x <= round_half_even y)%Z.
Proof.
  intros Hxy.
  pose proof (Zfloor_le x y Hxy) as Hf.
  destruct (Z.eq_dec (Zfloor x) (Zfloor y)) as [E | NE].
  - unfold round_half_even. rewrite E.
    destruct (Rlt_dec (x - IZR (Zfloor y)) (1 / 2)) as [a | a];
      destruct (Rlt_dec (y - IZR (Zfloor y)) (1 / 2)) as [b | b]; try lia; try lra.
    + destruct (Rlt_dec (1 / 2) (y - IZR (Zfloor y))); try lia.
      destruct (Z.even (Zfloor y)); lia.
    + destruct (Rlt_dec (1 / 2) (x - IZR (Zfloor y))) as [c | c];
        destruct (Rlt_dec (1 / 2) (y - IZR (Zfloor y))) as [d | d]; try lia; try lra.
      destruct (Z.even (Zfloor y)); lia.
  - assert (Hlt : (Zfloor x + 1 <= Zfloor y)%Z) by lia.
    assert (Hx : (round_half_even x <= Zfloor x + 1)%Z).
    { unfold round_half_even.
      destruct (Rlt_dec _ _); try lia. destruct (Rlt_dec _ _); try lia.
      destruct (Z.even _); lia. }
    assert (Hy : (Zfloor y <= round_half_even y)%Z).
    { unfold round_half_even.
      destruct (Rlt_dec _ _); try lia. destruct (Rlt_dec _ _); try lia.
      destruct (Z.even _); lia. }
    lia.
Qed.

Lemma round_err (x : R) (n : nat) :
  Rabs (round x n - x) <= / 2 / 10 ^ n.
Proof.
  unfold round.
  pose proof (pow10_pos n) as Hp.
  pose proof (round_half_even_near (x * 10 ^ n)) as H.
  replace (IZR (round_half_even (x * 10 ^ n)) / 10 ^ n - x)
    with ((IZR (round_half_even (x * 10 ^ n)) - x * 10 ^ n) / 10 ^ n)
    by (field; lra).
  unfold Rdiv at 1. rewrite Rabs_mult, (Rabs_pos_eq (/ 10 ^ n)).
  - unfold Rdiv. apply Rmult_le_compat_r; [| lra].
    left; apply Rinv_0_lt_compat; exact Hp.
  - left; apply Rinv_0_lt_compat; exact Hp.
Qed.

Lemma round_unique (x : R) (n : nat) (k : Z) :
  IZR k - 1 / 2 < x * 10 ^ n < IZR k + 1 / 2 -> round x n = IZR k / 10 ^ n.
Proof. intros H. unfold round. now rewrite (round_half_even_unique _ k H). Qed.

Lemma round_mono (x y : R) (n : nat) : x <= y -> round x n <= round y n.
Proof.
  intros H. unfold round.
  pose proof (pow10_pos n) as Hp.
  apply Rmult_le_compat_r; [left; apply Rinv_0_lt_compat; exact Hp |].
  apply IZR_le, round_half_even_mono.
  apply Rmult_le_compat_r; lra.
Qed.

Lemma round_IZR (k : Z) (n : nat) : round (IZR k) n = IZR k.
Proof.
  unfold round. pose proof (pow10_pos n) as Hp.
  replace (IZR k * 10 ^ n) with (IZR (k * 10 ^ Z.of_nat n)).
  - rewrite round_half_even_IZR, mult_IZR.
    rewrite <- pow_IZR. simpl (IZR 10). field; lra.
  - rewrite mult_IZR, <- pow_IZR. reflexivity.
Qed.

Lemma round_nonneg (x : R) (n : nat) : 0 <= x -> 0 <= round x n.
Proof.
  intros H. change 0 with (IZR 0). rewrite <- (round_IZR 0 n).
  now apply round_mono.
Qed.

Lemma fsum_app (xs ys : list R) : fsum (xs ++ ys) = fsum xs + fsum ys.
Proof. induction xs as [| x xs IH]; simpl; [lra | rewrite IH; lra]. Qed.

Lemma fsum_nonneg (xs : list R) : Forall (fun x => 0 <= x) xs -> 0 <= fsum xs.
Proof. induction 1; simpl; lra. Qed.

Lemma np_mean_nonneg (xs : list R) :
  Forall (fun x => 0 <= x) xs -> 0 <= np_mean xs.
Proof.
  intros H. unfold np_mean.
  destruct xs as [| x xs].
  - simpl. unfold Rdiv. rewrite Rinv_0. lra.
  - apply Rmult_le_pos; [now apply fsum_nonneg |].
    left. apply Rinv_0_lt_compat. apply lt_0_INR. simpl; lia.
Qed.

Lemma np_std_nonneg (xs : list R) : 0 <= np_std xs.
Proof. apply sqrt_pos. Qed.

Lemma pd_std_nonneg (xs : list R) : 0 <= pd_std xs.
Proof. apply sqrt_pos. Qed.

End Py.

Declare Scope result_scope.
Delimit Scope result_scope with result.
Notation "x <- r ;; k" := (Py.rbind r (fun x => k))
  (at level 61, r at next level, right associativity) : result_scope.

(** ** Inventory mathematics ([agents/inventory/agent.py]) *)
Module InventoryMath.
Import Py.

Section WithQuantile.

(** [scipy.stats.norm.ppf]. *)
Variable norm_ppf : R -> R.

Definition compute_eoq (demand_annual setup_cost holding_cost_annual : R)
  : result R :=
  if Rle_dec holding_cost_annual 0 then inr (Rmax 1 demand_annual)
  else if Rle_dec demand_annual 0 then inr (Rmax 1 demand_annual)
  else
    (eoq <- math_sqrt (2 * demand_annual * setup_cost / holding_cost_annual) ;;
     inr (Rmax 1 (round eoq 1)))%result.

Definition compute_safety_stock
  (demand_std_per_period lead_time_periods service_level
   lead_time_std_periods : R) : result R :=
  let z := norm_ppf service_level in
  if Rle_dec lead_time_periods 0 then inr 0
  else
    let var_demand := demand_std_per_period ^ 2 * lead_time_periods in
    let var_lead_time := demand_std_per_period ^ 2 * lead_time_std_periods ^ 2 in
    (sigma_lt <- math_sqrt (var_demand + var_lead_time) ;;
     inr (Rmax 0 (round (z * sigma_lt) 1)))%result.

Definition compute_rop (demand_mean_per_period lead_time_periods safety_stock : R)
  : R :=
  let mu_lt := demand_mean_per_period * lead_time_periods in
  Rmax 0 (round (mu_lt + safety_stock) 1).

(** The cost dictionary of [annual_inventory_cost]. *)
Record Costs : Type := { ordering : R; holding : R; total : R }.

Definition annual_inventory_cost
  (eoq demand_annual setup_cost holding_cost_annual : R) : Costs :=
  if Rle_dec eoq 0 then {| ordering := 0; holding := 0; total := 0 |}
  else
    let ordering := demand_annual / eoq * setup_cost in
    let holding := eoq / 2 * holding_cost_annual in
    {| ordering := round ordering 2;
       holding := round holding 2;
       total := round (ordering + holding) 2 |}.

End WithQuantile.

Lemma math_sqrt_nonneg (x : R) : 0 <= x -> math_sqrt x = inr (sqrt x).
Proof. intros H. unfold math_sqrt. destruct (Rlt_dec x 0); [lra | reflexivity]. Qed.

Lemma Rmax_round_comm (x : R) (k : Z) (n : nat) :
  Rmax (IZR k) (round x n) = round (Rmax (IZR k) x) n.
Proof.
  unfold Rmax at 2. destruct (Rle_dec (IZR k) x) as [H | H].
  - apply Rmax_right. rewrite <- (round_IZR k n). now apply round_mono.
  - rewrite round_IZR. apply Rmax_left.
    rewrite <- (round_IZR k n). apply round_mono. lra.
Qed.

Lemma sqrt_400000_bounds : 632.45 < sqrt 400000 < 632.55.
Proof.
  split.
  - replace 632.45 with (sqrt (632.45 * 632.45)) by (apply sqrt_square; lra).
    apply sqrt_lt_1_alt. lra.
  - replace 632.55 with (sqrt (632.55 * 632.55)) by (apply sqrt_square; lra).
    apply sqrt_lt_1_alt. lra.
Qed.

Lemma compute_eoq_positive (D S H : R) :
  0 < D -> 0 < H -> 0 <= S ->
  compute_eoq D S H = inr (Rmax 1 (round (sqrt (2 * D * S / H)) 1)).
Proof.
  intros HD HH HS. unfold compute_eoq.
  destruct (Rle_dec H 0); [lra |]. destruct (Rle_dec D 0); [lra |].
  rewrite math_sqrt_nonneg; [reflexivity |].
  apply Rmult_le_pos; [nra | left; now apply Rinv_0_lt_compat].
Qed.

(** C6.  [compute_eoq D S H] is [max(1, sqrt(2DS/H))] with the root rounded to
    one decimal when [D > 0] and [H > 0] (rounding before or after the [max]
    is the same; the root exists as soon as [S >= 0], and for [S < 0]
    [math.sqrt] raises on both sides of the equation); it is [max(1, D)] when
    [H <= 0] or [D <= 0]; [D = 10000, S = 100, H = 5] gives 632.5 and [D = 0]
    gives 1. *)
Theorem compute_eoq_spec (D S H : R) :
  (0 < D -> 0 < H ->
     compute_eoq D S H
       = (e <- math_sqrt (2 * D * S / H) ;; inr (Rmax 1 (round e 1)))%result
     /\ (0 <= S ->
           compute_eoq D S H = inr (Rmax 1 (round (sqrt (2 * D * S / H)) 1))
           /\ Rmax 1 (round (sqrt (2 * D * S / H)) 1)
                = round (Rmax 1 (sqrt (2 * D * S / H))) 1))
  /\ (H <= 0 \/ D <= 0 -> compute_eoq D S H = inr (Rmax 1 D))
  /\ compute_eoq 10000 100 5 = inr 632.5
  /\ compute_eoq 0 S H = inr 1.
Proof.
  repeat split.
  - unfold compute_eoq.
    destruct (Rle_dec H 0); [lra |]. destruct (Rle_dec D 0); [lra |]. reflexivity.
  - now apply compute_eoq_positive.
  - apply (Rmax_round_comm _ 1%Z 1%nat).
  - intros [Hh | Hd]; unfold compute_eoq.
    + destruct (Rle_dec H 0); [reflexivity | lra].
    + destruct (Rle_dec H 0); [reflexivity |].
      destruct (Rle_dec D 0); [reflexivity | lra].
  - unfold compute_eoq.
    destruct (Rle_dec 5 0); [lra |]. destruct (Rle_dec 10000 0); [lra |].
    replace (2 * 10000 * 100 / 5) with 400000 by lra.
    rewrite math_sqrt_nonneg by lra. cbn [rbind].
    pose proof sqrt_400000_bounds as [Hlo Hhi].
    rewrite (round_unique _ 1 6325) by (simpl; lra).
    f_equal. simpl. rewrite Rmax_right by lra. lra.
  - unfold compute_eoq.
    destruct (Rle_dec H 0); [f_equal; apply Rmax_left; lra |].
    destruct (Rle_dec 0 0); [f_equal; apply Rmax_left; lra | lra].
Qed.

Lemma sqrt_deterministic_lead_time (sigma L : R) :
  0 <= sigma -> 0 < L -> sqrt (sigma ^ 2 * L + sigma ^ 2 * 0 ^ 2) = sigma * sqrt L.
Proof.
  intros Hs HL.
  replace (sigma ^ 2 * L + sigma ^ 2 * 0 ^ 2) with (sigma * sigma * L) by ring.
  rewrite sqrt_mult_alt by nra.
  now rewrite sqrt_square.
Qed.

(** C5.  For [L > 0], [compute_safety_stock] returns
    [max(0, round(z(SL) * sqrt(sigma^2 L + sigma^2 sigma_L^2), 1))]; for a
    deterministic lead time and a standard deviation [sigma >= 0] the root is
    [sigma * sqrt L]; and when [norm.ppf(0.95)] is 1.645 to three decimals,
    [sigma = 50, L = 4, SL = 0.95, sigma_L = 0] gives 164.5 within 0.1. *)
Theorem compute_safety_stock_spec
  (norm_ppf : R -> R) (sigma L SL sigma_L : R) :
  0 < L ->
  compute_safety_stock norm_ppf sigma L SL sigma_L
    = inr (Rmax 0 (round (norm_ppf SL
                          * sqrt (sigma ^ 2 * L + sigma ^ 2 * sigma_L ^ 2)) 1))
  /\ (0 <= sigma ->
      compute_safety_stock norm_ppf sigma L SL 0
        = inr (Rmax 0 (round (norm_ppf SL * (sigma * sqrt L)) 1)))
  /\ (Rabs (norm_ppf 0.95 - 1.645) <= 0.0005 ->
      exists ss, compute_safety_stock norm_ppf 50 4 0.95 0 = inr ss
                 /\ Rabs (ss - 164.5) <= 0.1).
Proof.
  intros HL.
  assert (Hgen : forall s l sl, 0 < l ->
            compute_safety_stock norm_ppf s l SL sl
            = inr (Rmax 0 (round (norm_ppf SL
                                  * sqrt (s ^ 2 * l + s ^ 2 * sl ^ 2)) 1))).
  { intros s l sl Hl. unfold compute_safety_stock.
    destruct (Rle_dec l 0); [lra |].
    rewrite math_sqrt_nonneg; [reflexivity |].
    assert (0 <= s ^ 2) by (simpl; nra). assert (0 <= sl ^ 2) by (simpl; nra). nra. }
  split; [now apply Hgen | split].
  - intros Hs. rewrite Hgen by assumption.
    now rewrite sqrt_deterministic_lead_time.
  - intros Hz. eexists. split.
    + unfold compute_safety_stock.
      destruct (Rle_dec 4 0); [lra |].
      rewrite math_sqrt_nonneg by (simpl; lra). reflexivity.
    + replace (50 ^ 2 * 4 + 50 ^ 2 * 0 ^ 2) with (100 * 100) by ring.
      rewrite sqrt_square by lra.
      pose proof (round_err (norm_ppf 0.95 * 100) 1) as He.
      apply Rabs_le_inv in He. apply Rabs_le_inv in Hz. simpl in He.
      unfold Rmax. destruct (Rle_dec _ _); apply Rabs_le; lra.
Qed.

Lemma compute_safety_stock_spec_witness :
  compute_safety_stock (fun _ => 1.645) 50 4 0.95 0
    = inr (Rmax 0 (round (1.645 * sqrt (50 ^ 2 * 4 + 50 ^ 2 * 0 ^ 2)) 1))
  /\ (0 <= 50 ->
      compute_safety_stock (fun _ => 1.645) 50 4 0.95 0
        = inr (Rmax 0 (round (1.645 * (50 * sqrt 4)) 1)))
  /\ (Rabs (1.645 - 1.645) <= 0.0005 ->
      exists ss, compute_safety_stock (fun _ => 1.645) 50 4 0.95 0 = inr ss
                 /\ Rabs (ss - 164.5) <= 0.1).
Proof.
  apply (compute_safety_stock_spec (fun _ => 1.645) 50 4 0.95 0). lra.
Defined.

End InventoryMath.

(** ** Forecast error metrics ([agents/forecast/agent.py]) *)
Module ForecastMetrics.
Import Py.

Definition wape (actual forecast : list R) : result R :=
  let total_actual := fsum (map Rabs actual) in
  if Req_dec_T total_actual 0 then inr 0
  else
    (d <- np_sub actual forecast ;;
     inr (fsum (map Rabs d) / total_actual))%result.

(** [actual != 0] as a boolean mask, [a[mask]], and [mask.any()]. *)
Definition nonzero (x : R) : bool := if Req_dec_T x 0 then false else true.

Definition mape (actual forecast : list R) : result R :=
  let mask := map nonzero actual in
  if negb (existsb (fun b => b) mask) then inr 0
  else
    if negb (Nat.eqb (length actual) (length forecast))
    then inl (IndexError "boolean index did not match indexed array")
    else
      let sel := filter (fun p => nonzero (fst p)) (combine actual forecast) in
      inr (np_mean (map (fun p => Rabs ((fst p - snd p) / fst p)) sel) * 100).

(** The sum of absolute errors, index by index. *)
Definition abs_error_sum (actual forecast : list R) : R :=
  fsum (map (fun p => Rabs (fst p - snd p)) (combine actual forecast)).

Lemma fsum_abs_zero (xs : list R) :
  fsum (map Rabs xs) = 0 <-> Forall (fun x => x = 0) xs.
Proof.
  induction xs as [| x xs IH]; simpl.
  - split; [constructor | reflexivity].
  - pose proof (Rabs_pos x) as Hx.
    assert (Hs : 0 <= fsum (map Rabs xs)).
    { apply fsum_nonneg. apply Forall_forall. intros y Hy.
      apply in_map_iff in Hy. destruct Hy as [z [<- _]]. apply Rabs_pos. }
    split.
    + intros H. assert (Rabs x = 0) by lra. assert (fsum (map Rabs xs) = 0) by lra.
      constructor; [| now apply IH].
      destruct (Req_dec x 0) as [E | NE]; [exact E |].
      apply Rabs_no_R0 in NE. contradiction.
    + intros H. inversion H as [| ? ? Hx0 Hrest]; subst.
      rewrite Rabs_R0. apply IH in Hrest. lra.
Qed.

(** C8.  On arrays of equal length, [wape] is the sum of absolute errors over
    the sum of absolute actuals, and 0 when that sum is 0, which is exactly
    when every actual is 0. *)
Theorem wape_spec (actual forecast : list R) :
  length actual = length forecast ->
  (fsum (map Rabs actual) <> 0 ->
     wape actual forecast
       = inr (abs_error_sum actual forecast / fsum (map Rabs actual)))
  /\ (fsum (map Rabs actual) = 0 -> wape actual forecast = inr 0)
  /\ (Forall (fun a => a = 0) actual -> wape actual forecast = inr 0).
Proof.
  intros Hlen.
  assert (Hzero : fsum (map Rabs actual) = 0 -> wape actual forecast = inr 0).
  { intros H0. unfold wape. destruct (Req_dec_T _ 0); [reflexivity | contradiction]. }
  split; [| split].
  - intros Hne. unfold wape, np_sub, abs_error_sum.
    destruct (Req_dec_T _ 0); [contradiction |].
    rewrite Hlen, Nat.eqb_refl. cbn [rbind].
    now rewrite map_map.
  - exact Hzero.
  - intros Hall. apply Hzero. now apply fsum_abs_zero.
Qed.

Lemma wape_spec_witness :
  (fsum (map Rabs [100; 200]) <> 0 ->
     wape [100; 200] [110; 180]
       = inr (abs_error_sum [100; 200] [110; 180] / fsum (map Rabs [100; 200])))
  /\ (fsum (map Rabs [100; 200]) = 0 -> wape [100; 200] [110; 180] = inr 0)
  /\ (Forall (fun a => a = 0) [100; 200] -> wape [100; 200] [110; 180] = inr 0).
Proof.
  apply (wape_spec [100; 200] [110; 180]). reflexivity.
Defined.

End ForecastMetrics.

(** ** The relational model ([db/models.py]) *)
Module Db.
Import Py.

(** Primary keys are UUID strings drawn by [gen_uuid]; only their identity
    matters, so a key is a number.  A [DateTime] is a number of seconds. *)
Definition uuid : Type := nat.
Definition datetime : Type := Z.
Bind Scope nat_scope with uuid.
Bind Scope Z_scope with datetime.

(** The values of a run record's [status] column. *)
Inductive Status : Type :=
| Pending | Running | Done | Failed | Optimal | Infeasible.

Record Product : Type := {
  product_id : uuid;
  sku : string }.

Record Location : Type := {
  location_id : uuid }.

Record Supplier : Type := {
  supplier_id : uuid;
  name : string;
  rating : R;
  region : string;
  country : string;
  incoterms_supported : list string }.

(** [captured_at] has a server default ([func.now()]): the INSERT stamps it. *)
Record SupplierOffer : Type := {
  offer_id : uuid;
  so_supplier_id : uuid;
  so_product_id : uuid;
  price : R;
  currency : string;
  moq : Z;
  lead_time_days : option Z;
  capacity_units : option Z;
  captured_at : datetime;
  source : string;
  confidence : R }.

Record DemandHistory : Type := {
  dh_product_id : uuid;
  dh_location_id : uuid;
  dh_date : datetime;
  dh_qty : R }.

Record CostParameter : Type := {
  cp_product_id : uuid;
  cp_location_id : uuid;
  holding_cost_per_unit_period : R;
  setup_cost : R;
  stockout_penalty : option R;
  service_level : R }.

Record ScraperJob : Type := {
  job_id : uuid;
  job_status : Status;
  offers_collected : nat;
  job_error : option string;
  job_completed_at : option datetime }.

Record ForecastRun : Type := {
  frun_id : uuid;
  model_versions : list (string * uuid * string);
  frun_status : Status;
  frun_completed_at : option datetime }.

Record ForecastResult : Type := {
  fr_run_id : uuid;
  fr_product_id : uuid;
  fr_location_id : uuid;
  fr_date : datetime;
  p50 : R;
  p90 : R;
  model_used : string;
  fr_mape : R;
  fr_wape : R }.

Record InventoryPolicyRun : Type := {
  irun_id : uuid;
  irun_status : Status;
  irun_completed_at : option datetime }.

Record InventoryPolicyResult : Type := {
  ip_run_id : uuid;
  ip_product_id : uuid;
  ip_location_id : uuid;
  eoq : R;
  rop : R;
  safety_stock : R;
  avg_demand : R;
  demand_std : R;
  ip_lead_time_days : R;
  ip_service_level : R;
  annual_holding_cost : R;
  annual_ordering_cost : R }.

(** The name of a constraint of the allocation model
    ([demand_<p>_<l>], [capacity_<p>_<s>], ...). *)
Inductive ConstraintName : Type :=
| demand_ (p l : uuid)
| safety_stock_ (p l : uuid)
| capacity_ (p s : uuid)
| moq_ (p s : uuid)
| bigm_ (p s : uuid)
| max_suppliers_ (p : uuid).

Record CostBreakdown : Type := {
  procurement : R;
  shipping : R;
  holding : R;
  penalty : R }.

Record OptimisationRun : Type := {
  orun_id : uuid;
  orun_status : Status;
  orun_total_cost : R;
  solve_time_ms : Z;
  binding_constraints : list ConstraintName;
  cost_breakdown : CostBreakdown;
  orun_completed_at : option datetime }.

Record OptimisationAllocation : Type := {
  oa_run_id : uuid;
  oa_supplier_id : uuid;
  oa_product_id : uuid;
  oa_location_id : uuid;
  qty : R;
  unit_cost : R;
  ship_cost : R;
  total_cost : R }.

(** The tables the pipeline reads or writes. *)
Record Database : Type := {
  products : list Product;
  locations : list Location;
  suppliers : list Supplier;
  supplier_offers : list SupplierOffer;
  demand_history : list DemandHistory;
  cost_parameters : list CostParameter;
  scraper_jobs : list ScraperJob;
  forecast_runs : list ForecastRun;
  forecast_results : list ForecastResult;
  inventory_policy_runs : list InventoryPolicyRun;
  inventory_policy_results : list InventoryPolicyResult;
  optimisation_runs : list OptimisationRun;
  optimisation_allocations : list OptimisationAllocation }.

Definition set_suppliers (d : Database) (v : list Supplier) : Database :=
  {| products := products d; locations := locations d; suppliers := v;
     supplier_offers := supplier_offers d; demand_history := demand_history d;
     cost_parameters := cost_parameters d; scraper_jobs := scraper_jobs d;
     forecast_runs := forecast_runs d; forecast_results := forecast_results d;
     inventory_policy_runs := inventory_policy_runs d;
     inventory_policy_results := inventory_policy_results d;
     optimisation_runs := optimisation_runs d;
     optimisation_allocations := optimisation_allocations d |}.

Definition set_supplier_offers (d : Database) (v : list SupplierOffer) : Database :=
  {| products := products d; locations := locations d; suppliers := suppliers d;
     supplier_offers := v; demand_history := demand_history d;
     cost_parameters := cost_parameters d; scraper_jobs := scraper_jobs d;
     forecast_runs := forecast_runs d; forecast_results := forecast_results d;
     inventory_policy_runs := inventory_policy_runs d;
     inventory_policy_results := inventory_policy_results d;
     optimisation_runs := optimisation_runs d;
     optimisation_allocations := optimisation_allocations d |}.

Definition set_scraper_jobs (d : Database) (v : list ScraperJob) : Database :=
  {| products := products d; locations := locations d; suppliers := suppliers d;
     supplier_offers := supplier_offers d; demand_history := demand_history d;
     cost_parameters := cost_parameters d; scraper_jobs := v;
     forecast_runs := forecast_runs d; forecast_results := forecast_results d;
     inventory_policy_runs := inventory_policy_runs d;
     inventory_policy_results := inventory_policy_results d;
     optimisation_runs := optimisation_runs d;
     optimisation_allocations := optimisation_allocations d |}.

Definition set_forecast_runs (d : Database) (v : list ForecastRun) : Database :=
  {| products := products d; locations := locations d; suppliers := suppliers d;
     supplier_offers := supplier_offers d; demand_history := demand_history d;
     cost_parameters := cost_parameters d; scraper_jobs := scraper_jobs d;
     forecast_runs := v; forecast_results := forecast_results d;
     inventory_policy_runs := inventory_policy_runs d;
     inventory_policy_results := inventory_policy_results d;
     optimisation_runs := optimisation_runs d;
     optimisation_allocations := optimisation_allocations d |}.

Definition set_forecast_results (d : Database) (v : list ForecastResult) : Database :=
  {| products := products d; locations := locations d; suppliers := suppliers d;
     supplier_offers := supplier_offers d; demand_history := demand_history d;
     cost_parameters := cost_parameters d; scraper_jobs := scraper_jobs d;
     forecast_runs := forecast_runs d; forecast_results := v;
     inventory_policy_runs := inventory_policy_runs d;
     inventory_policy_results := inventory_policy_results d;
     optimisation_runs := optimisation_runs d;
     optimisation_allocations := optimisation_allocations d |}.

Definition set_inventory_policy_runs (d : Database) (v : list InventoryPolicyRun)
  : Database :=
  {| products := products d; locations := locations d; suppliers := suppliers d;
     supplier_offers := supplier_offers d; demand_history := demand_history d;
     cost_parameters := cost_parameters d; scraper_jobs := scraper_jobs d;
     forecast_runs := forecast_runs d; forecast_results := forecast_results d;
     inventory_policy_runs := v;
     inventory_policy_results := inventory_policy_results d;
     optimisation_runs := optimisation_runs d;
     optimisation_allocations := optimisation_allocations d |}.

Definition set_inventory_policy_results (d : Database)
  (v : list InventoryPolicyResult) : Database :=
  {| products := products d; locations := locations d; suppliers := suppliers d;
     supplier_offers := supplier_offers d; demand_history := demand_history d;
     cost_parameters := cost_parameters d; scraper_jobs := scraper_jobs d;
     forecast_runs := forecast_runs d; forecast_results := forecast_results d;
     inventory_policy_runs := inventory_policy_runs d;
     inventory_policy_results := v;
     optimisation_runs := optimisation_runs d;
     optimisation_allocations := optimisation_allocations d |}.

Definition set_optimisation_runs (d : Database) (v : list OptimisationRun)
  : Database :=
  {| products := products d; locations := locations d; suppliers := suppliers d;
     supplier_offers := supplier_offers d; demand_history := demand_history d;
     cost_parameters := cost_parameters d; scraper_jobs := scraper_jobs d;
     forecast_runs := forecast_runs d; forecast_results := forecast_results d;
     inventory_policy_runs := inventory_policy_runs d;
     inventory_policy_results := inventory_policy_results d;
     optimisation_runs := v;
     optimisation_allocations := optimisation_allocations d |}.

Definition set_optimisation_allocations (d : Database)
  (v : list OptimisationAllocation) : Database :=
  {| products := products d; locations := locations d; suppliers := suppliers d;
     supplier_offers := supplier_offers d; demand_history := demand_history d;
     cost_parameters := cost_parameters d; scraper_jobs := scraper_jobs d;
     forecast_runs := forecast_runs d; forecast_results := forecast_results d;
     inventory_policy_runs := inventory_policy_runs d;
     inventory_policy_results := inventory_policy_results d;
     optimisation_runs := optimisation_runs d;
     optimisation_allocations := v |}.

(** An object handed to [db.add] and not yet written. *)
Inductive Row : Type :=
| RSupplier (s : Supplier)
| ROffer (o : SupplierOffer)
| RForecastResult (r : ForecastResult)
| RInventoryPolicyResult (r : InventoryPolicyResult)
| ROptimisationAllocation (a : OptimisationAllocation).

Definition with_captured_at (o : SupplierOffer) (t : datetime) : SupplierOffer :=
  {| offer_id := offer_id o; so_supplier_id := so_supplier_id o;
     so_product_id := so_product_id o; price := price o; currency := currency o;
     moq := moq o; lead_time_days := lead_time_days o;
     capacity_units := capacity_units o; captured_at := t;
     source := source o; confidence := confidence o |}.

(** The INSERT of one row at server time [t]. *)
Definition insert_row (t : datetime) (d : Database) (r : Row) : Database :=
  match r with
  | RSupplier s => set_suppliers d (suppliers d ++ [s])
  | ROffer o => set_supplier_offers d (supplier_offers d ++ [with_captured_at o t])
  | RForecastResult r => set_forecast_results d (forecast_results d ++ [r])
  | RInventoryPolicyResult r =>
      set_inventory_policy_results d (inventory_policy_results d ++ [r])
  | ROptimisationAllocation a =>
      set_optimisation_allocations d (optimisation_allocations d ++ [a])
  end.

Definition insert_rows (t : datetime) (d : Database) (rows : list Row) : Database :=
  fold_left (insert_row t) rows d.

End Db.

(** ** The SQLAlchemy session, as a state-and-exception monad *)
Module Orm.
Import Py Db.

(** [core/config.py]. *)
Record Settings : Type := {
  solver_time_limit_seconds : Z;
  forecast_frequency : string;
  scraper_ttl_hours : Z }.

Definition default_settings : Settings :=
  {| solver_time_limit_seconds := 5;
     forecast_frequency := "W";
     scraper_ttl_hours := 24 |}.

(** What a run cannot change: the clock (the reading at each successive
    consultation), the reads that fail (a statement issued at reading [n]
    raises [query_fault n]), the session's [autoflush] flag, the settings. *)
Record Env : Type := {
  clock : nat -> datetime;
  query_fault : nat -> option exn;
  autoflush : bool;
  settings : Settings }.

(** The transaction in progress: the tables as this session sees them
    ([txn]), the objects added and not yet flushed ([pending]), the number of
    clock readings so far ([tick]) and of keys drawn ([uuid_counter]). *)
Record Session : Type := {
  env : Env;
  txn : Database;
  pending : list Row;
  tick : nat;
  uuid_counter : nat }.

(** The committed tables together with the session working on them. *)
Record World : Type := {
  committed : Database;
  session : Session }.

Definition ST (S A : Type) : Type := S -> S * result A.

Definition ret {S A : Type} (a : A) : ST S A := fun s => (s, inr a).

Definition raise {S A : Type} (e : exn) : ST S A := fun s => (s, inl e).

Definition bind {S A B : Type} (m : ST S A) (k : A -> ST S B) : ST S B :=
  fun s =>
    match m s with
    | (s', inr a) => k a s'
    | (s', inl e) => (s', inl e)
    end.

(** [try: body except Exception as exc: handler exc]. *)
Definition try_except {S A : Type} (body : ST S A) (handler : exn -> ST S A)
  : ST S A :=
  fun s =>
    match body s with
    | (s', inr a) => (s', inr a)
    | (s', inl e) => handler e s'
    end.

(** A pure computation that may raise. *)
Definition lift_result {S A : Type} (r : result A) : ST S A := fun s => (s, r).

End Orm.

Declare Scope st_scope.
Delimit Scope st_scope with st.
Notation "x <- m ;; k" := (Orm.bind m (fun x => k))
  (at level 61, m at next level, right associativity) : st_scope.
Notation "m ;; k" := (Orm.bind m (fun _ => k))
  (at level 61, right associativity) : st_scope.

Module OrmOps.
Import Py Db Orm.
Open Scope st_scope.

(** A [for] loop threading the loop-carried variables [a]. *)
Fixpoint foldM {S A X : Type} (f : A -> X -> ST S A) (xs : list X) (a : A)
  : ST S A :=
  match xs with
  | [] => ret a
  | x :: rest => a' <- f a x ;; foldM f rest a'
  end.

Definition with_txn (s : Session) (d : Database) : Session :=
  {| env := env s; txn := d; pending := pending s; tick := tick s;
     uuid_counter := uuid_counter s |}.

Definition with_pending (s : Session) (p : list Row) : Session :=
  {| env := env s; txn := txn s; pending := p; tick := tick s;
     uuid_counter := uuid_counter s |}.

Definition advance (s : Session) : Session :=
  {| env := env s; txn := txn s; pending := pending s; tick := S (tick s);
     uuid_counter := uuid_counter s |}.

(** [datetime.utcnow()]. *)
Definition utcnow : ST Session datetime :=
  fun s => (advance s, inr (clock (env s) (tick s))).

(** [gen_uuid()]. *)
Definition gen_uuid : ST Session uuid :=
  fun s =>
    ({| env := env s; txn := txn s; pending := pending s; tick := tick s;
        uuid_counter := S (uuid_counter s) |}, inr (uuid_counter s)).

(** [db.add(obj)]. *)
Definition db_add (r : Row) : ST Session unit :=
  fun s => (with_pending s (pending s ++ [r]), inr tt).

(** The session after [db.flush()]: the pending objects are inserted, at the
    server's current time. *)
Definition flushed (s : Session) : Session :=
  {| env := env s;
     txn := insert_rows (clock (env s) (tick s)) (txn s) (pending s);
     pending := [];
     tick := S (tick s);
     uuid_counter := uuid_counter s |}.

Definition db_flush : ST Session unit := fun s => (flushed s, inr tt).

(** [db.query(...)...all()] or [.first()]: with [autoflush] the pending
    objects are flushed first; then the statement runs, or fails. *)
Definition db_query {A : Type} (q : Database -> A) : ST Session A :=
  fun s =>
    let s1 := if autoflush (env s) then flushed s else s in
    match query_fault (env s1) (tick s1) with
    | Some e => (advance s1, inl e)
    | None => (advance s1, inr (q (txn s1)))
    end.

(** The module-level [settings = get_settings()]. *)
Definition get_settings : ST Session Settings :=
  fun s => (s, inr (settings (env s))).

(** An attribute assignment on persistent objects ([run.status = ...]). *)
Definition db_update (f : Database -> Database) : ST Session unit :=
  fun s => (with_txn s (f (txn s)), inr tt).

(** Work inside the session, seen from the world. *)
Definition lift {A : Type} (m : ST Session A) : ST World A :=
  fun w =>
    let (s', r) := m (session w) in
    ({| committed := committed w; session := s' |}, r).

(** [db.commit()]: flush, then make the transaction's tables the committed ones. *)
Definition db_commit : ST World unit :=
  fun w =>
    let s := flushed (session w) in
    ({| committed := txn s; session := s |}, inr tt).

(** [db.rollback()]: drop the pending objects and the uncommitted writes. *)
Definition db_rollback : ST World unit :=
  fun w =>
    ({| committed := committed w;
        session := with_pending (with_txn (session w) (committed w)) [] |},
     inr tt).

End OrmOps.

(** ** Query helpers and the shape shared by the four stage runners *)
Module Stage.
Import Py Db Orm OrmOps.
Open Scope st_scope.

(** [ORDER BY]: a stable insertion sort. *)
Fixpoint insert_by {A : Type} (leb : A -> A -> bool) (x : A) (l : list A) : list A :=
  match l with
  | [] => [x]
  | y :: rest => if leb x y then x :: y :: rest else y :: insert_by leb x rest
  end.

Definition order_by {A : Type} (leb : A -> A -> bool) (l : list A) : list A :=
  fold_right (insert_by leb) [] l.

Definition Rleb (x y : R) : bool := if Rle_dec x y then true else false.

(** [.first()]. *)
Definition first {A : Type} (l : list A) : option A := hd_error l.

(** The runners' common skeleton, once the run record is resolved:
    mark it running and commit; then the work and the closing writes and
    commit, inside [try]; on an exception roll back, mark the record failed,
    commit and re-raise. *)
Definition transaction {A : Type}
  (mark_running : Database -> Database)
  (work : ST Session A)
  (finish : A -> ST Session unit)
  (mark_failed : exn -> Database -> Database) : ST World unit :=
  lift (db_update mark_running) ;;
  db_commit ;;
  try_except
    (a <- lift work ;; lift (finish a) ;; db_commit)
    (fun exc =>
       db_rollback ;;
       lift (db_update (mark_failed exc)) ;;
       db_commit ;;
       raise exc).

(** The session in which the work of a stage starts. *)
Definition started (mark_running : Database -> Database) (w : World) : Session :=
  flushed (with_txn (session w) (mark_running (txn (session w)))).

Lemma in_insert_by {A : Type} (leb : A -> A -> bool) (x y : A) (l : list A) :
  In y (insert_by leb x l) <-> y = x \/ In y l.
Proof.
  induction l as [| z l IH]; simpl.
  - intuition.
  - destruct (leb x z); simpl; [intuition | rewrite IH; intuition].
Qed.

Lemma in_order_by {A : Type} (leb : A -> A -> bool) (y : A) (l : list A) :
  In y (order_by leb l) <-> In y l.
Proof.
  induction l as [| x l IH]; simpl; [tauto |].
  rewrite in_insert_by, IH. intuition.
Qed.

Lemma transaction_failure {A : Type} mark_running (work : ST Session A)
  finish mark_failed (w w' : World) (e : exn) :
  (forall a s, snd (finish a s) = inr tt) ->
  transaction mark_running work finish mark_failed w = (w', inl e) ->
  exists s2,
    work (started mark_running w) = (s2, inl e)
    /\ committed w' = mark_failed e (txn (started mark_running w))
    /\ txn (session w') = committed w'
    /\ pending (session w') = [].
Proof.
  intros Hfin.
  unfold transaction, bind, try_except, lift, db_update, db_commit, db_rollback,
    raise, started. cbn.
  destruct (work _) as [s2 [e2 | a]] eqn:Hw; cbn.
  - intros H. inversion H; subst; clear H. exists s2. cbn. auto.
  - specialize (Hfin a s2). destruct (finish a s2) as [s3 r3]. cbn in Hfin. subst r3.
    cbn. discriminate.
Qed.

Lemma transaction_success {A : Type} mark_running (work : ST Session A)
  finish mark_failed (w w' : World) (u : unit) :
  transaction mark_running work finish mark_failed w = (w', inr u) ->
  exists s2 a s3,
    work (started mark_running w) = (s2, inr a)
    /\ finish a s2 = (s3, inr tt)
    /\ committed w' = txn (flushed s3)
    /\ session w' = flushed s3.
Proof.
  unfold transaction, bind, try_except, lift, db_update, db_commit, db_rollback,
    raise, started. cbn.
  destruct (work _) as [s2 [e2 | a]] eqn:Hw; cbn; [discriminate |].
  destruct (finish a s2) as [s3 [e3 | []]] eqn:Hf; cbn; [discriminate |].
  intros H. inversion H; subst; clear H. exists s2, a, s3. cbn. auto.
Qed.

(** *** Tables, as the session fills them *)

(** A table of the database: its rows ([sel]), the pending objects that
    belong to it ([proj]), and what the INSERT at time [t] makes of one
    ([stamp]: the server defaults). *)
Class Table (X : Type) : Type := {
  sel : Database -> list X;
  proj : Row -> option X;
  stamp : datetime -> X -> X;
  sel_insert_row : forall t d r,
    sel (insert_row t d r)
    = sel d ++ match proj r with Some x => [stamp t x] | None => [] end }.

#[export] Instance forecast_results_table : Table ForecastResult := {|
  sel := forecast_results;
  proj := fun r => match r with RForecastResult x => Some x | _ => None end;
  stamp := fun _ x => x;
  sel_insert_row := ltac:(intros t d []; cbn; auto using app_nil_r) |}.

#[export] Instance inventory_policy_results_table : Table InventoryPolicyResult := {|
  sel := inventory_policy_results;
  proj := fun r => match r with RInventoryPolicyResult x => Some x | _ => None end;
  stamp := fun _ x => x;
  sel_insert_row := ltac:(intros t d []; cbn; auto using app_nil_r) |}.

#[export] Instance optimisation_allocations_table : Table OptimisationAllocation := {|
  sel := optimisation_allocations;
  proj := fun r => match r with ROptimisationAllocation x => Some x | _ => None end;
  stamp := fun _ x => x;
  sel_insert_row := ltac:(intros t d []; cbn; auto using app_nil_r) |}.

#[export] Instance supplier_offers_table : Table SupplierOffer := {|
  sel := supplier_offers;
  proj := fun r => match r with ROffer x => Some x | _ => None end;
  stamp := fun t x => with_captured_at x t;
  sel_insert_row := ltac:(intros t d []; cbn; auto using app_nil_r) |}.

#[export] Instance suppliers_table : Table Supplier := {|
  sel := suppliers;
  proj := fun r => match r with RSupplier x => Some x | _ => None end;
  stamp := fun _ x => x;
  sel_insert_row := ltac:(intros t d []; cbn; auto using app_nil_r) |}.

#[export] Instance products_table : Table Product := {|
  sel := products;
  proj := fun _ => None;
  stamp := fun _ x => x;
  sel_insert_row := ltac:(intros t d []; cbn; auto using app_nil_r) |}.

Section Tables.

Context {X : Type} {T : Table X}.

(** The pending objects of the table, oldest first. *)
Definition pending_rows (rows : list Row) : list X :=
  flat_map (fun r => match proj r with Some x => [x] | None => [] end) rows.

(** Every row of the table, written or pending, satisfies [P]. *)
Definition all_rows (P : X -> Prop) (s : Session) : Prop :=
  Forall P (sel (txn s)) /\ Forall P (pending_rows (pending s)).

(** [P] does not look at the server defaults. *)
Definition stable (P : X -> Prop) : Prop := forall t x, P x -> P (stamp t x).

(** The tables a statement issued in session [s] may read. *)
Definition reads (d : Database) (s : Session) : Prop :=
  d = txn s \/ d = txn (flushed s).

Lemma sel_insert_rows (t : datetime) (rows : list Row) (d : Database) :
  sel (insert_rows t d rows) = sel d ++ map (stamp t) (pending_rows rows).
Proof.
  unfold insert_rows. revert d.
  induction rows as [| r rows IH]; intros d; cbn.
  - now rewrite app_nil_r.
  - rewrite IH, sel_insert_row, <- app_assoc. f_equal.
    unfold pending_rows. cbn [flat_map]. rewrite map_app.
    destruct (proj r); reflexivity.
Qed.

Lemma pending_rows_app (a b : list Row) :
  pending_rows (a ++ b) = pending_rows a ++ pending_rows b.
Proof. unfold pending_rows. apply flat_map_app. Qed.

Lemma sel_flushed (s : Session) :
  sel (txn (flushed s))
  = sel (txn s) ++ map (stamp (clock (env s) (tick s))) (pending_rows (pending s)).
Proof. unfold flushed; cbn. apply sel_insert_rows. Qed.

Lemma all_rows_flushed (P : X -> Prop) (s : Session) :
  stable P -> all_rows P s -> all_rows P (flushed s).
Proof.
  intros Hst [Ht Hp]. split; [| constructor].
  rewrite sel_flushed. apply Forall_app. split; [exact Ht |].
  apply Forall_forall. intros x Hx. apply in_map_iff in Hx.
  destruct Hx as [y [<- Hy]]. apply Hst. rewrite Forall_forall in Hp. auto.
Qed.

Lemma all_rows_advance (P : X -> Prop) (s : Session) :
  all_rows P s -> all_rows P (advance s).
Proof. intros H; exact H. Qed.

Lemma all_rows_reads (P : X -> Prop) (s : Session) (d : Database) :
  stable P -> all_rows P s -> reads d s -> Forall P (sel d).
Proof.
  intros Hst H [-> | ->]; [apply H |].
  now apply all_rows_flushed.
Qed.

Lemma all_rows_add (P : X -> Prop) (s : Session) (r : Row) :
  all_rows P s ->
  match proj r with Some x => P x | None => True end ->
  all_rows P (with_pending s (pending s ++ [r])).
Proof.
  intros [Ht Hp] Hr. split; [exact Ht |]. cbn.
  rewrite pending_rows_app. apply Forall_app. split; [exact Hp |].
  cbn. destruct (proj r); cbn; auto.
Qed.

Lemma all_rows_update (P : X -> Prop) (s : Session) (f : Database -> Database) :
  (forall d, sel (f d) = sel d) ->
  all_rows P s -> all_rows P (with_txn s (f (txn s))).
Proof. intros Hf [Ht Hp]. split; cbn; [now rewrite Hf | exact Hp]. Qed.

End Tables.

(** *** Reasoning about normal returns *)

(** From a state satisfying [P], if [m] returns [a], the state satisfies
    [Q a].  (What a raising run leaves behind is rolled back.) *)
Definition hoare {S A : Type} (P : S -> Prop) (m : ST S A) (Q : A -> S -> Prop)
  : Prop :=
  forall s s' a, P s -> m s = (s', inr a) -> Q a s'.

(** [J] holds on after a clock reading and after a flush. *)
Definition tick_stable (J : Session -> Prop) : Prop :=
  forall s, J s -> J (advance s) /\ J (flushed s).

Lemma hoare_ret {S A : Type} (P : S -> Prop) (a : A) (Q : A -> S -> Prop) :
  (forall s, P s -> Q a s) -> hoare P (ret a) Q.
Proof. intros H s s' a' Hp E. inversion E; subst. auto. Qed.

Lemma hoare_raise {S A : Type} (P : S -> Prop) (e : exn) (Q : A -> S -> Prop) :
  hoare P (raise e) Q.
Proof. intros s s' a _ E. discriminate. Qed.

Lemma hoare_bind {S A B : Type} (P : S -> Prop) (m : ST S A) (R : A -> S -> Prop)
  (k : A -> ST S B) (Q : B -> S -> Prop) :
  hoare P m R -> (forall a, hoare (R a) (k a) Q) -> hoare P (bind m k) Q.
Proof.
  intros Hm Hk s s' b Hp E. unfold bind in E.
  destruct (m s) as [s1 [e | a]] eqn:Em; [discriminate |].
  eapply Hk; [eapply Hm; eauto | exact E].
Qed.

Lemma hoare_conseq {S A : Type} (P P' : S -> Prop) (m : ST S A)
  (Q Q' : A -> S -> Prop) :
  hoare P' m Q' -> (forall s, P s -> P' s) -> (forall a s, Q' a s -> Q a s) ->
  hoare P m Q.
Proof. intros H Hp Hq s s' a Hs E. eapply Hq, H; eauto. Qed.

Lemma hoare_foldM {S A X : Type} (I : A -> S -> Prop) (f : A -> X -> ST S A)
  (xs : list X) (a0 : A) :
  (forall a x, In x xs -> hoare (I a) (f a x) I) ->
  hoare (I a0) (foldM f xs a0) I.
Proof.
  revert a0. induction xs as [| x xs IH]; intros a0 Hf; cbn.
  - apply hoare_ret. auto.
  - eapply hoare_bind.
    + apply Hf. now left.
    + intros a. apply IH. intros a' x' Hin. apply Hf. now right.
Qed.

Lemma hoare_lift_result {S A : Type} (P : S -> Prop) (r : result A) :
  hoare P (lift_result r) (fun a s => P s /\ r = inr a).
Proof. intros s s' a Hp E. unfold lift_result in E. inversion E; subst. auto. Qed.

Lemma hoare_query {A : Type} (J : Session -> Prop) (q : Database -> A) :
  tick_stable J ->
  hoare J (db_query q)
    (fun a s' => J s' /\ exists s0 d, J s0 /\ reads d s0 /\ a = q d).
Proof.
  intros Hst s s' a Hj E. unfold db_query in E.
  destruct (autoflush (env s)).
  - destruct (query_fault _ _); inversion E; subst; clear E.
    split; [apply Hst, Hst, Hj |].
    exists s, (txn (flushed s)). repeat split; auto. now right.
  - destruct (query_fault _ _); inversion E; subst; clear E.
    split; [apply Hst, Hj |].
    exists s, (txn s). repeat split; auto. now left.
Qed.

Lemma hoare_add (P : Session -> Prop) (r : Row) :
  hoare P (db_add r)
    (fun _ s' => exists s, P s /\ s' = with_pending s (pending s ++ [r])).
Proof. intros s s' a Hp E. inversion E; subst. eauto. Qed.

Lemma hoare_get_settings (P : Session -> Prop) :
  hoare P get_settings (fun _ s => P s).
Proof. intros s s' a Hp E. inversion E; subst. exact Hp. Qed.

Lemma hoare_update (P : Session -> Prop) (f : Database -> Database) :
  hoare P (db_update f) (fun _ s' => exists s, P s /\ s' = with_txn s (f (txn s))).
Proof. intros s s' a Hp E. inversion E; subst. eauto. Qed.

Lemma hoare_utcnow (J : Session -> Prop) :
  tick_stable J -> hoare J utcnow (fun _ s' => J s').
Proof. intros Hst s s' a Hj E. inversion E; subst. now apply Hst. Qed.

Lemma hoare_bind_inv {S A B : Type} (J : S -> Prop) (m : ST S A)
  (k : A -> ST S B) (Q : B -> S -> Prop) :
  hoare J m (fun _ s => J s) -> (forall a, hoare J (k a) Q) -> hoare J (bind m k) Q.
Proof. intros Hm Hk. eapply hoare_bind; [exact Hm | exact Hk]. Qed.

Lemma hoare_query_inv {A : Type} (J : Session -> Prop) (q : Database -> A) :
  tick_stable J -> hoare J (db_query q) (fun _ s => J s).
Proof.
  intros Hst. eapply hoare_conseq; [apply hoare_query, Hst | auto |].
  cbv beta. tauto.
Qed.

Lemma hoare_foldM_inv {A X : Type} (J : Session -> Prop) (f : A -> X -> ST Session A)
  (xs : list X) (a0 : A) :
  (forall a x, hoare J (f a x) (fun _ s => J s)) ->
  hoare J (foldM f xs a0) (fun _ s => J s).
Proof. intros H. apply (hoare_foldM (fun _ s => J s)). intros a x _. apply H. Qed.

Lemma hoare_lift_result_inv {S A : Type} (P : S -> Prop) (r : result A) :
  hoare P (lift_result r) (fun _ s => P s).
Proof. intros s s' a Hp E. unfold lift_result in E. inversion E; subst. auto. Qed.

Lemma tick_stable_all_rows {X : Type} {T : Table X} (P : X -> Prop) :
  stable P -> tick_stable (all_rows P).
Proof.
  intros Hst s H. split; [now apply all_rows_advance | now apply all_rows_flushed].
Qed.

Lemma tick_stable_and (J K : Session -> Prop) :
  tick_stable J -> tick_stable K -> tick_stable (fun s => J s /\ K s).
Proof. intros HJ HK s [Hj Hk]. split; split; solve [apply HJ; auto | apply HK; auto]. Qed.

(** *** Statements, readings and loops *)

(** The session a statement runs in: after the autoflush, if it is on. *)
Definition settle (s : Session) : Session :=
  if autoflush (env s) then flushed s else s.

Lemma db_query_returns {A : Type} (q : Database -> A) (s s' : Session) (a : A) :
  db_query q s = (s', inr a) -> s' = advance (settle s) /\ a = q (txn (settle s)).
Proof.
  unfold db_query, settle.
  destruct (autoflush (env s)); destruct (query_fault _ _); intros E;
    inversion E; auto.
Qed.

Lemma settle_cases (s : Session) : settle s = s \/ settle s = flushed s.
Proof. unfold settle. destruct (autoflush (env s)); auto. Qed.

(** The clock readings never go back. *)
Definition rising {S A : Type} (tk : S -> nat) (m : ST S A) : Prop :=
  forall s, (tk s <= tk (fst (m s)))%nat.

Lemma rising_ret {S A : Type} (tk : S -> nat) (a : A) : rising tk (ret a).
Proof. intros s. cbn. lia. Qed.

Lemma rising_raise {S A : Type} (tk : S -> nat) (e : exn) :
  rising tk (raise (A := A) e).
Proof. intros s. cbn. lia. Qed.

Lemma rising_bind {S A B : Type} (tk : S -> nat) (m : ST S A) (k : A -> ST S B) :
  rising tk m -> (forall a, rising tk (k a)) -> rising tk (bind m k).
Proof.
  intros Hm Hk s. unfold bind. specialize (Hm s).
  destruct (m s) as [s1 [e | a]]; cbn in *; [exact Hm |].
  specialize (Hk a s1). lia.
Qed.

Lemma rising_try_except {S A : Type} (tk : S -> nat) (m : ST S A)
  (h : exn -> ST S A) :
  rising tk m -> (forall e, rising tk (h e)) -> rising tk (try_except m h).
Proof.
  intros Hm Hh s. unfold try_except. specialize (Hm s).
  destruct (m s) as [s1 [e | a]]; cbn in *; [| exact Hm].
  specialize (Hh e s1). lia.
Qed.

Lemma rising_foldM {S A X : Type} (tk : S -> nat) (f : A -> X -> ST S A)
  (xs : list X) (a : A) :
  (forall a x, rising tk (f a x)) -> rising tk (foldM f xs a).
Proof.
  intros Hf. revert a. induction xs as [| x xs IH]; intros a; cbn.
  - apply rising_ret.
  - apply rising_bind; auto.
Qed.

Lemma rising_lift {A : Type} (m : ST Session A) :
  rising tick m -> rising (fun w => tick (session w)) (lift m).
Proof.
  intros Hm w. unfold lift. specialize (Hm (session w)).
  destruct (m (session w)) as [s1 r]. exact Hm.
Qed.

Lemma rising_query {A : Type} (q : Database -> A) : rising tick (db_query q).
Proof.
  intros s. unfold db_query.
  destruct (autoflush (env s)); destruct (query_fault _ _); cbn; lia.
Qed.

Lemma rising_utcnow : rising tick utcnow.
Proof. intros s. cbn. lia. Qed.

Lemma rising_gen_uuid : rising tick gen_uuid.
Proof. intros s. cbn. lia. Qed.

Lemma rising_add (r : Row) : rising tick (db_add r).
Proof. intros s. cbn. lia. Qed.

Lemma rising_flush : rising tick db_flush.
Proof. intros s. cbn. lia. Qed.

Lemma rising_update (f : Database -> Database) : rising tick (db_update f).
Proof. intros s. cbn. lia. Qed.

Lemma rising_get_settings : rising tick get_settings.
Proof. intros s. cbn. lia. Qed.

Lemma rising_commit : rising (fun w => tick (session w)) db_commit.
Proof. intros w. cbn. lia. Qed.

Lemma rising_rollback : rising (fun w => tick (session w)) db_rollback.
Proof. intros w. cbn. lia. Qed.

(** A loop that covers more with every pass: if the pass for [x] extends
    what the invariant [K] covers by [g x], the loop extends it by the
    [g x] of every [x]. *)
Lemma hoare_foldM_grow {S A X Y : Type} (K : (Y -> Prop) -> S -> Prop)
  (g : X -> Y -> Prop) (f : A -> X -> ST S A) (xs : list X) (a0 : A)
  (G0 : Y -> Prop) :
  (forall G G' s, (forall y, G' y -> G y) -> K G s -> K G' s) ->
  (forall G a x, In x xs ->
     hoare (K G) (f a x) (fun _ => K (fun y => G y \/ g x y))) ->
  hoare (K G0) (foldM f xs a0)
    (fun _ => K (fun y => G0 y \/ exists x, In x xs /\ g x y)).
Proof.
  intros Hmono. revert a0 G0.
  induction xs as [| x xs IH]; intros a0 G0 Hf; cbn [foldM].
  - apply hoare_ret. intros s Hs. apply (Hmono G0); [| exact Hs].
    intros y [Hy | [x [[] _]]]. exact Hy.
  - eapply hoare_bind; [apply Hf; now left |].
    intros a. eapply hoare_conseq.
    + apply (IH a (fun y => G0 y \/ g x y)).
      intros G a' x' Hin. apply Hf. now right.
    + auto.
    + cbv beta. intros _ s. apply Hmono.
      intros y [Hy | [x' [[<- | Hin] Hg]]]; [tauto | tauto |].
      right. eauto.
Qed.

(** *** Worlds to run the stages in *)

(** An environment where the clock reads 0, 1, 2, ... seconds and no
    statement fails. *)
Definition quiet_env : Env :=
  {| clock := fun n => Z.of_nat n;
     query_fault := fun _ => None;
     autoflush := true;
     settings := default_settings |}.

(** A fresh session on the committed tables [d]. *)
Definition world_of (e : Env) (d : Database) : World :=
  {| committed := d;
     session := {| env := e; txn := d; pending := []; tick := 0;
                   uuid_counter := 1000 |} |}.

(** Runs a stage on a concrete world, as far as the arithmetic lets it. *)
Ltac st_eval :=
  repeat progress
    (unfold bind, lift, db_query, try_except, db_update, db_commit, db_rollback,
       raise, utcnow, db_add, db_flush, gen_uuid, get_settings, lift_result, ret;
     cbn).

(** *** What a run leaves in a table *)

(** [x] was in the table before the run: committed, written by the session,
    or pending in it. *)
Definition known {X : Type} {T : Table X} (w : World) (x : X) : Prop :=
  In x (sel (committed w)) \/ In x (sel (txn (session w)))
  \/ In x (pending_rows (pending (session w))).

(** The opening of every runner: look the run record up, raise if there is
    none, go on with it otherwise. *)
Lemma resolved_then {A R : Type} (q : Database -> option R) (e0 : exn)
  (k : R -> ST World A) (w w' : World) (r : result A) :
  bind (lift (db_query q))
    (fun run => match run with None => raise e0 | Some run => k run end) w
  = (w', r) ->
  (committed w' = committed w /\ exists e, r = inl e)
  \/ exists s1 run d,
       reads d (session w) /\ q d = Some run
       /\ (s1 = advance (session w) \/ s1 = advance (flushed (session w)))
       /\ k run {| committed := committed w; session := s1 |} = (w', r).
Proof.
  unfold bind, lift, db_query, raise.
  destruct (autoflush (env (session w))).
  - destruct (query_fault _ _).
    + intros E; inversion E; subst. left; eauto.
    + destruct (q (txn (flushed (session w)))) as [run |] eqn:Eq.
      * intros E. right. exists (advance (flushed (session w))), run,
          (txn (flushed (session w))).
        repeat split; auto. now right.
      * intros E; inversion E; subst. left; eauto.
  - destruct (query_fault _ _).
    + intros E; inversion E; subst. left; eauto.
    + destruct (q (txn (session w))) as [run |] eqn:Eq.
      * intros E. right. exists (advance (session w)), run, (txn (session w)).
        repeat split; auto. now left.
      * intros E; inversion E; subst. left; eauto.
Qed.

(** If the work and the closing writes of a stage keep [J], and [J] says
    that every row of a table satisfies [P], then every row the stage
    commits satisfies [P], however the stage ends. *)
Lemma transaction_all_rows {X : Type} {T : Table X} {A : Type}
  (P : X -> Prop) (J : Session -> Prop)
  mark_running (work : ST Session A) finish mark_failed (w w' : World)
  (r : result unit) :
  stable P ->
  tick_stable J ->
  (forall s, J s -> all_rows P s) ->
  (forall s, J s -> J (with_txn s (mark_running (txn s)))) ->
  (forall e d, sel (mark_failed e d) = sel d) ->
  hoare J work (fun _ s => J s) ->
  (forall a, hoare J (finish a) (fun _ s => J s)) ->
  J (session w) ->
  transaction mark_running work finish mark_failed w = (w', r) ->
  Forall P (sel (committed w')).
Proof.
  intros Hst Hts HJ Hrun Hfail Hwork Hfin Hw.
  assert (Hs1 : J (started mark_running w)) by (apply Hts, Hrun, Hw).
  assert (Hfailed : forall e, Forall P (sel (mark_failed e (txn (started mark_running w))))).
  { intros e. rewrite Hfail. apply HJ, Hs1. }
  unfold transaction, bind, try_except, lift, db_update, db_commit, db_rollback, raise.
  cbn. fold (started mark_running w).
  destruct (work _) as [s2 [e2 | a]] eqn:Ew; cbn.
  - intros E; inversion E; subst; cbn. apply Hfailed.
  - destruct (finish a s2) as [s3 [e3 | []]] eqn:Ef; cbn.
    + intros E; inversion E; subst; cbn. apply Hfailed.
    + intros E; inversion E; subst; cbn.
      assert (J s3) by (eapply Hfin; [eapply Hwork |]; eauto).
      apply (all_rows_flushed P s3 Hst). now apply HJ.
Qed.

(** *** A failing stage *)



End Stage.

(** ** The inventory stage ([run_inventory_policy]) *)
Module Inventory.
Import Py Db Orm OrmOps Stage InventoryMath.
Open Scope st_scope.

Definition find_run (run_id : uuid) (d : Database) : option InventoryPolicyRun :=
  first (filter (fun r => Nat.eqb (irun_id r) run_id) (inventory_policy_runs d)).

Definition update_run (run_id : uuid) (f : InventoryPolicyRun -> InventoryPolicyRun)
  (d : Database) : Database :=
  set_inventory_policy_runs d
    (map (fun r => if Nat.eqb (irun_id r) run_id then f r else r)
       (inventory_policy_runs d)).

Definition with_status (st : Status) (r : InventoryPolicyRun) : InventoryPolicyRun :=
  {| irun_id := irun_id r; irun_status := st;
     irun_completed_at := irun_completed_at r |}.

Definition completed (t : datetime) (r : InventoryPolicyRun) : InventoryPolicyRun :=
  {| irun_id := irun_id r; irun_status := Done; irun_completed_at := Some t |}.

(** The cheapest offer of a product. *)
Definition cheapest_offer (product : uuid) (d : Database) : option SupplierOffer :=
  first (order_by (fun a b => Rleb (price a) (price b))
           (filter (fun o => Nat.eqb (so_product_id o) product) (supplier_offers d))).

(** The forecasts of one run for a product and location, by date. *)
Definition forecasts_of (forecast_run_id product location : uuid) (d : Database)
  : list ForecastResult :=
  order_by (fun a b => Z.leb (fr_date a) (fr_date b))
    (filter (fun f => Nat.eqb (fr_run_id f) forecast_run_id
                      && Nat.eqb (fr_product_id f) product
                      && Nat.eqb (fr_location_id f) location)
       (forecast_results d)).

Section WithQuantile.

Variable norm_ppf : R -> R.

(** One pass of the loop over the cost parameters. *)
Definition policy_step (run_id forecast_run_id : uuid) (periods_per_year : Z)
  (results_added : nat) (cp : CostParameter) : ST Session nat :=
  let h_annual := holding_cost_per_unit_period cp * IZR periods_per_year in
  let s := setup_cost cp in
  let sl := service_level cp in
  latest_offer <- db_query (cheapest_offer (cp_product_id cp)) ;;
  lead_time_weeks <-
    match latest_offer with
    | Some o =>
        match lead_time_days o with
        | Some days => ret (IZR days / 7)
        | None =>
            raise (TypeError "unsupported operand type(s) for /: 'NoneType' and 'float'")
        end
    | None => ret 4
    end ;;
  forecasts <- db_query (forecasts_of forecast_run_id (cp_product_id cp)
                           (cp_location_id cp)) ;;
  match forecasts with
  | [] => ret results_added
  | _ :: _ =>
      let p50_values := map p50 forecasts in
      let demand_mean := np_mean p50_values in
      let demand_std := np_std p50_values in
      let demand_annual := demand_mean * IZR periods_per_year in
      eoq <- lift_result (compute_eoq demand_annual s h_annual) ;;
      ss <- lift_result (compute_safety_stock norm_ppf demand_std lead_time_weeks sl 0) ;;
      let rop := compute_rop demand_mean lead_time_weeks ss in
      let costs := annual_inventory_cost eoq demand_annual s h_annual in
      db_add (RInventoryPolicyResult
                {| ip_run_id := run_id;
                   ip_product_id := cp_product_id cp;
                   ip_location_id := cp_location_id cp;
                   eoq := eoq;
                   rop := rop;
                   safety_stock := ss;
                   avg_demand := round demand_mean 2;
                   demand_std := round demand_std 2;
                   ip_lead_time_days := round (lead_time_weeks * 7) 1;
                   ip_service_level := sl;
                   annual_holding_cost := InventoryMath.holding costs;
                   annual_ordering_cost := ordering costs |}) ;;
      ret (S results_added)
  end.

(** The body of the [try] block, up to the closing writes. *)
Definition policy_work (run_id forecast_run_id : uuid) (periods_per_year : Z)
  : ST Session nat :=
  cost_params <- db_query cost_parameters ;;
  foldM (policy_step run_id forecast_run_id periods_per_year) cost_params 0%nat.

Definition policy_finish (run_id : uuid) (_ : nat) : ST Session unit :=
  now <- utcnow ;;
  db_update (update_run run_id (completed now)).

Definition run_inventory_policy (run_id forecast_run_id : uuid)
  (periods_per_year : Z) : ST World unit :=
  run <- lift (db_query (find_run run_id)) ;;
  match run with
  | None => raise (ValueError "InventoryPolicyRun not found")
  | Some _ =>
      lift (db_update (update_run run_id (with_status Running))) ;;
      db_commit ;;
      try_except
        (results_added <- lift (policy_work run_id forecast_run_id periods_per_year) ;;
         lift (policy_finish run_id results_added) ;;
         db_commit)
        (fun exc =>
           db_rollback ;;
           lift (db_update (update_run run_id (with_status Failed))) ;;
           db_commit ;;
           raise exc)
  end.

End WithQuantile.

(** *** The reorder point against the persisted fields *)

(** The distance between the persisted reorder point and the one recomputed
    from the persisted mean demand, lead time and safety stock. *)
Definition rop_error (row : InventoryPolicyResult) : R :=
  Rabs (rop row
        - (avg_demand row * (ip_lead_time_days row / 7) + safety_stock row)).

(** The offers' lead times are not negative. *)
Definition lead_time_ok (o : SupplierOffer) : Prop :=
  forall days, lead_time_days o = Some days -> (0 <= days)%Z.

Definition rop_ok (row : InventoryPolicyResult) : Prop :=
  rop_error row <= 0.05 + 0.005 * (ip_lead_time_days row / 7)
  /\ (ip_lead_time_days row <= 70 -> rop_error row <= 0.1).

Lemma compute_rop_bound (mean L ss : R) :
  0 <= mean -> 0 <= L -> 0 <= ss ->
  Rabs (compute_rop mean L ss - (round mean 2 * L + ss)) <= 0.05 + 0.005 * L.
Proof.
  intros Hm HL Hs. unfold compute_rop.
  assert (Hx : 0 <= mean * L + ss) by nra.
  rewrite Rmax_right by now apply round_nonneg.
  pose proof (round_err (mean * L + ss) 1) as H1.
  pose proof (round_err mean 2) as H2.
  apply Rabs_le_inv in H1. apply Rabs_le_inv in H2. simpl in H1, H2.
  apply Rabs_le. split; nra.
Qed.

Lemma compute_safety_stock_nonneg (norm_ppf : R -> R) (sd L sl sL ss : R) :
  compute_safety_stock norm_ppf sd L sl sL = inr ss -> 0 <= ss.
Proof.
  unfold compute_safety_stock.
  destruct (Rle_dec L 0).
  - intros E; inversion E; lra.
  - destruct (math_sqrt _); cbn; intros E; inversion E. apply Rmax_l.
Qed.

Lemma in_first {A : Type} (l : list A) (x : A) : first l = Some x -> In x l.
Proof. destruct l; cbn; intros E; inversion E; now left. Qed.

Section Policy.

Variable norm_ppf : R -> R.
Variable w : World.

(** The invariant of the loop over the cost parameters. *)
Definition policy_inv (s : Session) : Prop :=
  all_rows (fun f : ForecastResult => 0 <= p50 f) s
  /\ all_rows lead_time_ok s
  /\ all_rows (fun row => known w row \/ rop_ok row) s.

Lemma stable_p50 : stable (fun f : ForecastResult => 0 <= p50 f).
Proof. intros t x H; exact H. Qed.

Lemma stable_lead_time_ok : stable lead_time_ok.
Proof. intros t x H; exact H. Qed.

Lemma stable_rop_ok : stable (fun row => known w row \/ rop_ok row).
Proof. intros t x H; exact H. Qed.

Lemma policy_inv_tick_stable : tick_stable policy_inv.
Proof.
  apply (tick_stable_and (all_rows (fun f : ForecastResult => 0 <= p50 f))).
  - apply tick_stable_all_rows, stable_p50.
  - apply (tick_stable_and (all_rows lead_time_ok)).
    + apply tick_stable_all_rows, stable_lead_time_ok.
    + apply tick_stable_all_rows, stable_rop_ok.
Qed.

Lemma policy_step_inv (run_id forecast_run_id : uuid) (periods_per_year : Z)
  (n : nat) (cp : CostParameter) :
  hoare policy_inv
    (policy_step norm_ppf run_id forecast_run_id periods_per_year n cp)
    (fun _ s => policy_inv s).
Proof.
  unfold policy_step.
  eapply hoare_bind; [apply hoare_query, policy_inv_tick_stable |].
  intros latest_offer. cbv beta.
  eapply hoare_bind with
    (R := fun ltw s => policy_inv s /\ 0 <= ltw /\ exists k : Z, ltw * 7 = IZR k).
  { destruct latest_offer as [o |].
    - destruct (lead_time_days o) as [days |] eqn:Ed; [| apply hoare_raise].
      apply hoare_ret. intros s [Hs [s0 [d [Hs0 [Hrd Eq]]]]].
      split; [exact Hs |].
      assert (Hok : lead_time_ok o).
      { destruct Hs0 as [_ [Ho _]].
        pose proof (all_rows_reads _ _ _ stable_lead_time_ok Ho Hrd) as Hall.
        rewrite Forall_forall in Hall. apply Hall.
        symmetry in Eq. apply in_first, in_order_by, filter_In in Eq. apply Eq. }
      specialize (Hok days Ed). apply IZR_le in Hok.
      split; [lra | exists days; lra].
    - apply hoare_ret. intros s [Hs _].
      split; [exact Hs | split; [lra | exists 28%Z; lra]]. }
  intros ltw.
  eapply hoare_bind with
    (R := fun fs s => policy_inv s /\ 0 <= ltw /\ (exists k : Z, ltw * 7 = IZR k)
                      /\ Forall (fun f : ForecastResult => 0 <= p50 f) fs).
  { intros s s' fs [Hs [Hl Hk]] E.
    pose proof (hoare_query policy_inv _ policy_inv_tick_stable s s' fs Hs E)
      as [Hs' [s0 [d [Hs0 [Hrd Eq]]]]].
    split; [exact Hs' | split; [exact Hl | split; [exact Hk |]]].
    destruct Hs0 as [Hf _].
    pose proof (all_rows_reads _ _ _ stable_p50 Hf Hrd) as Hall.
    rewrite Forall_forall in Hall |- *. intros f Hin. apply Hall.
    subst fs. apply in_order_by, filter_In in Hin. apply Hin. }
  intros forecasts.
  destruct forecasts as [| f0 fs]; [apply hoare_ret; tauto |].
  set (p50_values := map p50 (f0 :: fs)).
  eapply hoare_bind; [apply hoare_lift_result |]. intros eoq_v. cbv beta.
  eapply hoare_bind; [apply hoare_lift_result |]. intros ss. cbv beta.
  eapply hoare_bind; [apply hoare_add |]. intros u.
  apply hoare_ret.
  intros s' [s [[[[Hs [Hl [[k Hk] Hfs]]] Heoq] Hss] ->]].
  destruct Hs as [Hf [Ho Hr]].
  split; [| split].
  - apply all_rows_add; cbn; auto.
  - apply all_rows_add; cbn; auto.
  - apply all_rows_add; [exact Hr |]. cbn. right.
    assert (Hmean : 0 <= np_mean p50_values).
    { apply np_mean_nonneg. unfold p50_values.
      rewrite Forall_forall in Hfs |- *. intros x Hx.
      apply in_map_iff in Hx. destruct Hx as [f [<- Hin]]. auto. }
    apply compute_safety_stock_nonneg in Hss.
    pose proof (compute_rop_bound (np_mean p50_values) ltw ss Hmean Hl Hss) as Hb.
    assert (Hdays : round (ltw * 7) 1 = ltw * 7)
      by (rewrite Hk; apply round_IZR).
    unfold rop_ok, rop_error; cbn. rewrite Hdays.
    replace (ltw * 7 / 7) with ltw by lra.
    split; [exact Hb | intros H70; eapply Rle_trans; [exact Hb | lra]].
Qed.

Lemma policy_work_inv (run_id forecast_run_id : uuid) (periods_per_year : Z) :
  hoare policy_inv (policy_work norm_ppf run_id forecast_run_id periods_per_year)
    (fun _ s => policy_inv s).
Proof.
  unfold policy_work.
  eapply hoare_bind; [apply hoare_query, policy_inv_tick_stable |].
  intros cps.
  eapply hoare_conseq with (P' := policy_inv) (Q' := fun _ s => policy_inv s).
  - apply (hoare_foldM (fun _ s => policy_inv s)).
    intros a x _. apply policy_step_inv.
  - tauto.
  - auto.
Qed.

Lemma policy_finish_inv (run_id : uuid) (n : nat) :
  hoare policy_inv (policy_finish run_id n) (fun _ s => policy_inv s).
Proof.
  unfold policy_finish.
  eapply hoare_bind; [apply hoare_utcnow, policy_inv_tick_stable |].
  intros now s s' a Hs E. inversion E; subst. exact Hs.
Qed.

End Policy.

(** C1 (amended).  When the forecasts' P50 values and the offers' lead times
    are not negative, every row that [run_inventory_policy] commits and that
    the table did not hold before has
    [|rop - (avg_demand * L + safety_stock)| <= 0.05 + 0.005 * L], with
    [L = lead_time_days / 7]: within 0.1 as soon as the lead time is at most
    70 days. *)
Theorem rop_within_rounding (norm_ppf : R -> R) (run_id forecast_run_id : uuid)
  (periods_per_year : Z) (w w' : World) (r : result unit) :
  all_rows (fun f : ForecastResult => 0 <= p50 f) (session w) ->
  all_rows lead_time_ok (session w) ->
  run_inventory_policy norm_ppf run_id forecast_run_id periods_per_year w = (w', r) ->
  forall row, In row (inventory_policy_results (committed w')) ->
    known w row
    \/ (rop_error row <= 0.05 + 0.005 * (ip_lead_time_days row / 7)
        /\ (ip_lead_time_days row <= 70 -> rop_error row <= 0.1)).
Proof.
  intros Hf Ho Hrun row Hin.
  assert (Hinv : policy_inv w (session w)).
  { repeat split; try apply Hf; try apply Ho;
      apply Forall_forall; intros x Hx; left; unfold known; auto. }
  unfold run_inventory_policy in Hrun.
  apply resolved_then in Hrun.
  destruct Hrun as [[Hc _] | [s1 [run [d [_ [_ [Hs1 Htr]]]]]]].
  - left. left. now rewrite <- Hc.
  - assert (Hinv1 : policy_inv w s1).
    { destruct Hs1 as [-> | ->]; repeat apply policy_inv_tick_stable; exact Hinv. }
    pose proof (transaction_all_rows
                  (fun row => known w row \/ rop_ok row) (policy_inv w)
                  (update_run run_id (with_status Running))
                  (policy_work norm_ppf run_id forecast_run_id periods_per_year)
                  (policy_finish run_id)
                  (fun _ => update_run run_id (with_status Failed))
                  {| committed := committed w; session := s1 |} w' r
                  (stable_rop_ok w) (policy_inv_tick_stable w)) as Hall.
    cbv beta in Hall.
    assert (Hrows : Forall (fun row => known w row \/ rop_ok row)
                      (sel (committed w'))).
    { eapply Hall; try exact Htr.
      - intros s Hs. apply Hs.
      - intros s Hs. exact Hs.
      - reflexivity.
      - apply policy_work_inv.
      - intros a. apply policy_finish_inv.
      - exact Hinv1. }
    rewrite Forall_forall in Hrows. apply Hrows, Hin.
Qed.

(** *** A product with a 21-week lead time *)

Definition long_lead_db : Database :=
  {| products := [{| product_id := 1; sku := "SKU-A" |}];
     locations := [{| location_id := 1 |}];
     suppliers := [];
     supplier_offers :=
       [{| offer_id := 1; so_supplier_id := 1; so_product_id := 1; price := 10;
           currency := "USD"; moq := 100; lead_time_days := Some 147%Z;
           capacity_units := Some 5000%Z; captured_at := 0;
           source := "mock_alibaba"; confidence := 0.9 |}];
     demand_history := [];
     cost_parameters :=
       [{| cp_product_id := 1; cp_location_id := 1;
           holding_cost_per_unit_period := 0.5; setup_cost := 100;
           stockout_penalty := Some 10; service_level := 0.95 |}];
     scraper_jobs := [];
     forecast_runs := [];
     forecast_results :=
       [{| fr_run_id := 1; fr_product_id := 1; fr_location_id := 1;
           fr_date := 0; p50 := 100.0645; p90 := 100.0645;
           model_used := "naive"; fr_mape := 0; fr_wape := 0 |}];
     inventory_policy_runs :=
       [{| irun_id := 1; irun_status := Pending; irun_completed_at := None |}];
     inventory_policy_results := [];
     optimisation_runs := [];
     optimisation_allocations := [] |}.

(** [norm.ppf], as far as a run at service level 0.95 consults it. *)
Definition ppf_095 : R -> R := fun _ => 1.6448536269514722.

(** The policy the stage computes for it. *)
Definition long_lead_row : InventoryPolicyResult :=
  {| ip_run_id := 1; ip_product_id := 1; ip_location_id := 1;
     eoq := Rmax 1 (round (sqrt (2 * (100.0645 * 52) * 100 / (0.5 * 52))) 1);
     rop := 2101.4;
     safety_stock := 0;
     avg_demand := 100.06;
     demand_std := 0;
     ip_lead_time_days := 147;
     ip_service_level := 0.95;
     annual_holding_cost :=
       InventoryMath.holding
         (annual_inventory_cost
            (Rmax 1 (round (sqrt (2 * (100.0645 * 52) * 100 / (0.5 * 52))) 1))
            (100.0645 * 52) 100 (0.5 * 52));
     annual_ordering_cost :=
       ordering
         (annual_inventory_cost
            (Rmax 1 (round (sqrt (2 * (100.0645 * 52) * 100 / (0.5 * 52))) 1))
            (100.0645 * 52) 100 (0.5 * 52)) |}.

Lemma np_mean_singleton (x : R) : np_mean [x] = x.
Proof. unfold np_mean, fsum. cbn. field. Qed.

Lemma np_std_singleton (x : R) : np_std [x] = 0.
Proof.
  unfold np_std. cbn [map]. rewrite !np_mean_singleton.
  unfold Rsqr. replace ((x - x) * (x - x)) with 0 by ring. apply sqrt_0.
Qed.

Lemma round_0 (n : nat) : round 0 n = 0.
Proof. apply (round_IZR 0 n). Qed.

Lemma compute_safety_stock_no_spread (norm_ppf : R -> R) (L sl : R) :
  0 < L -> compute_safety_stock norm_ppf 0 L sl 0 = inr 0.
Proof.
  intros HL. unfold compute_safety_stock.
  destruct (Rle_dec L 0); [lra |].
  replace (0 ^ 2 * L + 0 ^ 2 * 0 ^ 2) with 0 by ring.
  rewrite math_sqrt_nonneg by lra. cbn [rbind].
  rewrite sqrt_0, Rmult_0_r, round_0. f_equal. apply Rmax_left; lra.
Qed.

#[local] Arguments compute_eoq : simpl never.
#[local] Arguments compute_safety_stock : simpl never.
#[local] Arguments compute_rop : simpl never.
#[local] Arguments annual_inventory_cost : simpl never.
#[local] Arguments np_mean : simpl never.
#[local] Arguments np_std : simpl never.
#[local] Arguments round : simpl never.

Lemma long_lead_run :
  inventory_policy_results
    (committed
       (fst (run_inventory_policy ppf_095 1 1 52 (world_of quiet_env long_lead_db))))
  = [long_lead_row].
Proof.
  unfold run_inventory_policy, world_of, policy_work, policy_step, policy_finish.
  st_eval.
  rewrite np_mean_singleton, np_std_singleton.
  rewrite compute_eoq_positive by lra.
  rewrite compute_safety_stock_no_spread by lra.
  cbn. unfold long_lead_row. f_equal. f_equal.
  - unfold compute_rop.
    replace (100.0645 * (147 / 7) + 0) with 2101.3545 by lra.
    rewrite (round_unique _ 1 21014) by (simpl; lra).
    simpl. rewrite Rmax_right by lra. lra.
  - rewrite (round_unique _ 2 10006) by (simpl; lra). simpl. lra.
  - apply round_0.
  - replace (147 / 7 * 7) with (IZR 147) by lra. apply round_IZR.
Qed.

(** C1, as stated, fails: with a lead time of 147 days and a forecast of
    100.0645 units a week, the persisted reorder point 2101.4 is 0.14 away
    from [avg_demand * L + safety_stock = 100.06 * 21 + 0]. *)
Lemma rop_tolerance_counterexample :
  In long_lead_row
    (inventory_policy_results
       (committed
          (fst (run_inventory_policy ppf_095 1 1 52
                  (world_of quiet_env long_lead_db)))))
  /\ inventory_policy_results (committed (world_of quiet_env long_lead_db)) = []
  /\ rop_error long_lead_row = 0.14
  /\ rop_error long_lead_row > 0.1.
Proof.
  rewrite long_lead_run.
  assert (E : rop_error long_lead_row = 0.14).
  { unfold rop_error, long_lead_row; cbn.
    replace (2101.4 - (100.06 * (147 / 7) + 0)) with 0.14 by lra.
    apply Rabs_pos_eq; lra. }
  repeat split; [now left | exact E | rewrite E; lra].
Qed.

Lemma rop_within_rounding_witness :
  known (world_of quiet_env long_lead_db) long_lead_row
  \/ (rop_error long_lead_row <= 0.05 + 0.005 * (ip_lead_time_days long_lead_row / 7)
      /\ (ip_lead_time_days long_lead_row <= 70 -> rop_error long_lead_row <= 0.1)).
Proof.
  apply (rop_within_rounding ppf_095 1 1 52 (world_of quiet_env long_lead_db)
           (fst (run_inventory_policy ppf_095 1 1 52 (world_of quiet_env long_lead_db)))
           (snd (run_inventory_policy ppf_095 1 1 52 (world_of quiet_env long_lead_db)))).
  - split; cbn; repeat constructor; cbn; lra.
  - split; cbn; repeat constructor.
    intros days E; cbn in E; inversion E; lia.
  - apply surjective_pairing.
  - rewrite long_lead_run. now left.
Defined.

End Inventory.

(** ** The forecast stage ([run_forecast]) *)
Module Forecast.
Import Py Db Orm OrmOps Stage ForecastMetrics.
Open Scope st_scope.

Definition VALIDATION_PERIODS : nat := 8.

(** A pandas [Series] over a [DatetimeIndex]. *)
Definition Series : Type := list (datetime * R).

Definition values (s : Series) : list R := map snd s.

(** [series.iloc[-1]]. *)
Definition iloc_last (s : Series) : result R :=
  match rev s with
  | [] => inl (IndexError "single positional indexer is out-of-bounds")
  | x :: _ => inr (snd x)
  end.

(** [series.index[-1]]. *)
Definition index_last (s : Series) : result datetime :=
  match rev s with
  | [] => inl (IndexError "index -1 is out of bounds for axis 0 with size 0")
  | x :: _ => inr (fst x)
  end.

(** [a[i]] on a one-dimensional array, for [i >= 0]. *)
Definition getitem (a : list R) (i : nat) : result R :=
  match nth_error a i with
  | Some x => inr x
  | None => inl (IndexError "index out of bounds")
  end.

(** Elementwise [a + b], with numpy's broadcasting of a length-one operand. *)
Definition np_add (a b : list R) : result (list R) :=
  if Nat.eqb (length a) (length b)
  then inr (map (fun p => fst p + snd p) (combine a b))
  else if Nat.eqb (length b) 1 then inr (map (fun x => x + hd 0 b) a)
  else if Nat.eqb (length a) 1 then inr (map (fun y => hd 0 a + y) b)
  else inl (ValueError "operands could not be broadcast together").

(** What statsmodels' fitted ARIMA gives: [aic], and for [steps] periods
    ahead [get_forecast(steps).predicted_mean] and the upper column of
    [conf_int(alpha=0.20)]. *)
Record ArimaResults : Type := {
  aic : R;
  predicted_mean : nat -> list R;
  conf_int_upper : nat -> list R }.

(** What a fitted [ExponentialSmoothing] gives: [forecast(h)] and [resid]. *)
Record EtsResults : Type := {
  ets_forecast : nat -> list R;
  resid : list R }.

Section WithLibraries.

(** [ARIMA(train, order).fit()]. *)
Variable arima_fit : Series -> nat * nat * nat -> result ArimaResults.

(** Prophet, fitted on [train]: [yhat] and [yhat_upper] of the last
    [horizon] rows of [predict(make_future_dataframe(horizon, freq))]. *)
Variable prophet_predict : Series -> nat -> string -> result (list R * list R).

(** [ExponentialSmoothing(train, trend, seasonal, seasonal_periods).fit()]:
    additive trend or none, additive seasonality of the given period or none. *)
Variable ets_fit : Series -> bool -> option nat -> result EtsResults.

(** [series.resample(frequency).sum().fillna(0)]. *)
Variable resample : string -> Series -> Series.

(** [pd.date_range(start, periods, freq)]. *)
Variable date_range : datetime -> nat -> string -> list datetime.

(** The orders of the grid search, in the order of the three loops. *)
Definition arima_orders : list (nat * nat * nat) :=
  flat_map (fun p => flat_map (fun d => map (fun q => (p, d, q)) (seq 0 3)) (seq 0 2))
    (seq 0 3).

(** [m.aic < best_aic], where [None] is [np.inf]. *)
Definition aic_improves (a : R) (best : option R) : bool :=
  match best with
  | None => true
  | Some b => if Rlt_dec a b then true else false
  end.

Definition arima_search (train : Series) : nat * nat * nat :=
  snd (fold_left
         (fun best order =>
            match arima_fit train order with
            | inr m => if aic_improves (aic m) (fst best)
                       then (Some (aic m), order) else best
            | inl _ => best
            end)
         arima_orders (None, (1, 1, 1))%nat).

Definition _fit_arima (train : Series) (horizon : nat) : result (list R * list R) :=
  (model <- arima_fit train (arima_search train) ;;
   let p50 := np_maximum0 (predicted_mean model horizon) in
   d <- np_sub (conf_int_upper model horizon) p50 ;;
   let std := np_maximum0 (map (fun x => x / 1.28) d) in
   inr (p50, std))%result.

Definition _fit_prophet (st : Settings) (train : Series) (horizon : nat)
  : result (list R * list R) :=
  (fc <- prophet_predict train horizon (forecast_frequency st) ;;
   let p50 := np_maximum0 (fst fc) in
   let upper := np_maximum0 (snd fc) in
   d <- np_sub upper p50 ;;
   let std := np_maximum0 (map (fun x => x / 1.28) d) in
   inr (p50, std))%result.

Definition _fit_ets (st : Settings) (train : Series) (horizon : nat)
  : result (list R * list R) :=
  let seasonal_periods :=
    if String.eqb (forecast_frequency st) "W" then 52%nat else 12%nat in
  let use_seasonal := Nat.leb (2 * seasonal_periods) (length train) in
  (m <- match ets_fit train true
                (if use_seasonal then Some seasonal_periods else None) with
        | inr m => inr m
        | inl _ => ets_fit train false None
        end ;;
   let p50 := np_maximum0 (ets_forecast m horizon) in
   let resid_std := np_std (resid m) in
   let std := np_full horizon resid_std in
   inr (p50, std))%result.

(** The three fitters, by name, in the order [_best_model] tries them. *)
Definition fitters (st : Settings)
  : list (string * (Series -> nat -> result (list R * list R))) :=
  [("arima"%string, _fit_arima);
   ("prophet"%string, _fit_prophet st);
   ("ets"%string, _fit_ets st)].

(** [{"arima": ..., "prophet": ..., "ets": ...}.get(name)]. *)
Definition fit_fn (st : Settings) (name : string)
  : option (Series -> nat -> result (list R * list R)) :=
  option_map snd (find (fun f => String.eqb (fst f) name) (fitters st)).

(** The candidates that fitted and scored, with their validation WAPE. *)
Definition candidates (st : Settings) (train validation : Series)
  : list (string * (R * list R * list R)) :=
  let full_horizon := length validation in
  let val_actual := values validation in
  flat_map
    (fun f =>
       match (fc <- snd f train full_horizon ;;
              w <- wape val_actual (firstn (length val_actual) (fst fc)) ;;
              inr (w, fst fc, snd fc))%result with
       | inr c => [(fst f, c)]
       | inl _ => []
       end)
    (fitters st).

(** [min(results, key=lambda k: results[k][0])]: the first of the smallest. *)
Definition best_of (c : string * (R * list R * list R))
  (cs : list (string * (R * list R * list R))) : string * (R * list R * list R) :=
  fold_left
    (fun best x => if Rlt_dec (fst (fst (snd x))) (fst (fst (snd best)))
                   then x else best)
    cs c.

Definition _best_model (st : Settings) (train validation : Series)
  : result (string * list R * list R) :=
  let full_horizon := length validation in
  match candidates st train validation with
  | [] =>
      (last <- iloc_last train ;;
       inr ("naive"%string, repeat last full_horizon,
            np_full full_horizon (pd_std (values train))))%result
  | c :: cs =>
      let best := best_of c cs in
      inr (fst best, snd (fst (snd best)), snd (snd best))
  end.

(** The refit on the full series (the body of the inner [try]): the winning
    fitter, or the last value when the winner is the naive forecast. *)
Definition refit (st : Settings) (series : Series) (horizon : nat)
  (model_name : string) : result (list R * list R) :=
  match fit_fn st model_name with
  | Some f => f series horizon
  | None =>
      (last <- iloc_last series ;;
       inr (repeat last horizon, np_full horizon (pd_std (values series))))%result
  end.

(** The forecast and its per-step standard deviation: the refit, or the
    series mean when the refit raised. *)
Definition final_forecast (st : Settings) (series : Series) (horizon : nat)
  (model_name : string) : list R * list R :=
  match refit st series horizon model_name with
  | inr fc => fc
  | inl _ =>
      (repeat (np_mean (values series)) horizon,
       np_full horizon (pd_std (values series)))
  end.

(** The validation metrics recomputed for the winning model. *)
Definition final_metrics (st : Settings) (train validation : Series)
  (model_name : string) : result (R * R) :=
  (fc <- match fit_fn st model_name with
         | Some f => f train VALIDATION_PERIODS
         | None => inr (repeat (np_mean (values train)) VALIDATION_PERIODS,
                        repeat 0 VALIDATION_PERIODS)
         end ;;
   val_mape <- mape (values validation) (firstn VALIDATION_PERIODS (fst fc)) ;;
   val_wape <- wape (values validation) (firstn VALIDATION_PERIODS (fst fc)) ;;
   inr (val_mape, val_wape))%result.

(** [enumerate]. *)
Definition enumerate {A : Type} (l : list A) : list (nat * A) :=
  combine (seq 0 (length l)) l.

(** The demand history of a product at a location, by date. *)
Definition demand_rows (product location : uuid) (d : Database) : list DemandHistory :=
  order_by (fun a b => Z.leb (dh_date a) (dh_date b))
    (filter (fun r => Nat.eqb (dh_product_id r) product
                      && Nat.eqb (dh_location_id r) location)
       (demand_history d)).

Definition products_in (sku_ids : option (list uuid)) (d : Database) : list Product :=
  match sku_ids with
  | None | Some [] => products d
  | Some ids => filter (fun p => existsb (Nat.eqb (product_id p)) ids) (products d)
  end.

Definition model_key_eqb (a b : string * uuid) : bool :=
  String.eqb (fst a) (fst b) && Nat.eqb (snd a) (snd b).

(** The body of the two loops, for one product and location. *)
Definition forecast_series (run_id : uuid) (horizon : nat) (frequency : string)
  (product : Product) (model_versions : list (string * uuid * string))
  (location : Location) : ST Session (list (string * uuid * string)) :=
  rows <- db_query (demand_rows (product_id product) (location_id location)) ;;
  if Nat.ltb (length rows) 16 then ret model_versions
  else
    let series := resample frequency (map (fun r => (dh_date r, dh_qty r)) rows) in
    if Nat.ltb (length series) 16 then ret model_versions
    else
      st <- get_settings ;;
      let train := firstn (length series - VALIDATION_PERIODS) series in
      let validation := skipn (length series - VALIDATION_PERIODS) series in
      best <- lift_result (_best_model st train validation) ;;
      let model_name := fst (fst best) in
      let fc := final_forecast st series horizon model_name in
      let p50 := fst fc in
      let std := snd fc in
      p90 <- lift_result (np_add p50 (map (Rmult 1.28) std)) ;;
      metrics <- lift_result (final_metrics st train validation model_name) ;;
      last_date <- lift_result (index_last series) ;;
      let future_dates := tl (date_range last_date (S horizon) frequency) in
      foldM
        (fun (_ : unit) ifdate =>
           p50_i <- lift_result (getitem p50 (fst ifdate)) ;;
           p90_i <- lift_result (getitem p90 (fst ifdate)) ;;
           db_add (RForecastResult
                     {| fr_run_id := run_id;
                        fr_product_id := product_id product;
                        fr_location_id := location_id location;
                        fr_date := snd ifdate;
                        p50 := Rmax 0 p50_i;
                        p90 := Rmax 0 p90_i;
                        model_used := model_name;
                        fr_mape := round (fst metrics) 2;
                        fr_wape := round (snd metrics) 4 |}))
        (enumerate future_dates) tt ;;
      ret (dict_set model_key_eqb (sku product, location_id location) model_name
             model_versions)
.

Definition forecast_work (run_id : uuid) (sku_ids : option (list uuid))
  (horizon : nat) (frequency : string)
  : ST Session (list (string * uuid * string)) :=
  products <- db_query (products_in sku_ids) ;;
  locations <- db_query locations ;;
  foldM
    (fun model_versions product =>
       foldM (forecast_series run_id horizon frequency product) locations
         model_versions)
    products [].

Definition find_run (run_id : uuid) (d : Database) : option ForecastRun :=
  first (filter (fun r => Nat.eqb (frun_id r) run_id) (forecast_runs d)).

Definition update_run (run_id : uuid) (f : ForecastRun -> ForecastRun)
  (d : Database) : Database :=
  set_forecast_runs d
    (map (fun r => if Nat.eqb (frun_id r) run_id then f r else r) (forecast_runs d)).

Definition with_status (st : Status) (r : ForecastRun) : ForecastRun :=
  {| frun_id := frun_id r; model_versions := model_versions r;
     frun_status := st; frun_completed_at := frun_completed_at r |}.

Definition completed (mv : list (string * uuid * string)) (t : datetime)
  (r : ForecastRun) : ForecastRun :=
  {| frun_id := frun_id r; model_versions := mv; frun_status := Done;
     frun_completed_at := Some t |}.

Definition forecast_finish (run_id : uuid) (mv : list (string * uuid * string))
  : ST Session unit :=
  now <- utcnow ;;
  db_update (update_run run_id (completed mv now)).

Definition run_forecast (run_id : uuid) (sku_ids : option (list uuid))
  (horizon : nat) (frequency : string) : ST World unit :=
  run <- lift (db_query (find_run run_id)) ;;
  match run with
  | None => raise (ValueError "ForecastRun not found")
  | Some _ =>
      lift (db_update (update_run run_id (with_status Running))) ;;
      db_commit ;;
      try_except
        (model_versions <- lift (forecast_work run_id sku_ids horizon frequency) ;;
         lift (forecast_finish run_id model_versions) ;;
         db_commit)
        (fun exc =>
           db_rollback ;;
           lift (db_update (update_run run_id (with_status Failed))) ;;
           db_commit ;;
           raise exc)
  end.

End WithLibraries.

(** *** What the forecast stage persists *)

Lemma getitem_inr (a : list R) (i : nat) (x : R) :
  getitem a i = inr x -> nth_error a i = Some x.
Proof. unfold getitem. destruct (nth_error a i); intros E; inversion E; auto. Qed.

Lemma Forall_np_maximum0 (a : list R) : Forall (fun x => 0 <= x) (np_maximum0 a).
Proof.
  unfold np_maximum0. apply Forall_forall. intros x Hx.
  apply in_map_iff in Hx. destruct Hx as [y [<- _]]. apply Rmax_l.
Qed.

Lemma Forall_np_full (n : nat) (v : R) :
  0 <= v -> Forall (fun x => 0 <= x) (np_full n v).
Proof.
  intros Hv. unfold np_full. apply Forall_forall. intros x Hx.
  apply repeat_spec in Hx. now subst.
Qed.

Lemma nth_error_combine_map {A B C : Type} (f : A * B -> C) (a : list A)
  (b : list B) (i : nat) (z : C) :
  nth_error (map f (combine a b)) i = Some z ->
  exists x y, nth_error a i = Some x /\ nth_error b i = Some y /\ z = f (x, y).
Proof.
  revert b i. induction a as [| x a IH]; intros [| y b] [| i]; cbn;
    try discriminate.
  - intros E; inversion E. eauto.
  - apply IH.
Qed.

(** An entry of [a + b] is the entry of [a] plus an entry of [b]: the one at
    the same place, or the only one. *)
Lemma np_add_nth (a b c : list R) (i : nat) (m u : R) :
  np_add a b = inr c -> nth_error a i = Some m -> nth_error c i = Some u ->
  exists v, u = m + v /\ (nth_error b i = Some v \/ b = [v]).
Proof.
  unfold np_add. intros E Ha Hc.
  destruct (Nat.eqb (length a) (length b)) eqn:Eab.
  - inversion E; subst c; clear E.
    apply nth_error_combine_map in Hc. destruct Hc as [x [y [Hx [Hy ->]]]].
    rewrite Hx in Ha; inversion Ha; subst. exists y. cbn. auto.
  - destruct (Nat.eqb (length b) 1) eqn:Eb.
    + inversion E; subst c; clear E.
      rewrite nth_error_map, Ha in Hc. cbn in Hc. inversion Hc; subst.
      destruct b as [| v [| ? ?]]; try discriminate. exists v. cbn. auto.
    + destruct (Nat.eqb (length a) 1) eqn:Ea; [| discriminate].
      inversion E; subst c; clear E.
      destruct a as [| a0 [| ? ?]]; try discriminate.
      destruct i as [| i]; [| destruct i; discriminate].
      cbn in Ha. inversion Ha; subst.
      destruct b as [| v b']; cbn in Hc; [discriminate |].
      inversion Hc. exists v. cbn. auto.
Qed.

Section Facts.

Variable arima_fit : Series -> nat * nat * nat -> result ArimaResults.
Variable prophet_predict : Series -> nat -> string -> result (list R * list R).
Variable ets_fit : Series -> bool -> option nat -> result EtsResults.
Variable resample : string -> Series -> Series.
Variable date_range : datetime -> nat -> string -> list datetime.

(** What each fitter hands back: its library's forecast mean clipped at 0,
    and standard deviations that are not negative. *)
Definition clipped (fc : list R * list R) : Prop :=
  (exists mean, fst fc = np_maximum0 mean) /\ Forall (fun x => 0 <= x) (snd fc).

Lemma _fit_arima_clipped (series : Series) (horizon : nat) (fc : list R * list R) :
  _fit_arima arima_fit series horizon = inr fc -> clipped fc.
Proof.
  unfold _fit_arima, rbind.
  destruct (arima_fit _ _) as [e | model]; [discriminate |].
  destruct (np_sub _ _) as [e | d]; [discriminate |].
  intros E; inversion E; subst; clear E. split; cbn.
  - eauto.
  - apply Forall_np_maximum0.
Qed.

Lemma _fit_prophet_clipped (st : Settings) (series : Series) (horizon : nat)
  (fc : list R * list R) :
  _fit_prophet prophet_predict st series horizon = inr fc -> clipped fc.
Proof.
  unfold _fit_prophet, rbind.
  destruct (prophet_predict _ _ _) as [e | p]; [discriminate |].
  destruct (np_sub _ _) as [e | d]; [discriminate |].
  intros E; inversion E; subst; clear E. split; cbn.
  - eauto.
  - apply Forall_np_maximum0.
Qed.

Lemma _fit_ets_clipped (st : Settings) (series : Series) (horizon : nat)
  (fc : list R * list R) :
  _fit_ets ets_fit st series horizon = inr fc -> clipped fc.
Proof.
  unfold _fit_ets, rbind.
  destruct (match ets_fit _ _ _ with inl _ => _ | inr m => _ end) as [e | m];
    [discriminate |].
  intros E; inversion E; subst; clear E. split; cbn.
  - eauto.
  - apply Forall_np_full, np_std_nonneg.
Qed.

Lemma fit_fn_clipped (st : Settings) (name : string) f (series : Series)
  (horizon : nat) (fc : list R * list R) :
  fit_fn arima_fit prophet_predict ets_fit st name = Some f ->
  f series horizon = inr fc -> clipped fc.
Proof.
  unfold fit_fn, fitters. cbn [find fst snd].
  destruct (String.eqb "arima" name).
  { cbn [option_map snd]. intros E; inversion E; subst. apply _fit_arima_clipped. }
  destruct (String.eqb "prophet" name).
  { cbn [option_map snd]. intros E; inversion E; subst. apply _fit_prophet_clipped. }
  destruct (String.eqb "ets" name).
  { cbn [option_map snd]. intros E; inversion E; subst. apply _fit_ets_clipped. }
  discriminate.
Qed.

Lemma final_forecast_std_nonneg (st : Settings) (series : Series) (horizon : nat)
  (name : string) :
  Forall (fun x => 0 <= x)
    (snd (final_forecast arima_fit prophet_predict ets_fit st series horizon name)).
Proof.
  unfold final_forecast, refit.
  destruct (fit_fn _ _ _ st name) as [f |] eqn:Ef.
  - destruct (f series horizon) as [e | fc] eqn:Efc; cbn.
    + apply Forall_np_full, pd_std_nonneg.
    + eapply fit_fn_clipped; eauto.
  - destruct (iloc_last series); cbn; apply Forall_np_full, pd_std_nonneg.
Qed.

(** A row the stage computed: for some series, the winner of the model
    selection on its split is the row's model, and the row holds entry [i] of
    the final forecast [m] and of [forecast + 1.28 * std] ([u]), each clipped
    at 0. *)
Definition produced (row : ForecastResult) : Prop :=
  exists (st : Settings) (series : Series) (horizon i : nat)
         (best : string * list R * list R) (upper : list R) (m u : R),
    _best_model arima_fit prophet_predict ets_fit st
      (firstn (length series - VALIDATION_PERIODS) series)
      (skipn (length series - VALIDATION_PERIODS) series) = inr best
    /\ model_used row = fst (fst best)
    /\ np_add
         (fst (final_forecast arima_fit prophet_predict ets_fit st series horizon
                 (model_used row)))
         (map (Rmult 1.28)
            (snd (final_forecast arima_fit prophet_predict ets_fit st series horizon
                    (model_used row)))) = inr upper
    /\ nth_error
         (fst (final_forecast arima_fit prophet_predict ets_fit st series horizon
                 (model_used row))) i = Some m
    /\ nth_error upper i = Some u
    /\ p50 row = Rmax 0 m
    /\ p90 row = Rmax 0 u.

Variable w : World.

Definition forecast_inv : Session -> Prop :=
  all_rows (fun row => known w row \/ produced row).

Lemma stable_produced : stable (fun row => known w row \/ produced row).
Proof. intros t x H; exact H. Qed.

Lemma forecast_inv_tick_stable : tick_stable forecast_inv.
Proof. apply tick_stable_all_rows, stable_produced. Qed.

Lemma forecast_series_inv (run_id : uuid) (horizon : nat) (frequency : string)
  (product : Product) (mv : list (string * uuid * string)) (location : Location) :
  hoare forecast_inv
    (forecast_series arima_fit prophet_predict ets_fit resample date_range
       run_id horizon frequency product mv location)
    (fun _ s => forecast_inv s).
Proof.
  unfold forecast_series.
  eapply hoare_bind; [apply hoare_query, forecast_inv_tick_stable |].
  intros rows. cbv beta.
  destruct (Nat.ltb (length rows) 16); [apply hoare_ret; tauto |].
  set (series := resample frequency (map (fun r => (dh_date r, dh_qty r)) rows)).
  destruct (Nat.ltb (length series) 16); [apply hoare_ret; tauto |].
  eapply hoare_bind; [apply hoare_get_settings |]. intros st. cbv beta.
  eapply hoare_bind; [apply hoare_lift_result |]. intros best. cbv beta.
  eapply hoare_bind; [apply hoare_lift_result |]. intros upper. cbv beta.
  eapply hoare_bind; [apply hoare_lift_result |]. intros metrics. cbv beta.
  eapply hoare_bind; [apply hoare_lift_result |]. intros last_date. cbv beta.
  eapply hoare_bind with
    (R := fun _ s => forecast_inv s); [| intros u; apply hoare_ret; auto].
  eapply hoare_conseq with
    (P' := fun s =>
             forecast_inv s
             /\ _best_model arima_fit prophet_predict ets_fit st
                  (firstn (length series - VALIDATION_PERIODS) series)
                  (skipn (length series - VALIDATION_PERIODS) series) = inr best
             /\ np_add
                  (fst (final_forecast arima_fit prophet_predict ets_fit st series
                          horizon (fst (fst best))))
                  (map (Rmult 1.28)
                     (snd (final_forecast arima_fit prophet_predict ets_fit st series
                             horizon (fst (fst best))))) = inr upper)
    (Q' := fun (_ : unit) s =>
             forecast_inv s
             /\ _best_model arima_fit prophet_predict ets_fit st
                  (firstn (length series - VALIDATION_PERIODS) series)
                  (skipn (length series - VALIDATION_PERIODS) series) = inr best
             /\ np_add
                  (fst (final_forecast arima_fit prophet_predict ets_fit st series
                          horizon (fst (fst best))))
                  (map (Rmult 1.28)
                     (snd (final_forecast arima_fit prophet_predict ets_fit st series
                             horizon (fst (fst best))))) = inr upper).
  - apply (hoare_foldM (fun (_ : unit) s => _)).
    intros [] [i fdate] _. cbn [fst snd].
    eapply hoare_bind; [apply hoare_lift_result |]. intros p50_i. cbv beta.
    eapply hoare_bind; [apply hoare_lift_result |]. intros p90_i. cbv beta.
    intros s s' a [[[Hinv [Hbest Hadd]] Hp50] Hp90] E.
    inversion E; subst; clear E.
    split; [| auto].
    apply all_rows_add; [exact Hinv |]. cbn. right.
    exists st, series, horizon, i, best, upper, p50_i, p90_i. cbn.
    repeat split; auto using getitem_inr.
  - intros s [[[[[Hinv _] Hbest] Hadd] _] _]. auto.
  - intros a s H. apply H.
Qed.

Lemma forecast_work_inv (run_id : uuid) (sku_ids : option (list uuid))
  (horizon : nat) (frequency : string) :
  hoare forecast_inv
    (forecast_work arima_fit prophet_predict ets_fit resample date_range
       run_id sku_ids horizon frequency)
    (fun _ s => forecast_inv s).
Proof.
  unfold forecast_work.
  eapply hoare_bind with (R := fun _ s => forecast_inv s).
  { eapply hoare_conseq; [apply hoare_query, forecast_inv_tick_stable | auto |].
    cbv beta. tauto. }
  intros products.
  eapply hoare_bind with (R := fun _ s => forecast_inv s).
  { eapply hoare_conseq; [apply hoare_query, forecast_inv_tick_stable | auto |].
    cbv beta. tauto. }
  intros locations.
  apply (hoare_foldM (fun _ s => forecast_inv s)).
  intros mv product _.
  apply (hoare_foldM (fun _ s => forecast_inv s)).
  intros mv' location _. apply forecast_series_inv.
Qed.

Lemma forecast_finish_inv (run_id : uuid) (mv : list (string * uuid * string)) :
  hoare forecast_inv (forecast_finish run_id mv) (fun _ s => forecast_inv s).
Proof.
  unfold forecast_finish.
  eapply hoare_bind; [apply hoare_utcnow, forecast_inv_tick_stable |].
  intros now s s' a Hs E. inversion E; subst. exact Hs.
Qed.

(** Every forecast row the stage commits was in the table before, or is a
    row it computed. *)
Lemma run_forecast_rows (run_id : uuid) (sku_ids : option (list uuid))
  (horizon : nat) (frequency : string) (w' : World) (r : result unit) :
  run_forecast arima_fit prophet_predict ets_fit resample date_range
    run_id sku_ids horizon frequency w = (w', r) ->
  forall row, In row (forecast_results (committed w')) ->
    known w row \/ produced row.
Proof.
  intros Hrun row Hin.
  assert (Hinv : forecast_inv (session w)).
  { split; apply Forall_forall; intros x Hx; left; unfold known; auto. }
  unfold run_forecast in Hrun.
  apply resolved_then in Hrun.
  destruct Hrun as [[Hc _] | [s1 [run [d [_ [_ [Hs1 Htr]]]]]]].
  - left. left. now rewrite <- Hc.
  - assert (Hinv1 : forecast_inv s1).
    { destruct Hs1 as [-> | ->]; repeat apply forecast_inv_tick_stable; exact Hinv. }
    pose proof (transaction_all_rows
                  (fun row => known w row \/ produced row) forecast_inv
                  (update_run run_id (with_status Running))
                  (forecast_work arima_fit prophet_predict ets_fit resample
                     date_range run_id sku_ids horizon frequency)
                  (forecast_finish run_id)
                  (fun _ => update_run run_id (with_status Failed))
                  {| committed := committed w; session := s1 |} w' r
                  stable_produced forecast_inv_tick_stable) as Hall.
    cbv beta in Hall.
    assert (Hrows : Forall (fun row => known w row \/ produced row)
                      (sel (committed w'))).
    { eapply Hall; try exact Htr.
      - auto.
      - intros s Hs. exact Hs.
      - reflexivity.
      - apply forecast_work_inv.
      - intros a. apply forecast_finish_inv.
      - exact Hinv1. }
    rewrite Forall_forall in Hrows. apply Hrows, Hin.
Qed.

End Facts.

(** *** P50 and P90 of a persisted row *)

(** What holds of a computed row: with [m] and [sigma] entry [i] of the
    final forecast and of its standard deviations (or the only standard
    deviation, broadcast), [p50 = max(0, m)] and
    [p90 = max(0, m + 1.28 sigma)]; hence [p90 = p50 + 1.28 sigma] as soon
    as [m >= 0], and always when the refit of a fitter succeeded, where
    [m = max(0, mean_i)] for the library's forecast mean. *)
Definition quantile_rule
  (arima_fit : Series -> nat * nat * nat -> result ArimaResults)
  (prophet_predict : Series -> nat -> string -> result (list R * list R))
  (ets_fit : Series -> bool -> option nat -> result EtsResults)
  (row : ForecastResult) : Prop :=
  exists (st : Settings) (series : Series) (horizon i : nat) (m sigma : R),
    nth_error
      (fst (final_forecast arima_fit prophet_predict ets_fit st series horizon
              (model_used row))) i = Some m
    /\ (nth_error
          (snd (final_forecast arima_fit prophet_predict ets_fit st series horizon
                  (model_used row))) i = Some sigma
        \/ snd (final_forecast arima_fit prophet_predict ets_fit st series horizon
                  (model_used row)) = [sigma])
    /\ 0 <= sigma
    /\ p50 row = Rmax 0 m
    /\ p90 row = Rmax 0 (m + 1.28 * sigma)
    /\ (0 <= m -> p90 row = p50 row + 1.28 * sigma)
    /\ (forall f fc,
          fit_fn arima_fit prophet_predict ets_fit st (model_used row) = Some f ->
          f series horizon = inr fc ->
          exists mean mu,
            fst fc = np_maximum0 mean /\ nth_error mean i = Some mu
            /\ p50 row = Rmax 0 mu
            /\ p90 row = p50 row + 1.28 * sigma).

Lemma in_scaled_nonneg (S : list R) (i : nat) (v : R) :
  Forall (fun x => 0 <= x) S ->
  nth_error (map (Rmult 1.28) S) i = Some v \/ map (Rmult 1.28) S = [v] ->
  exists sigma, v = 1.28 * sigma /\ 0 <= sigma
                /\ (nth_error S i = Some sigma \/ S = [sigma]).
Proof.
  intros Hall [Hn | Hs].
  - rewrite nth_error_map in Hn.
    destruct (nth_error S i) as [sigma |] eqn:E; [| discriminate].
    cbn in Hn. inversion Hn. exists sigma. repeat split; auto.
    rewrite Forall_forall in Hall. eapply Hall, nth_error_In, E.
  - destruct S as [| sigma [| ? ?]]; try discriminate.
    cbn in Hs. inversion Hs. exists sigma. repeat split; auto.
    now inversion Hall.
Qed.

Lemma produced_quantile_rule arima_fit prophet_predict ets_fit (row : ForecastResult) :
  produced arima_fit prophet_predict ets_fit row ->
  quantile_rule arima_fit prophet_predict ets_fit row.
Proof.
  intros [st [series [horizon [i [best [upper [m [u H]]]]]]]].
  destruct H as [_ [_ [Hadd [Hm [Hu [Hp50 Hp90]]]]]].
  destruct (np_add_nth _ _ _ _ _ _ Hadd Hm Hu) as [v [-> Hv]].
  pose proof (final_forecast_std_nonneg arima_fit prophet_predict ets_fit st series
                horizon (model_used row)) as Hstd.
  destruct (in_scaled_nonneg _ _ _ Hstd Hv) as [sigma [-> [Hs Hsig]]].
  assert (Hpos : 0 <= m -> p90 row = p50 row + 1.28 * sigma).
  { intros H0. rewrite Hp50, Hp90, !Rmax_right by nra. reflexivity. }
  exists st, series, horizon, i, m, sigma.
  repeat split; auto.
  intros f fc Hf Hfc.
  destruct (fit_fn_clipped _ _ _ _ _ _ _ _ _ Hf Hfc) as [[mean Hmean] _].
  unfold final_forecast, refit in Hm. rewrite Hf, Hfc, Hmean in Hm.
  unfold np_maximum0 in Hm. rewrite nth_error_map in Hm.
  destruct (nth_error mean i) as [mu |] eqn:Emu; [| discriminate].
  cbn in Hm. inversion Hm; subst m.
  exists mean, mu. repeat split; auto.
  - rewrite Hp50. apply Rmax_right, Rmax_l.
  - apply Hpos, Rmax_l.
Qed.

(** C3.  Every ForecastResult that [run_forecast] commits and that the table
    did not hold before has [0 <= p50 <= p90], whichever model won and
    whichever fallback produced the forecast. *)
Theorem forecast_quantiles_ordered
  (arima_fit : Series -> nat * nat * nat -> result ArimaResults)
  (prophet_predict : Series -> nat -> string -> result (list R * list R))
  (ets_fit : Series -> bool -> option nat -> result EtsResults)
  (resample : string -> Series -> Series)
  (date_range : datetime -> nat -> string -> list datetime)
  (run_id : uuid) (sku_ids : option (list uuid)) (horizon : nat)
  (frequency : string) (w w' : World) (r : result unit) :
  run_forecast arima_fit prophet_predict ets_fit resample date_range
    run_id sku_ids horizon frequency w = (w', r) ->
  forall row, In row (forecast_results (committed w')) ->
    known w row \/ 0 <= p50 row <= p90 row.
Proof.
  intros Hrun row Hin.
  destruct (run_forecast_rows _ _ _ _ _ _ _ _ _ _ _ _ Hrun row Hin) as [Hk | Hp];
    [now left | right].
  apply produced_quantile_rule in Hp.
  destruct Hp as [st [series [hz [i [m [sigma [_ [_ [Hs [H50 [H90 _]]]]]]]]]]].
  rewrite H50, H90. split; [apply Rmax_l |].
  apply Rle_max_compat_l. nra.
Qed.


(** *** Sixteen weeks of demand alternating between 98 and 102 *)

Definition alternating_history : list DemandHistory :=
  map (fun k => {| dh_product_id := 1; dh_location_id := 1;
                   dh_date := 7 * Z.of_nat k;
                   dh_qty := if Nat.even k then 98 else 102 |})
    (seq 0 16).

Definition alternating_db : Database :=
  {| products := [{| product_id := 1; sku := "SKU-A" |}];
     locations := [{| location_id := 1 |}];
     suppliers := [];
     supplier_offers := [];
     demand_history := alternating_history;
     cost_parameters := [];
     scraper_jobs := [];
     forecast_runs :=
       [{| frun_id := 1; model_versions := []; frun_status := Pending;
           frun_completed_at := None |}];
     forecast_results := [];
     inventory_policy_runs := [];
     inventory_policy_results := [];
     optimisation_runs := [];
     optimisation_allocations := [] |}.

(** The history as the series the stage forecasts. *)
Definition alternating_series : Series :=
  map (fun r => (dh_date r, dh_qty r)) alternating_history.

(** The libraries, as they answer on this history: ARIMA and Prophet do not
    fit; exponential smoothing settles on the level 100, so its forecast is
    100 and its residuals are the demand minus 100; the history is weekly
    already; the dates that follow are a week apart. *)
Definition no_arima : Series -> nat * nat * nat -> result ArimaResults :=
  fun _ _ => inl (LibraryError "LinAlgError: Schur decomposition solver error.").

Definition no_prophet : Series -> nat -> string -> result (list R * list R) :=
  fun _ _ _ => inl (LibraryError "No module named 'prophet'").

Definition level_ets : Series -> bool -> option nat -> result EtsResults :=
  fun train _ _ =>
    inr {| ets_forecast := fun h => repeat 100 h;
           resid := map (fun x => x - 100) (values train) |}.

Definition weekly_already : string -> Series -> Series := fun _ s => s.

Definition weekly_range : datetime -> nat -> string -> list datetime :=
  fun start periods _ => map (fun k => (start + 7 * Z.of_nat k)%Z) (seq 0 periods).

(** The validation metrics of the winner. *)
Definition alternating_metrics : R * R :=
  match final_metrics no_arima no_prophet level_ets default_settings
          (firstn 8 alternating_series) (skipn 8 alternating_series) "ets" with
  | inr x => x
  | inl _ => (0, 0)
  end.

(** The row the stage persists for the week after the history. *)
Definition alternating_row : ForecastResult :=
  {| fr_run_id := 1; fr_product_id := 1; fr_location_id := 1;
     fr_date := 112;
     p50 := 100;
     p90 := 102.56;
     model_used := "ets";
     fr_mape := round (fst alternating_metrics) 2;
     fr_wape := round (snd alternating_metrics) 4 |}.

Lemma wape_defined (a f : list R) :
  length a = length f -> exists v, wape a f = inr v.
Proof.
  intros H. unfold wape, np_sub.
  destruct (Req_dec_T _ 0); [eauto |].
  rewrite H, Nat.eqb_refl. cbn. eauto.
Qed.

Lemma mape_defined (a f : list R) :
  length a = length f -> exists v, mape a f = inr v.
Proof.
  intros H. unfold mape.
  destruct (negb (existsb _ _)); [eauto |].
  rewrite H, Nat.eqb_refl. cbn. eauto.
Qed.

Lemma np_std_alternating :
  np_std (map (fun x => x - 100) (values alternating_series)) = 2.
Proof.
  unfold np_std, np_mean, fsum. cbn.
  replace ((98 - 100 + (102 - 100 + (98 - 100 + (102 - 100 + (98 - 100 + (102 - 100
            + (98 - 100 + (102 - 100 + (98 - 100 + (102 - 100 + (98 - 100 + (102 - 100
            + (98 - 100 + (102 - 100 + (98 - 100 + (102 - 100 + 0))))))))))))))))
           / (1 + 1 + 1 + 1 + 1 + 1 + 1 + 1 + 1 + 1 + 1 + 1 + 1 + 1 + 1 + 1))
    with 0 by lra.
  unfold Rsqr.
  match goal with |- sqrt ?x = _ => replace x with (2 * 2) by lra end.
  apply sqrt_square. lra.
Qed.

Lemma level_ets_wins (train validation : Series) :
  exists P S,
    _best_model no_arima no_prophet level_ets default_settings train validation
    = inr ("ets"%string, P, S).
Proof.
  unfold _best_model, candidates, fitters.
  cbn [flat_map fst snd].
  unfold _fit_arima, _fit_prophet, _fit_ets, no_arima, no_prophet, level_ets.
  cbn [rbind app fst snd ets_forecast resid].
  destruct (wape_defined (values validation)
              (firstn (length (values validation))
                 (np_maximum0 (repeat 100 (length validation))))) as [v Hv].
  { unfold values, np_maximum0.
    rewrite firstn_all2; rewrite ?length_map, ?repeat_length; auto. }
  rewrite Hv. cbn. eauto.
Qed.

Lemma fit_fn_ets arima_fit prophet_predict ets_fit (st : Settings) :
  fit_fn arima_fit prophet_predict ets_fit st "ets" = Some (_fit_ets ets_fit st).
Proof. reflexivity. Qed.

Lemma level_ets_refit :
  final_forecast no_arima no_prophet level_ets default_settings
    alternating_series 1 "ets" = ([100], [2]).
Proof.
  unfold final_forecast, refit. rewrite fit_fn_ets.
  unfold _fit_ets, level_ets. cbn [rbind ets_forecast resid].
  rewrite np_std_alternating. cbn. unfold Rmax.
  destruct (Rle_dec 0 100); [reflexivity | lra].
Qed.

Lemma level_ets_metrics :
  final_metrics no_arima no_prophet level_ets default_settings
    (firstn 8 alternating_series) (skipn 8 alternating_series) "ets"
  = inr alternating_metrics.
Proof.
  unfold alternating_metrics.
  destruct (final_metrics _ _ _ _ _ _ _) as [e | x] eqn:E; [| reflexivity].
  exfalso. revert E.
  unfold final_metrics. rewrite fit_fn_ets.
  unfold _fit_ets, level_ets. cbn [rbind fst ets_forecast resid].
  destruct (mape_defined (values (skipn 8 alternating_series))
              (firstn VALIDATION_PERIODS (np_maximum0 (repeat 100 VALIDATION_PERIODS))))
    as [v Hv]; [reflexivity |].
  destruct (wape_defined (values (skipn 8 alternating_series))
              (firstn VALIDATION_PERIODS (np_maximum0 (repeat 100 VALIDATION_PERIODS))))
    as [v' Hv']; [reflexivity |].
  rewrite Hv, Hv'. cbn. discriminate.
Qed.

#[local] Arguments np_mean : simpl never.
#[local] Arguments np_std : simpl never.
#[local] Arguments pd_std : simpl never.
#[local] Arguments round : simpl never.
#[local] Arguments wape : simpl never.
#[local] Arguments mape : simpl never.
#[local] Arguments Rmax : simpl never.
#[local] Arguments final_forecast : simpl never.
#[local] Arguments final_metrics : simpl never.
#[local] Arguments _best_model : simpl never.

Lemma alternating_run :
  forecast_results
    (committed
       (fst (run_forecast no_arima no_prophet level_ets weekly_already weekly_range
               1 None 1 "W" (world_of quiet_env alternating_db))))
  = [alternating_row].
Proof.
  unfold run_forecast, world_of, forecast_work, forecast_finish.
  st_eval. unfold forecast_series. st_eval.
  match goal with
  | |- context [_best_model _ _ _ _ ?tr ?va] =>
      destruct (level_ets_wins tr va) as [P [S Hbest]]; rewrite Hbest
  end.
  cbn [fst snd].
  match goal with
  | |- context [final_forecast ?a ?p ?e ?st ?ser ?h ?n] =>
      replace (final_forecast a p e st ser h n) with ([100], [2])
        by (symmetry; exact level_ets_refit)
  end.
  match goal with
  | |- context [final_metrics ?a ?p ?e ?st ?tr ?va ?n] =>
      replace (final_metrics a p e st tr va n) with (@inr exn _ alternating_metrics)
        by (symmetry; exact level_ets_metrics)
  end.
  st_eval.
  unfold alternating_row. f_equal. f_equal.
  - unfold Rmax. destruct (Rle_dec 0 100); [reflexivity | lra].
  - unfold Rmax. destruct (Rle_dec 0 (100 + 1.28 * 2)); lra.
Qed.

Lemma forecast_quantiles_ordered_witness :
  known (world_of quiet_env alternating_db) alternating_row
  \/ 0 <= p50 alternating_row <= p90 alternating_row.
Proof.
  apply (forecast_quantiles_ordered no_arima no_prophet level_ets weekly_already
           weekly_range 1 None 1 "W" (world_of quiet_env alternating_db)
           (fst (run_forecast no_arima no_prophet level_ets weekly_already
                   weekly_range 1 None 1 "W" (world_of quiet_env alternating_db)))
           (snd (run_forecast no_arima no_prophet level_ets weekly_already
                   weekly_range 1 None 1 "W" (world_of quiet_env alternating_db)))).
  - apply surjective_pairing.
  - rewrite alternating_run. now left.
Defined.



End Forecast.

(** ** The allocation stage ([run_optimisation]) *)
Module Optimizer.
Import Py Db Orm OrmOps Stage.
Open Scope st_scope.

Definition BIG_M_DEFAULT : Z := 1000000.

(** The offer dictionaries of [_load_offers]. *)
Record Offer : Type := {
  o_offer_id : uuid;
  o_supplier_id : uuid;
  o_supplier_name : string;
  o_price : R;
  o_moq : Z;
  o_capacity : Z;
  o_lead_time_days : Z }.

Record Cost : Type := { c_holding : R; c_penalty : R }.

(** The decision variables [x[p, s, l]], [y[p, s]], [inv[p, l]], [bo[p, l]]. *)
Inductive Var : Type :=
| x_ (p s l : uuid)
| y_ (p s : uuid)
| inv_ (p l : uuid)
| bo_ (p l : uuid).

(** A linear expression: weighted variables plus a constant. *)
Record LinExpr : Type := { terms : list (R * Var); constant : R }.

Inductive Sense : Type := GreaterEqual | LessEqual.

Record Constraint : Type := {
  constraint_name : ConstraintName;
  lhs : LinExpr;
  sense : Sense;
  rhs : LinExpr }.

(** The [LpProblem]: [x], [inv] and [bo] are continuous with lower bound 0,
    [y] is binary; the objective is minimised. *)
Record Problem : Type := {
  variables : list Var;
  objective : LinExpr;
  constraints : list Constraint }.

(** What the solver leaves in the problem: [LpStatus[prob.status]],
    [pulp.value] of a variable and of the objective, each constraint's slack. *)
Record Solved : Type := {
  status : string;
  value : Var -> option R;
  objective_value : option R;
  slack : ConstraintName -> option R }.

(** An entry of [solution["allocations"]]. *)
Record Allocation : Type := {
  a_product_id : uuid;
  a_supplier_id : uuid;
  a_supplier_name : string;
  a_location_id : uuid;
  a_qty : R;
  a_unit_cost : R;
  a_ship_cost_per_unit : R;
  a_total_procurement : R;
  a_total_shipping : R;
  a_total_cost : R }.

Record Solution : Type := {
  sol_status : string;
  sol_total_cost : R;
  allocations : list Allocation;
  sol_cost_breakdown : CostBreakdown;
  sol_binding_constraints : list ConstraintName }.

Definition pair_eqb (a b : uuid * uuid) : bool :=
  Nat.eqb (fst a) (fst b) && Nat.eqb (snd a) (snd b).

Definition triple_eqb (a b : uuid * uuid * uuid) : bool :=
  pair_eqb (fst a) (fst b) && Nat.eqb (snd a) (snd b).

(** [v or 0] on an optional number. *)
Definition or0 (v : option R) : R := match v with Some q => q | None => 0 end.

(** [n or default] on an optional integer: [None] and 0 are falsy. *)
Definition or_int (n : option Z) (default : Z) : Z :=
  match n with
  | Some v => if Z.eqb v 0 then default else v
  | None => default
  end.

(** *** Data loaders *)

Definition _load_products (product_ids : option (list uuid)) : ST Session (list Product) :=
  db_query (fun d =>
    match product_ids with
    | None | Some [] => products d
    | Some ids => filter (fun p => existsb (Nat.eqb (product_id p)) ids) (products d)
    end).

(** The offers of a product joined with their suppliers, cheapest first. *)
Definition offers_of (pid : uuid) (max_per_product : nat) (d : Database)
  : list (SupplierOffer * Supplier) :=
  firstn max_per_product
    (order_by (fun a b => Rleb (price (fst a)) (price (fst b)))
       (filter (fun os => Nat.eqb (so_product_id (fst os)) pid)
          (flat_map
             (fun o => map (fun s => (o, s))
                         (filter (fun s => Nat.eqb (supplier_id s) (so_supplier_id o))
                            (suppliers d)))
             (supplier_offers d)))).

Definition _load_offers (product_ids : list uuid) (max_per_product : nat)
  : ST Session (list (uuid * list Offer)) :=
  foldM
    (fun offers_by_product pid =>
       rows <- db_query (offers_of pid max_per_product) ;;
       ret (dict_set Nat.eqb pid
              (map (fun os =>
                      {| o_offer_id := offer_id (fst os);
                         o_supplier_id := supplier_id (snd os);
                         o_supplier_name := name (snd os);
                         o_price := price (fst os);
                         o_moq := moq (fst os);
                         o_capacity := or_int (capacity_units (fst os)) 50000;
                         o_lead_time_days := or_int (lead_time_days (fst os)) 14 |})
                 rows)
              offers_by_product))
    product_ids [].

Definition _load_demand (forecast_run_id : uuid) (product_ids location_ids : list uuid)
  (use_p90 : bool) : ST Session (list (uuid * uuid * R)) :=
  rows <- db_query (fun d =>
            filter (fun r => Nat.eqb (fr_run_id r) forecast_run_id
                             && existsb (Nat.eqb (fr_product_id r)) product_ids
                             && existsb (Nat.eqb (fr_location_id r)) location_ids)
              (forecast_results d)) ;;
  ret (fold_left
         (fun demand r =>
            let key := (fr_product_id r, fr_location_id r) in
            let val := if use_p90 then p90 r else p50 r in
            dict_set pair_eqb key
              (match dict_get pair_eqb key demand with Some v => v | None => 0 end
               + val)
              demand)
         rows []).

Definition _load_costs (product_ids location_ids : list uuid)
  : ST Session (list (uuid * uuid * Cost)) :=
  rows <- db_query (fun d =>
            filter (fun r => existsb (Nat.eqb (cp_product_id r)) product_ids
                             && existsb (Nat.eqb (cp_location_id r)) location_ids)
              (cost_parameters d)) ;;
  ret (fold_left
         (fun costs r =>
            dict_set pair_eqb (cp_product_id r, cp_location_id r)
              {| c_holding := holding_cost_per_unit_period r;
                 c_penalty := or0 (stockout_penalty r) |}
              costs)
         rows []).

Definition _load_safety_stocks (inventory_run_id : uuid)
  (product_ids location_ids : list uuid) : ST Session (list (uuid * uuid * R)) :=
  rows <- db_query (fun d =>
            filter (fun r => Nat.eqb (ip_run_id r) inventory_run_id
                             && existsb (Nat.eqb (ip_product_id r)) product_ids
                             && existsb (Nat.eqb (ip_location_id r)) location_ids)
              (inventory_policy_results d)) ;;
  ret (fold_left
         (fun stocks r =>
            dict_set pair_eqb (ip_product_id r, ip_location_id r) (safety_stock r)
              stocks)
         rows []).

(** *** The model *)

Section Model.

Variable products : list Product.
Variable locations : list Location.
Variable offers_by_product : list (uuid * list Offer).
Variable demand : list (uuid * uuid * R).
Variable cost_params : list (uuid * uuid * Cost).
Variable safety_stocks : list (uuid * uuid * R).
Variable ship_cost_fraction : R.
Variable max_suppliers_per_product : Z.

(** [offers_by_product.get(pid, [])]. *)
Definition offers_for (pid : uuid) : list Offer :=
  match dict_get Nat.eqb pid offers_by_product with Some l => l | None => [] end.

(** The keys of the dictionaries [x], [y], [inv] and [bo]. *)
Definition x_keys : list (uuid * uuid * uuid) :=
  flat_map (fun product =>
    flat_map (fun offer =>
      map (fun loc => (product_id product, o_supplier_id offer, location_id loc))
        locations)
      (offers_for (product_id product)))
    products.

Definition y_keys : list (uuid * uuid) :=
  flat_map (fun product =>
    map (fun offer => (product_id product, o_supplier_id offer))
      (offers_for (product_id product)))
    products.

Definition inv_keys : list (uuid * uuid) :=
  flat_map (fun product =>
    map (fun loc => (product_id product, location_id loc)) locations)
    products.

Definition in_x (k : uuid * uuid * uuid) : bool := existsb (triple_eqb k) x_keys.
Definition in_y (k : uuid * uuid) : bool := existsb (pair_eqb k) y_keys.
Definition in_inv (k : uuid * uuid) : bool := existsb (pair_eqb k) inv_keys.

Definition holding_of (pid lid : uuid) : R :=
  match dict_get pair_eqb (pid, lid) cost_params with
  | Some c => c_holding c
  | None => 0.5
  end.

Definition penalty_of (pid lid : uuid) : R :=
  match dict_get pair_eqb (pid, lid) cost_params with
  | Some c => c_penalty c
  | None => 10
  end.

Definition objective_terms : list (R * Var) :=
  flat_map (fun product =>
    let pid := product_id product in
    flat_map (fun offer =>
      let sid := o_supplier_id offer in
      let proc_cost := o_price offer in
      let ship_cost := o_price offer * ship_cost_fraction in
      flat_map (fun loc =>
        let lid := location_id loc in
        if in_x (pid, sid, lid) then [(proc_cost + ship_cost, x_ pid sid lid)] else [])
        locations)
      (offers_for pid)
    ++ flat_map (fun loc =>
         let lid := location_id loc in
         (if in_inv (pid, lid) then [(holding_of pid lid, inv_ pid lid)] else [])
         ++ (if in_inv (pid, lid) then [(penalty_of pid lid, bo_ pid lid)] else []))
         locations)
    products.

Definition var (v : Var) : LinExpr := {| terms := [(1, v)]; constant := 0 |}.
Definition scaled (c : R) (v : Var) : LinExpr := {| terms := [(c, v)]; constant := 0 |}.
Definition const (c : R) : LinExpr := {| terms := []; constant := c |}.
Definition lp_sum (vs : list Var) : LinExpr :=
  {| terms := map (fun v => (1, v)) vs; constant := 0 |}.
Definition plus (a b : LinExpr) : LinExpr :=
  {| terms := terms a ++ terms b; constant := constant a + constant b |}.
Definition minus (a b : LinExpr) : LinExpr :=
  {| terms := terms a ++ map (fun t => (- fst t, snd t)) (terms b);
     constant := constant a - constant b |}.

Definition product_constraints (product : Product) : list Constraint :=
  let pid := product_id product in
  let offers := offers_for pid in
  match offers with
  | [] => []
  | _ :: _ =>
      flat_map (fun loc =>
        let lid := location_id loc in
        let d := match dict_get pair_eqb (pid, lid) demand with
                 | Some v => v | None => 0 end in
        let ss := match dict_get pair_eqb (pid, lid) safety_stocks with
                  | Some v => v | None => 0 end in
        let inflow :=
          lp_sum (flat_map (fun offer =>
                    if in_x (pid, o_supplier_id offer, lid)
                    then [x_ pid (o_supplier_id offer) lid] else [])
                    offers) in
        if in_inv (pid, lid)
        then [ {| constraint_name := demand_ pid lid;
                  lhs := minus (plus inflow (var (inv_ pid lid))) (var (bo_ pid lid));
                  sense := GreaterEqual; rhs := const d |};
               {| constraint_name := safety_stock_ pid lid;
                  lhs := var (inv_ pid lid);
                  sense := GreaterEqual; rhs := const ss |} ]
        else [])
        locations
      ++ flat_map (fun offer =>
           let sid := o_supplier_id offer in
           let cap := o_capacity offer in
           let total_shipped :=
             lp_sum (flat_map (fun loc =>
                       if in_x (pid, sid, location_id loc)
                       then [x_ pid sid (location_id loc)] else [])
                       locations) in
           if in_y (pid, sid)
           then
             let moq := o_moq offer in
             let big_m := Z.min cap BIG_M_DEFAULT in
             [ {| constraint_name := capacity_ pid sid; lhs := total_shipped;
                  sense := LessEqual; rhs := scaled (IZR cap) (y_ pid sid) |};
               {| constraint_name := moq_ pid sid; lhs := total_shipped;
                  sense := GreaterEqual; rhs := scaled (IZR moq) (y_ pid sid) |};
               {| constraint_name := bigm_ pid sid; lhs := total_shipped;
                  sense := LessEqual; rhs := scaled (IZR big_m) (y_ pid sid) |} ]
           else [])
           offers
      ++ (let supplier_binaries :=
            flat_map (fun o => if in_y (pid, o_supplier_id o)
                               then [y_ pid (o_supplier_id o)] else [])
              offers in
          match supplier_binaries with
          | [] => []
          | _ :: _ =>
              [ {| constraint_name := max_suppliers_ pid;
                   lhs := lp_sum supplier_binaries;
                   sense := LessEqual;
                   rhs := const (IZR max_suppliers_per_product) |} ]
          end)
  end.

Definition build : Problem :=
  {| variables :=
       map (fun k => x_ (fst (fst k)) (snd (fst k)) (snd k)) x_keys
       ++ map (fun k => y_ (fst k) (snd k)) y_keys
       ++ map (fun k => inv_ (fst k) (snd k)) inv_keys
       ++ map (fun k => bo_ (fst k) (snd k)) inv_keys;
     objective := {| terms := objective_terms; constant := 0 |};
     constraints := flat_map product_constraints products |}.

(** The allocations read off the solved variables: one per offer and
    location whose [x] exceeds 0.5. *)
Definition extract_allocations (solved : Solved) : list (Allocation * R * R) :=
  flat_map (fun product =>
    let pid := product_id product in
    flat_map (fun offer =>
      let sid := o_supplier_id offer in
      flat_map (fun loc =>
        let lid := location_id loc in
        if in_x (pid, sid, lid)
        then
          let qty_val := or0 (value solved (x_ pid sid lid)) in
          if Rlt_dec 0.5 qty_val
          then
            let proc := o_price offer * qty_val in
            let ship := o_price offer * ship_cost_fraction * qty_val in
            [ ({| a_product_id := pid;
                  a_supplier_id := sid;
                  a_supplier_name := o_supplier_name offer;
                  a_location_id := lid;
                  a_qty := round qty_val 1;
                  a_unit_cost := o_price offer;
                  a_ship_cost_per_unit := round (o_price offer * ship_cost_fraction) 2;
                  a_total_procurement := round proc 2;
                  a_total_shipping := round ship 2;
                  a_total_cost := round (proc + ship) 2 |}, proc, ship) ]
          else []
        else [])
        locations)
      (offers_for pid))
    products.

Definition extract_inventory_costs (solved : Solved) : R * R :=
  fold_left
    (fun acc product =>
       let pid := product_id product in
       fold_left
         (fun acc loc =>
            let lid := location_id loc in
            let inv_val := if in_inv (pid, lid)
                           then or0 (value solved (inv_ pid lid)) else 0 in
            let bo_val := if in_inv (pid, lid)
                          then or0 (value solved (bo_ pid lid)) else 0 in
            (fst acc + holding_of pid lid * inv_val,
             snd acc + penalty_of pid lid * bo_val))
         locations acc)
    products (0, 0).

Definition is_binding (solved : Solved) (c : Constraint) : bool :=
  match slack solved (constraint_name c) with
  | Some sl => if Rlt_dec (Rabs sl) (1 / 10 ^ 4) then true else false
  | None => false
  end.

Definition extract (prob : Problem) (solved : Solved) : Solution :=
  if String.eqb (status solved) "Optimal" || String.eqb (status solved) "Not Solved"
  then
    let allocs := extract_allocations solved in
    let inv_costs := extract_inventory_costs solved in
    {| sol_status := status solved;
       sol_total_cost := or0 (objective_value solved);
       allocations := map (fun a => fst (fst a)) allocs;
       sol_cost_breakdown :=
         {| procurement := round (fsum (map (fun a => snd (fst a)) allocs)) 2;
            shipping := round (fsum (map snd allocs)) 2;
            holding := round (fst inv_costs) 2;
            penalty := round (snd inv_costs) 2 |};
       sol_binding_constraints :=
         firstn 20 (map constraint_name
                      (filter (is_binding solved) (constraints prob))) |}
  else
    {| sol_status := status solved;
       sol_total_cost := or0 (objective_value solved);
       allocations := [];
       sol_cost_breakdown :=
         {| procurement := 0; shipping := 0; holding := 0; penalty := 0 |};
       sol_binding_constraints := [] |}.

End Model.

Section WithSolver.

(** [prob.solve(PULP_CBC_CMD(timeLimit, msg=0, gapRel=0.02))], together with
    the checks pulp makes while the problem is assembled. *)
Variable cbc_solve : Problem -> Z -> result Solved.

Definition _build_and_solve (products : list Product) (locations : list Location)
  (offers_by_product : list (uuid * list Offer))
  (demand : list (uuid * uuid * R)) (cost_params : list (uuid * uuid * Cost))
  (safety_stocks : list (uuid * uuid * R)) (ship_cost_fraction : R)
  (max_suppliers_per_product : Z) (time_limit : Z) : result (string * Solution) :=
  let prob := build products locations offers_by_product demand cost_params
                safety_stocks ship_cost_fraction max_suppliers_per_product in
  (solved <- cbc_solve prob time_limit ;;
   inr (status solved,
        extract products locations offers_by_product cost_params
          ship_cost_fraction prob solved))%result.

Definition find_run (run_id : uuid) (d : Database) : option OptimisationRun :=
  first (filter (fun r => Nat.eqb (orun_id r) run_id) (optimisation_runs d)).

Definition update_run (run_id : uuid) (f : OptimisationRun -> OptimisationRun)
  (d : Database) : Database :=
  set_optimisation_runs d
    (map (fun r => if Nat.eqb (orun_id r) run_id then f r else r)
       (optimisation_runs d)).

Definition with_status (st : Status) (r : OptimisationRun) : OptimisationRun :=
  {| orun_id := orun_id r; orun_status := st;
     orun_total_cost := orun_total_cost r; solve_time_ms := solve_time_ms r;
     binding_constraints := binding_constraints r;
     cost_breakdown := cost_breakdown r;
     orun_completed_at := orun_completed_at r |}.

Definition completed (status : string) (solution : Solution) (solve_ms : Z)
  (t : datetime) (r : OptimisationRun) : OptimisationRun :=
  {| orun_id := orun_id r;
     orun_status := if String.eqb status "Optimal" then Optimal else Infeasible;
     orun_total_cost := sol_total_cost solution;
     solve_time_ms := solve_ms;
     binding_constraints := sol_binding_constraints solution;
     cost_breakdown := sol_cost_breakdown solution;
     orun_completed_at := Some t |}.

(** The reading of [time.monotonic()] before the [try] block (it cannot
    raise), and the body of the block up to the persisted allocations. *)
Definition optimisation_work (run_id forecast_run_id inventory_run_id : uuid)
  (product_ids : option (list uuid)) (use_p90 : bool)
  (max_suppliers_per_product : Z) : ST Session (string * Solution * Z) :=
  t_start <- utcnow ;;
  products <- _load_products product_ids ;;
  locations <- db_query locations ;;
  let pid_list := map product_id products in
  let lid_list := map location_id locations in
  offers <- _load_offers pid_list 8 ;;
  demand <- _load_demand forecast_run_id pid_list lid_list use_p90 ;;
  cost_params <- _load_costs pid_list lid_list ;;
  safety_stocks <- _load_safety_stocks inventory_run_id pid_list lid_list ;;
  st <- get_settings ;;
  solved <- lift_result
              (_build_and_solve products locations offers demand cost_params
                 safety_stocks 0.08 max_suppliers_per_product
                 (solver_time_limit_seconds st)) ;;
  t_end <- utcnow ;;
  let solve_ms := ((t_end - t_start) * 1000)%Z in
  foldM
    (fun (_ : unit) alloc =>
       db_add (ROptimisationAllocation
                 {| oa_run_id := run_id;
                    oa_supplier_id := a_supplier_id alloc;
                    oa_product_id := a_product_id alloc;
                    oa_location_id := a_location_id alloc;
                    qty := a_qty alloc;
                    unit_cost := a_unit_cost alloc;
                    ship_cost := a_ship_cost_per_unit alloc;
                    total_cost := a_total_cost alloc |}))
    (allocations (snd solved)) tt ;;
  ret (fst solved, snd solved, solve_ms).

Definition optimisation_finish (run_id : uuid) (out : string * Solution * Z)
  : ST Session unit :=
  now <- utcnow ;;
  db_update (update_run run_id (completed (fst (fst out)) (snd (fst out)) (snd out) now)).

Definition run_optimisation (run_id forecast_run_id inventory_run_id : uuid)
  (product_ids : option (list uuid)) (use_p90 : bool)
  (max_suppliers_per_product : Z) : ST World unit :=
  run <- lift (db_query (find_run run_id)) ;;
  match run with
  | None => raise (ValueError "OptimisationRun not found")
  | Some _ =>
      lift (db_update (update_run run_id (with_status Running))) ;;
      db_commit ;;
      try_except
        (out <- lift (optimisation_work run_id forecast_run_id inventory_run_id
                        product_ids use_p90 max_suppliers_per_product) ;;
         lift (optimisation_finish run_id out) ;;
         db_commit)
        (fun exc =>
           db_rollback ;;
           lift (db_update (update_run run_id (with_status Failed))) ;;
           db_commit ;;
           raise exc)
  end.

End WithSolver.

(** *** The cost of a persisted allocation *)

(** What holds of an allocation the stage computed, [q] being the solved
    value of its variable. *)
Definition costed (row : OptimisationAllocation) : Prop :=
  exists q,
    0.5 < q
    /\ qty row = round q 1
    /\ total_cost row = round (unit_cost row * q + unit_cost row * 0.08 * q) 2.

Lemma extract_allocations_costed products locations offers_by_product
  (solved : Solved) (a : Allocation * R * R) :
  In a (extract_allocations products locations offers_by_product 0.08 solved) ->
  exists q,
    0.5 < q
    /\ a_qty (fst (fst a)) = round q 1
    /\ a_total_cost (fst (fst a))
       = round (a_unit_cost (fst (fst a)) * q + a_unit_cost (fst (fst a)) * 0.08 * q) 2.
Proof.
  unfold extract_allocations. intros H.
  apply in_flat_map in H. destruct H as [product [_ H]].
  apply in_flat_map in H. destruct H as [offer [_ H]].
  apply in_flat_map in H. destruct H as [loc [_ H]].
  destruct (in_x _ _ _ _); [| contradiction].
  destruct (Rlt_dec 0.5 _) as [Hq | Hq]; [| contradiction].
  destruct H as [<- | []]. cbn. eauto.
Qed.

Lemma build_and_solve_costed cbc_solve products locations offers demand
  cost_params safety_stocks max_suppliers time_limit
  (out : string * Solution) (a : Allocation) :
  _build_and_solve cbc_solve products locations offers demand cost_params
    safety_stocks 0.08 max_suppliers time_limit = inr out ->
  In a (allocations (snd out)) ->
  exists q,
    0.5 < q /\ a_qty a = round q 1
    /\ a_total_cost a = round (a_unit_cost a * q + a_unit_cost a * 0.08 * q) 2.
Proof.
  unfold _build_and_solve, rbind.
  destruct (cbc_solve _ _) as [e | solved]; [discriminate |].
  intros E; inversion E; subst; clear E. cbn [snd].
  unfold extract.
  destruct (_ || _); cbn [allocations]; [| contradiction].
  intros Hin. apply in_map_iff in Hin. destruct Hin as [a3 [<- Hin]].
  eapply extract_allocations_costed; eauto.
Qed.

Lemma round_half (q : R) : 0.5 < q -> 0.5 <= round q 1.
Proof.
  intros H.
  replace 0.5 with (round 0.5 1) at 1.
  - apply round_mono. lra.
  - rewrite (round_unique _ 1 5) by (simpl; lra). simpl. lra.
Qed.

(** The bounds that follow. *)
Lemma costed_bounds (row : OptimisationAllocation) (q : R) :
  0.5 < q -> qty row = round q 1 ->
  total_cost row = round (unit_cost row * q + unit_cost row * 0.08 * q) 2 ->
  0 < qty row
  /\ Rabs (qty row - q) <= 0.05
  /\ Rabs (total_cost row - q * unit_cost row * (1 + 0.08)) <= 0.005
  /\ Rabs (total_cost row - qty row * unit_cost row * (1 + 0.08))
     <= 0.005 + 0.054 * Rabs (unit_cost row)
  /\ (qty row = q ->
      Rabs (total_cost row - qty row * unit_cost row * (1 + 0.08)) <= 0.01).
Proof.
  intros Hq Hqty Htot.
  pose proof (round_half q Hq) as Hhalf.
  pose proof (round_err q 1) as Eq.
  pose proof (round_err (unit_cost row * q + unit_cost row * 0.08 * q) 2) as Et.
  rewrite <- Hqty in Eq, Hhalf. rewrite <- Htot in Et.
  apply Rabs_le_inv in Eq. apply Rabs_le_inv in Et. simpl in Eq, Et.
  assert (Hc : 0 <= Rabs (unit_cost row)) by apply Rabs_pos.
  assert (Hcu : - Rabs (unit_cost row) <= unit_cost row <= Rabs (unit_cost row)).
  { unfold Rabs. destruct (Rcase_abs _); lra. }
  repeat split.
  - lra.
  - apply Rabs_le; lra.
  - apply Rabs_le; lra.
  - apply Rabs_le.
    assert (Hd : - (0.05 * Rabs (unit_cost row))
                 <= (q - qty row) * unit_cost row <= 0.05 * Rabs (unit_cost row)).
    { split; nra. }
    split; nra.
  - intros E. rewrite E. apply Rabs_le; lra.
Qed.

Section Work.

Variable cbc_solve : Problem -> Z -> result Solved.
Variable w : World.

Definition allocation_inv : Session -> Prop :=
  all_rows (fun row => known w row \/ costed row).

Lemma stable_costed : stable (fun row => known w row \/ costed row).
Proof. intros t x H; exact H. Qed.

Lemma allocation_inv_tick_stable : tick_stable allocation_inv.
Proof. apply tick_stable_all_rows, stable_costed. Qed.

Lemma optimisation_work_inv (run_id forecast_run_id inventory_run_id : uuid)
  (product_ids : option (list uuid)) (use_p90 : bool) (max_suppliers : Z) :
  hoare allocation_inv
    (optimisation_work cbc_solve run_id forecast_run_id inventory_run_id
       product_ids use_p90 max_suppliers)
    (fun _ s => allocation_inv s).
Proof.
  pose proof allocation_inv_tick_stable as Hts.
  unfold optimisation_work.
  apply hoare_bind_inv; [apply hoare_utcnow, Hts |]. intros t_start.
  apply hoare_bind_inv; [apply hoare_query_inv, Hts |]. intros products.
  apply hoare_bind_inv; [apply hoare_query_inv, Hts |]. intros locations.
  apply hoare_bind_inv.
  { apply hoare_foldM_inv. intros acc pid.
    apply hoare_bind_inv; [apply hoare_query_inv, Hts |]. intros rows.
    apply hoare_ret. auto. }
  intros offers.
  apply hoare_bind_inv.
  { apply hoare_bind_inv; [apply hoare_query_inv, Hts |]. intros rows.
    apply hoare_ret. auto. }
  intros demand.
  apply hoare_bind_inv.
  { apply hoare_bind_inv; [apply hoare_query_inv, Hts |]. intros rows.
    apply hoare_ret. auto. }
  intros cost_params.
  apply hoare_bind_inv.
  { apply hoare_bind_inv; [apply hoare_query_inv, Hts |]. intros rows.
    apply hoare_ret. auto. }
  intros safety_stocks.
  eapply hoare_bind; [apply hoare_get_settings |]. intros st. cbv beta.
  eapply hoare_bind; [apply hoare_lift_result |]. intros solved. cbv beta.
  eapply hoare_bind with
    (R := fun _ s =>
            allocation_inv s
            /\ _build_and_solve cbc_solve products locations offers demand
                 cost_params safety_stocks 0.08 max_suppliers
                 (solver_time_limit_seconds st) = inr solved).
  { intros s s' t [Hs Hsolved] E. inversion E; subst. split; [apply Hts, Hs | auto]. }
  intros t_end. cbv beta.
  eapply hoare_bind with (R := fun _ s => allocation_inv s);
    [| intros u; apply hoare_ret; auto].
  eapply hoare_conseq with
    (P' := fun s =>
             allocation_inv s
             /\ _build_and_solve cbc_solve products locations offers demand
                  cost_params safety_stocks 0.08 max_suppliers
                  (solver_time_limit_seconds st) = inr solved)
    (Q' := fun (_ : unit) s =>
             allocation_inv s
             /\ _build_and_solve cbc_solve products locations offers demand
                  cost_params safety_stocks 0.08 max_suppliers
                  (solver_time_limit_seconds st) = inr solved);
    [| auto | intros a s H; apply H].
  apply (hoare_foldM (fun (_ : unit) s => _)).
  intros [] alloc Hin s s' a [Hs Hsolved] E. inversion E; subst; clear E.
  split; [| exact Hsolved].
  apply all_rows_add; [exact Hs |]. cbn. right.
  destruct (build_and_solve_costed _ _ _ _ _ _ _ _ _ _ _ Hsolved Hin)
    as [q [Hq [Hqty Htot]]].
  exists q. cbn. auto.
Qed.

Lemma optimisation_finish_inv (run_id : uuid) (out : string * Solution * Z) :
  hoare allocation_inv (optimisation_finish run_id out) (fun _ s => allocation_inv s).
Proof.
  unfold optimisation_finish.
  eapply hoare_bind; [apply hoare_utcnow, allocation_inv_tick_stable |].
  intros now s s' a Hs E. inversion E; subst. exact Hs.
Qed.

End Work.

(** C2 (amended).  Every OptimisationAllocation that [run_optimisation]
    commits and that the table did not hold before comes from a solved value
    [q > 0.5]: its [qty] is [q] rounded to one decimal, hence positive and
    within 0.05 of [q], and its [total_cost] is within 0.005 of
    [q * unit_cost * 1.08]; against the persisted [qty] the distance is at
    most [0.005 + 0.054 * |unit_cost|], and within 0.01 when [qty = q]. *)
Theorem allocation_cost_rule (cbc_solve : Problem -> Z -> result Solved)
  (run_id forecast_run_id inventory_run_id : uuid)
  (product_ids : option (list uuid)) (use_p90 : bool) (max_suppliers : Z)
  (w w' : World) (r : result unit) :
  run_optimisation cbc_solve run_id forecast_run_id inventory_run_id
    product_ids use_p90 max_suppliers w = (w', r) ->
  forall row, In row (optimisation_allocations (committed w')) ->
    known w row
    \/ exists q,
         0.5 < q
         /\ qty row = round q 1
         /\ 0 < qty row
         /\ Rabs (qty row - q) <= 0.05
         /\ Rabs (total_cost row - q * unit_cost row * (1 + 0.08)) <= 0.005
         /\ Rabs (total_cost row - qty row * unit_cost row * (1 + 0.08))
            <= 0.005 + 0.054 * Rabs (unit_cost row)
         /\ (qty row = q ->
             Rabs (total_cost row - qty row * unit_cost row * (1 + 0.08)) <= 0.01).
Proof.
  intros Hrun row Hin.
  assert (Hinv : allocation_inv w (session w)).
  { split; apply Forall_forall; intros x Hx; left; unfold known; auto. }
  unfold run_optimisation in Hrun.
  apply resolved_then in Hrun.
  destruct Hrun as [[Hc _] | [s1 [run [d [_ [_ [Hs1 Htr]]]]]]].
  - left. left. now rewrite <- Hc.
  - assert (Hinv1 : allocation_inv w s1).
    { destruct Hs1 as [-> | ->]; repeat apply allocation_inv_tick_stable; exact Hinv. }
    pose proof (transaction_all_rows
                  (fun row => known w row \/ costed row) (allocation_inv w)
                  (update_run run_id (with_status Running))
                  (optimisation_work cbc_solve run_id forecast_run_id
                     inventory_run_id product_ids use_p90 max_suppliers)
                  (optimisation_finish run_id)
                  (fun _ => update_run run_id (with_status Failed))
                  {| committed := committed w; session := s1 |} w' r
                  (stable_costed w) (allocation_inv_tick_stable w)) as Hall.
    cbv beta in Hall.
    assert (Hrows : Forall (fun row => known w row \/ costed row)
                      (sel (committed w'))).
    { eapply Hall; try exact Htr.
      - auto.
      - intros s Hs. exact Hs.
      - reflexivity.
      - apply optimisation_work_inv.
      - intros a. apply optimisation_finish_inv.
      - exact Hinv1. }
    rewrite Forall_forall in Hrows.
    destruct (Hrows row Hin) as [Hk | [q [Hq [Hqty Htot]]]]; [now left | right].
    exists q. pose proof (costed_bounds row q Hq Hqty Htot). tauto.
Qed.

(** *** A demand of 100.04 units *)

Definition decimal_demand_db : Database :=
  {| products := [{| product_id := 1; sku := "SKU-A" |}];
     locations := [{| location_id := 1 |}];
     suppliers :=
       [{| supplier_id := 1; name := "Apex Industrial Ltd"; rating := 4.5;
           region := "Asia"; country := "CN";
           incoterms_supported := ["FOB"%string; "CIF"%string] |}];
     supplier_offers :=
       [{| offer_id := 1; so_supplier_id := 1; so_product_id := 1; price := 10;
           currency := "USD"; moq := 50; lead_time_days := Some 30%Z;
           capacity_units := Some 5000%Z; captured_at := 0;
           source := "mock_alibaba"; confidence := 0.9 |}];
     demand_history := [];
     cost_parameters :=
       [{| cp_product_id := 1; cp_location_id := 1;
           holding_cost_per_unit_period := 20; setup_cost := 100;
           stockout_penalty := Some 50; service_level := 0.95 |}];
     scraper_jobs := [];
     forecast_runs := [];
     forecast_results :=
       [{| fr_run_id := 1; fr_product_id := 1; fr_location_id := 1;
           fr_date := 0; p50 := 100.04; p90 := 110;
           model_used := "ets"; fr_mape := 0; fr_wape := 0 |}];
     inventory_policy_runs := [];
     inventory_policy_results := [];
     optimisation_runs :=
       [{| orun_id := 1; orun_status := Pending; orun_total_cost := 0;
           solve_time_ms := 0; binding_constraints := [];
           cost_breakdown := {| procurement := 0; shipping := 0; holding := 0;
                                penalty := 0 |};
           orun_completed_at := None |}];
     optimisation_allocations := [] |}.

(** The solver on that model (minimise [10.8 x + 20 inv + 50 bo] subject to
    [x + inv - bo >= 100.04], [inv >= 0], [50 y <= x <= 5000 y], [y <= 3]):
    the optimum buys the demand, [x = 100.04]. *)
Definition lp_optimum : Problem -> Z -> result Solved :=
  fun _ _ =>
    inr {| status := "Optimal";
           value := fun v => match v with
                             | x_ _ _ _ => Some 100.04
                             | y_ _ _ => Some 1
                             | inv_ _ _ | bo_ _ _ => Some 0
                             end;
           objective_value := Some 1080.432;
           slack := fun c => match c with
                             | demand_ _ _ | safety_stock_ _ _ => Some 0
                             | capacity_ _ _ | bigm_ _ _ => Some 4899.96
                             | moq_ _ _ => Some (-50.04)
                             | max_suppliers_ _ => Some 2
                             end |}.

(** The allocation the stage persists. *)
Definition decimal_row : OptimisationAllocation :=
  {| oa_run_id := 1; oa_supplier_id := 1; oa_product_id := 1; oa_location_id := 1;
     qty := 100; unit_cost := 10; ship_cost := 0.8; total_cost := 1080.43 |}.

#[local] Arguments round : simpl never.
#[local] Arguments Rmax : simpl never.
#[local] Arguments extract_inventory_costs : simpl never.
#[local] Arguments is_binding : simpl never.
#[local] Arguments build : simpl never.

Lemma decimal_demand_run :
  optimisation_allocations
    (committed
       (fst (run_optimisation lp_optimum 1 1 1 None false 3
               (world_of quiet_env decimal_demand_db))))
  = [decimal_row].
Proof.
  unfold run_optimisation, world_of, optimisation_work, optimisation_finish,
    _load_products, _load_offers, _load_demand, _load_costs, _load_safety_stocks.
  st_eval.
  unfold _build_and_solve, lp_optimum. cbn [rbind]. st_eval.
  unfold extract. cbn [status String.eqb Ascii.eqb Bool.eqb orb allocations].
  unfold extract_allocations. cbn.
  destruct (Rlt_dec 0.5 100.04); [| lra]. st_eval.
  unfold decimal_row. f_equal. f_equal.
  - rewrite (round_unique _ 1 1000) by (simpl; lra). simpl. lra.
  - rewrite (round_unique _ 2 80) by (simpl; lra). simpl. lra.
  - rewrite (round_unique _ 2 108043) by (simpl; lra). simpl. lra.
Qed.

(** C2, as stated, fails: the solver buys 100.04 units at 10; the row holds
    [qty = 100.0] and [total_cost = 1080.43], 0.43 away from
    [qty * unit_cost * 1.08 = 1080]. *)
Lemma allocation_cost_counterexample :
  In decimal_row
    (optimisation_allocations
       (committed
          (fst (run_optimisation lp_optimum 1 1 1 None false 3
                  (world_of quiet_env decimal_demand_db)))))
  /\ optimisation_allocations (committed (world_of quiet_env decimal_demand_db)) = []
  /\ qty decimal_row > 0
  /\ Rabs (total_cost decimal_row
           - qty decimal_row * unit_cost decimal_row * (1 + 0.08)) = 0.43
  /\ Rabs (total_cost decimal_row
           - qty decimal_row * unit_cost decimal_row * (1 + 0.08)) > 0.01.
Proof.
  rewrite decimal_demand_run.
  assert (E : Rabs (total_cost decimal_row
                    - qty decimal_row * unit_cost decimal_row * (1 + 0.08)) = 0.43).
  { unfold decimal_row; cbn.
    replace (1080.43 - 100 * 10 * (1 + 0.08)) with 0.43 by lra.
    apply Rabs_pos_eq; lra. }
  repeat split; [now left | cbn; lra | exact E | rewrite E; lra].
Qed.

Lemma allocation_cost_rule_witness :
  known (world_of quiet_env decimal_demand_db) decimal_row
  \/ exists q,
       0.5 < q
       /\ qty decimal_row = round q 1
       /\ 0 < qty decimal_row
       /\ Rabs (qty decimal_row - q) <= 0.05
       /\ Rabs (total_cost decimal_row - q * unit_cost decimal_row * (1 + 0.08))
          <= 0.005
       /\ Rabs (total_cost decimal_row
                - qty decimal_row * unit_cost decimal_row * (1 + 0.08))
          <= 0.005 + 0.054 * Rabs (unit_cost decimal_row)
       /\ (qty decimal_row = q ->
           Rabs (total_cost decimal_row
                 - qty decimal_row * unit_cost decimal_row * (1 + 0.08)) <= 0.01).
Proof.
  apply (allocation_cost_rule lp_optimum 1 1 1 None false 3
           (world_of quiet_env decimal_demand_db)
           (fst (run_optimisation lp_optimum 1 1 1 None false 3
                   (world_of quiet_env decimal_demand_db)))
           (snd (run_optimisation lp_optimum 1 1 1 None false 3
                   (world_of quiet_env decimal_demand_db)))).
  - apply surjective_pairing.
  - rewrite decimal_demand_run. now left.
Defined.

End Optimizer.

(** ** The acquisition stage ([run_scraper_job]) *)
Module Scraper.
Import Py Db Orm OrmOps Stage.
Open Scope st_scope.

(** A source's price and quality profile. *)
Record Profile : Type := {
  price_factor_range : R * R;
  moq_options : list Z;
  lead_time_range : Z * Z;
  confidence_range : R * R;
  rating_range : R * R }.

Definition mock_alibaba : Profile :=
  {| price_factor_range := (0.85, 1.05);
     moq_options := [100; 250; 500; 1000]%Z;
     lead_time_range := (14, 45)%Z;
     confidence_range := (0.75, 0.95);
     rating_range := (3.5, 5.0) |}.

Definition mock_globalsources : Profile :=
  {| price_factor_range := (0.90, 1.10);
     moq_options := [250; 500; 1000; 2000]%Z;
     lead_time_range := (21, 60)%Z;
     confidence_range := (0.80, 0.98);
     rating_range := (3.8, 5.0) |}.

Definition mock_made_in_china : Profile :=
  {| price_factor_range := (0.80, 1.00);
     moq_options := [500; 1000; 2000; 5000]%Z;
     lead_time_range := (30, 60)%Z;
     confidence_range := (0.65, 0.90);
     rating_range := (3.0, 4.8) |}.

Definition SOURCE_PROFILES : list (string * Profile) :=
  [("mock_alibaba"%string, mock_alibaba);
   ("mock_globalsources"%string, mock_globalsources);
   ("mock_made_in_china"%string, mock_made_in_china)].

Definition SUPPLIER_NAMES : list string :=
  ["Shenzhen TechParts Co."; "GlobalEdge Manufacturing"; "Delta Supply Group";
   "Apex Industrial Ltd"; "Meridian Components"; "Pacific Source Inc.";
   "Titan Trade Co."; "Sunrise Exports"; "EastWest Logistics"; "PrimeGoods Mfg";
   "Horizon Enterprises"; "BlueStar Supplies"; "NovaTrade Asia"; "AlphaMakers";
   "ZenithProcure Ltd"]%string.

(** A candidate offer, as a source hands it over.  (The [fingerprint] and
    [raw_json] entries, which no stage reads, are left out.) *)
Record RawOffer : Type := {
  raw_sku : string;
  raw_source : string;
  raw_supplier_name : string;
  raw_price : R;
  raw_currency : string;
  raw_moq : Z;
  raw_lead_time_days : Z;
  raw_shipping_cost_per_unit : R;
  raw_capacity_units : Z;
  raw_rating : R;
  raw_confidence : R }.

Section WithRandom.

(** Python's [hash] on strings (fixed within a process) and a
    [random.Random]: its state, seeding, and the draws the simulation makes. *)
Variable py_hash : string -> Z.
Variable rng : Type.
Variable seed_rng : Z -> rng.
Variable rng_uniform : rng -> R -> R -> R * rng.
Variable rng_gauss : rng -> R -> R -> R * rng.
Variable rng_choice : rng -> nat -> nat * rng.
Variable rng_randint : rng -> Z -> Z -> Z * rng.

(** One pass of the loop of [_simulate_offers_for_sku]: the offer and the
    generator after its nine draws. *)
Definition simulate_offer (sku source : string) (profile : Profile)
  (base_price : R) (g0 : rng) : RawOffer * rng :=
  let (factor, g1) :=
    rng_uniform g0 (fst (price_factor_range profile)) (snd (price_factor_range profile)) in
  let (noise, g2) := rng_gauss g1 0 0.05 in
  let price := Rmax 1 (round (base_price * factor * (1 + noise)) 2) in
  let price_percentile := (price - base_price * 0.8) / (base_price * 0.3 + 1) in
  let (rating0, g3) :=
    rng_uniform g2 (fst (rating_range profile)) (snd (rating_range profile)) in
  let rating_adj := Rmin 5 (rating0 + price_percentile * 0.3) in
  let (moq_i, g4) := rng_choice g3 (length (moq_options profile)) in
  let moq := nth moq_i (moq_options profile) 0%Z in
  let (lead_time, g5) :=
    rng_randint g4 (fst (lead_time_range profile)) (snd (lead_time_range profile)) in
  let (confidence, g6) :=
    rng_uniform g5 (fst (confidence_range profile)) (snd (confidence_range profile)) in
  let (ship0, g7) := rng_uniform g6 0.5 (price * 0.15) in
  let ship_cost := round ship0 2 in
  let (capacity, g8) := rng_randint g7 5000 80000 in
  let (name_i, g9) := rng_choice g8 (length SUPPLIER_NAMES) in
  let supplier_name := nth name_i SUPPLIER_NAMES ""%string in
  ({| raw_sku := sku;
      raw_source := source;
      raw_supplier_name := supplier_name;
      raw_price := price;
      raw_currency := "USD";
      raw_moq := moq;
      raw_lead_time_days := lead_time;
      raw_shipping_cost_per_unit := ship_cost;
      raw_capacity_units := capacity;
      raw_rating := round rating_adj 1;
      raw_confidence := round confidence 2 |}, g9).

Fixpoint simulate_loop (sku source : string) (profile : Profile) (base_price : R)
  (n : nat) (g : rng) : list RawOffer :=
  match n with
  | O => []
  | S n' =>
      let (offer, g') := simulate_offer sku source profile base_price g in
      offer :: simulate_loop sku source profile base_price n' g'
  end.

Definition _simulate_offers_for_sku (sku source : string) (n_suppliers : nat)
  : list RawOffer :=
  let profile :=
    match dict_get String.eqb source SOURCE_PROFILES with
    | Some p => p
    | None => mock_alibaba
    end in
  let g := seed_rng (py_hash (sku ++ source) mod 2 ^ 32) in
  let base_price := 10 + IZR (py_hash sku mod 490) in
  simulate_loop sku source profile base_price n_suppliers g.

Definition supplier_named (n : string) (d : Database) : option Supplier :=
  first (filter (fun s => String.eqb (name s) n) (suppliers d)).

Definition _get_or_create_supplier (n : string) (rating : R) : ST Session Supplier :=
  supplier <- db_query (supplier_named n) ;;
  match supplier with
  | Some s => ret s
  | None =>
      sid <- gen_uuid ;;
      let s := {| supplier_id := sid; name := n; rating := rating;
                  region := "Asia"; country := "CN";
                  incoterms_supported := ["FOB"; "CIF"]%string |} in
      db_add (RSupplier s) ;;
      db_flush ;;
      ret s
  end.

Definition product_with_sku (k : string) (d : Database) : option Product :=
  first (filter (fun p => String.eqb (sku p) k) (products d)).

(** The offers of a supplier for a product captured at [ttl_cutoff] or later. *)
Definition fresh_offer (sid pid : uuid) (ttl_cutoff : datetime) (o : SupplierOffer)
  : bool :=
  Nat.eqb (so_supplier_id o) sid && Nat.eqb (so_product_id o) pid
  && Z.leb ttl_cutoff (captured_at o).

Definition existing_offer (sid pid : uuid) (ttl_cutoff : datetime) (d : Database)
  : option SupplierOffer :=
  first (filter (fresh_offer sid pid ttl_cutoff) (supplier_offers d)).

(** The body of the innermost loop, for one candidate. *)
Definition scrape_candidate (product : Product) (offers_collected : nat)
  (raw : RawOffer) : ST Session nat :=
  supplier <- _get_or_create_supplier (raw_supplier_name raw) (raw_rating raw) ;;
  now <- utcnow ;;
  st <- get_settings ;;
  let ttl_cutoff := (now - 3600 * scraper_ttl_hours st)%Z in
  existing <- db_query (existing_offer (supplier_id supplier) (product_id product)
                          ttl_cutoff) ;;
  match existing with
  | Some _ => ret offers_collected
  | None =>
      oid <- gen_uuid ;;
      db_add (ROffer {| offer_id := oid;
                        so_supplier_id := supplier_id supplier;
                        so_product_id := product_id product;
                        price := raw_price raw;
                        currency := raw_currency raw;
                        moq := raw_moq raw;
                        lead_time_days := Some (raw_lead_time_days raw);
                        capacity_units := Some (raw_capacity_units raw);
                        captured_at := 0;
                        source := raw_source raw;
                        confidence := raw_confidence raw |}) ;;
      ret (S offers_collected)
  end.

Definition scrape_sku (sources : list string) (offers_collected : nat)
  (k : string) : ST Session nat :=
  product <- db_query (product_with_sku k) ;;
  match product with
  | None => ret offers_collected
  | Some product =>
      foldM
        (fun collected source =>
           foldM (scrape_candidate product) (_simulate_offers_for_sku k source 4)
             collected)
        sources offers_collected
  end.

Definition scraper_work (skus sources : list string) : ST Session nat :=
  foldM (scrape_sku sources) skus 0%nat.

Definition find_job (id : uuid) (d : Database) : option ScraperJob :=
  first (filter (fun j => Nat.eqb (job_id j) id) (scraper_jobs d)).

Definition update_job (id : uuid) (f : ScraperJob -> ScraperJob) (d : Database)
  : Database :=
  set_scraper_jobs d
    (map (fun j => if Nat.eqb (job_id j) id then f j else j) (scraper_jobs d)).

Definition with_status (st : Status) (j : ScraperJob) : ScraperJob :=
  {| job_id := job_id j; job_status := st; offers_collected := offers_collected j;
     job_error := job_error j; job_completed_at := job_completed_at j |}.

Definition completed (collected : nat) (t : datetime) (j : ScraperJob) : ScraperJob :=
  {| job_id := job_id j; job_status := Done; offers_collected := collected;
     job_error := job_error j; job_completed_at := Some t |}.

Definition errored (exc : exn) (j : ScraperJob) : ScraperJob :=
  {| job_id := job_id j; job_status := Failed; offers_collected := offers_collected j;
     job_error := Some (str exc); job_completed_at := job_completed_at j |}.

Definition scraper_finish (id : uuid) (collected : nat) : ST Session unit :=
  db_flush ;;
  now <- utcnow ;;
  db_update (update_job id (completed collected now)).

Definition run_scraper_job (id : uuid) (skus : list string)
  (sources : option (list string)) : ST World unit :=
  let sources :=
    match sources with
    | None => map fst SOURCE_PROFILES
    | Some l => l
    end in
  job <- lift (db_query (find_job id)) ;;
  match job with
  | None => raise (ValueError "Job not found")
  | Some _ =>
      lift (db_update (update_job id (with_status Running))) ;;
      db_commit ;;
      try_except
        (collected <- lift (scraper_work skus sources) ;;
         lift (scraper_finish id collected) ;;
         db_commit)
        (fun exc =>
           db_rollback ;;
           lift (db_update (update_job id (errored exc))) ;;
           db_commit ;;
           raise exc)
  end.

End WithRandom.

(** *** Offers inserted by one job *)

(** The pair the dedup rule looks at. *)
Definition pair_of (o : SupplierOffer) : uuid * uuid :=
  (so_supplier_id o, so_product_id o).

Definition ttl_seconds (e : Env) : Z := (3600 * scraper_ttl_hours (settings e))%Z.

(** The clock readings number [t0] to [T - 1] lie within the TTL of one
    another. *)
Definition within_ttl (e : Env) (t0 T : nat) : Prop :=
  forall i j, (t0 <= i < T)%nat -> (t0 <= j < T)%nat ->
    (clock e j - clock e i <= ttl_seconds e)%Z.

(** The state of a job that started at reading [t0] on the offers [base] and
    has counted [cnt] offers: the offers it wrote ([nt]) and the ones still
    pending are [cnt] in number, for distinct pairs, and each written one
    was stamped with a reading of the job. *)
Definition collected (e : Env) (t0 : nat) (base : list SupplierOffer) (cnt : nat)
  (s : Session) : Prop :=
  env s = e
  /\ (t0 <= tick s)%nat
  /\ exists nt,
       supplier_offers (txn s) = base ++ nt
       /\ NoDup (map pair_of (nt ++ pending_rows (pending s)))
       /\ (forall o, In o nt ->
             exists i, (t0 <= i < tick s)%nat /\ captured_at o = clock e i)
       /\ cnt = length (nt ++ pending_rows (pending s)).


Lemma supplier_offers_flushed (s : Session) :
  supplier_offers (txn (flushed s))
  = supplier_offers (txn s)
    ++ map (stamp (clock (env s) (tick s))) (pending_rows (pending s)).
Proof. apply (sel_flushed (T := supplier_offers_table)). Qed.

Lemma NoDup_snoc {A : Type} (l : list A) (x : A) :
  NoDup l -> ~ In x l -> NoDup (l ++ [x]).
Proof.
  induction 1 as [| y l Hy Hl IH]; cbn; intros Hx.
  - constructor; [tauto | constructor].
  - constructor.
    + rewrite in_app_iff. cbn. intuition congruence.
    + apply IH. tauto.
Qed.

Section Collected.

Variable e : Env.
Variable t0 : nat.
Variable base : list SupplierOffer.





End Collected.

Lemma first_none {A : Type} (l : list A) : first l = None -> l = [].
Proof. destruct l; cbn; [reflexivity | discriminate]. Qed.

Lemma insert_rows_nil (t : datetime) (d : Database) : insert_rows t d [] = d.
Proof. reflexivity. Qed.

Section OneJob.

Variable py_hash : string -> Z.
Variable rng : Type.
Variable seed_rng : Z -> rng.
Variable rng_uniform : rng -> R -> R -> R * rng.
Variable rng_gauss : rng -> R -> R -> R * rng.
Variable rng_choice : rng -> nat -> nat * rng.
Variable rng_randint : rng -> Z -> Z -> Z * rng.

Variable e : Env.
Variable t0 T : nat.
Variable base : list SupplierOffer.

Hypothesis autoflush_on : autoflush e = true.
Hypothesis job_within_ttl : within_ttl e t0 T.







End OneJob.

Lemma scraper_finish_total (id : uuid) (collected : nat) (s : Session) :
  snd (scraper_finish id collected s) = inr tt.
Proof. reflexivity. Qed.

Lemma scraper_finish_state (id : uuid) (cnt : nat) (s s3 : Session) (u : unit) :
  scraper_finish id cnt s = (s3, inr u) ->
  s3 = with_txn (advance (flushed s))
         (update_job id (completed cnt (clock (env s) (S (tick s))))
            (txn (flushed s))).
Proof. intros E. inversion E. reflexivity. Qed.

Lemma completed_job (id : uuid) (cnt : nat) (t : datetime) (d : Database)
  (job : ScraperJob) :
  In job (scraper_jobs (update_job id (completed cnt t) d)) ->
  job_id job = id ->
  offers_collected job = cnt /\ job_status job = Done.
Proof.
  cbn. intros Hin Hid. apply in_map_iff in Hin. destruct Hin as [j0 [Hj _]].
  destruct (Nat.eqb (job_id j0) id) eqn:E.
  - subst job. cbn. auto.
  - subst job. apply Nat.eqb_neq in E. contradiction.
Qed.

(** The session in which the work of a job starts, on a clean session. *)
Lemma started_clean (id : uuid) (f : ScraperJob -> ScraperJob) (w : World)
  (s1 : Session) :
  pending (session w) = [] -> txn (session w) = committed w ->
  s1 = advance (session w) \/ s1 = advance (flushed (session w)) ->
  let s := started (update_job id f) {| committed := committed w; session := s1 |} in
  env s = env (session w)
  /\ (tick (session w) <= tick s)%nat
  /\ pending s = []
  /\ supplier_offers (txn s) = supplier_offers (committed w)
  /\ suppliers (txn s) = suppliers (committed w)
  /\ products (txn s) = products (committed w).
Proof.
  intros Hp Ht [-> | ->]; cbn; rewrite ?Hp, ?Ht; cbn; repeat split; lia.
Qed.


(** *** A second job after a first *)

(** The first job leaves every candidate with an offer that the dedup check
    of the second job finds: either an offer it inserted, stamped with one
    of its readings, or an older offer that made it skip the candidate.
    The second holds for the second job only if that older offer has not
    expired in between. *)

Definition sku_product (k : string) (ps : list Product) : option Product :=
  first (filter (fun p => String.eqb (sku p) k) ps).

Definition named (n : string) (l : list Supplier) : option Supplier :=
  first (filter (fun s => String.eqb (name s) n) l).

Lemma first_app_some {A : Type} (l l' : list A) (x : A) :
  first l = Some x -> first (l ++ l') = Some x.
Proof. destruct l; cbn; [discriminate | auto]. Qed.

Lemma named_app (n : string) (l l' : list Supplier) (sup : Supplier) :
  named n l = Some sup -> named n (l ++ l') = Some sup.
Proof. unfold named. rewrite filter_app. apply first_app_some. Qed.

Lemma named_new (n : string) (l : list Supplier) (sup : Supplier) :
  named n l = None -> name sup = n -> named n (l ++ [sup]) = Some sup.
Proof.
  unfold named. intros Hn Hs. apply first_none in Hn.
  rewrite filter_app, Hn. cbn. rewrite Hs, String.eqb_refl. reflexivity.
Qed.

Lemma no_pending_products (rows : list Row) :
  pending_rows (T := products_table) rows = [].
Proof. induction rows as [| r rows IH]; cbn; auto. Qed.

Lemma products_flushed (s : Session) : products (txn (flushed s)) = products (txn s).
Proof.
  pose proof (sel_flushed (T := products_table) s) as H.
  rewrite no_pending_products in H. cbn in H. rewrite app_nil_r in H. exact H.
Qed.

Lemma suppliers_flushed (s : Session) :
  suppliers (txn (flushed s))
  = suppliers (txn s) ++ pending_rows (T := suppliers_table) (pending s).
Proof.
  pose proof (sel_flushed (T := suppliers_table) s) as H.
  cbn [sel stamp suppliers_table] in H. rewrite map_id in H. exact H.
Qed.

(** No supplier is pending. *)
Definition tidy (s : Session) : Prop :=
  pending_rows (T := suppliers_table) (pending s) = [].

Lemma tidy_settle (s : Session) : tidy s -> tidy (settle s).
Proof. intros H. destruct (settle_cases s) as [-> | ->]; [exact H | reflexivity]. Qed.

Section Coverage.

Variable e : Env.
Variable t0 T : nat.
Variable P0 : list Product.

Hypothesis readings_within_ttl : within_ttl e t0 T.

(** The dedup check made at reading [i] finds [o] recent enough. *)
Definition fresh_at (i : nat) (o : SupplierOffer) : Prop :=
  (clock e i - ttl_seconds e <= captured_at o)%Z.

(** [o] is recent enough at every reading from [t0] to [T - 1]. *)
Definition durable (o : SupplierOffer) : Prop :=
  forall j, (t0 <= j < T)%nat -> fresh_at j o.

(** None of the offers [l] expires between the readings [t0] and [T - 1]. *)
Definition lasting (l : list SupplierOffer) : Prop :=
  forall o i, In o l -> (t0 <= i < T)%nat -> fresh_at i o -> durable o.

(** The candidate [c] (a product and a supplier name) is settled in the
    session [s]: the name resolves to a supplier, for whom the session
    holds an offer for the product that no check of the window finds
    stale, or a pending one. *)
Definition covered (s : Session) (c : uuid * string) : Prop :=
  exists sup,
    named (snd c) (suppliers (txn s)) = Some sup
    /\ ((exists o, In o (supplier_offers (txn s))
                   /\ pair_of o = (supplier_id sup, fst c) /\ durable o)
        \/ (exists o, In o (pending_rows (pending s))
                      /\ pair_of o = (supplier_id sup, fst c))).

Definition sound (s : Session) : Prop :=
  (t0 <= tick s)%nat /\ products (txn s) = P0
  /\ lasting (supplier_offers (txn s)).

(** The invariant of the first job: as long as the readings stay below
    [T], [F] holds, and every candidate of [G] is covered. *)
Definition covering (F : Prop) (G : uuid * string -> Prop) (s : Session) : Prop :=
  env s = e
  /\ ((tick s <= T)%nat -> F /\ sound s /\ forall c, G c -> covered s c).

Lemma covering_same (F : Prop) G (s s' : Session) :
  env s' = env s -> products (txn s') = products (txn s) ->
  suppliers (txn s') = suppliers (txn s) ->
  supplier_offers (txn s') = supplier_offers (txn s) ->
  pending s' = pending s -> (tick s <= tick s')%nat ->
  covering F G s -> covering F G s'.
Proof.
  intros He Hp Hs Ho Hpe Hk [Hes H]. split; [congruence |].
  intros Hle. destruct (H ltac:(lia)) as [HF [[Ht [Hpr Hl]] Hc]].
  split; [exact HF | split].
  - split; [lia | split; [congruence | now rewrite Ho]].
  - intros c Hg. unfold covered. rewrite Hs, Ho, Hpe. now apply Hc.
Qed.

Lemma stamped_durable (s : Session) (o : SupplierOffer) :
  env s = e -> (t0 <= tick s < T)%nat ->
  durable (stamp (clock (env s) (tick s)) o).
Proof.
  intros He Hk j Hj. unfold fresh_at.
  cbn [stamp supplier_offers_table with_captured_at captured_at]. rewrite He.
  pose proof (readings_within_ttl (tick s) j Hk Hj). lia.
Qed.

Lemma covering_flushed (F : Prop) G (s : Session) :
  covering F G s -> covering F G (flushed s).
Proof.
  intros [He H]. split; [exact He |]. cbn [tick flushed]. intros Hle.
  destruct (H ltac:(lia)) as [HF [[Ht [Hpr Hl]] Hc]].
  split; [exact HF | split].
  - split; [cbn; lia | split; [now rewrite products_flushed |]].
    rewrite supplier_offers_flushed. intros o i Ho Hi Hf.
    apply in_app_or in Ho. destruct Ho as [Ho | Ho]; [now apply (Hl o i) |].
    apply in_map_iff in Ho. destruct Ho as [o' [<- _]].
    apply stamped_durable; [exact He | lia].
  - intros c Hg. destruct (Hc c Hg) as [sup [Hn Ho]]. exists sup. split.
    + rewrite suppliers_flushed. now apply named_app.
    + left. rewrite supplier_offers_flushed.
      destruct Ho as [[o [Hin [Hp Hd]]] | [o [Hin Hp]]].
      * exists o. split; [apply in_or_app; now left | auto].
      * exists (stamp (clock (env s) (tick s)) o). split; [| split].
        -- apply in_or_app. right. now apply in_map.
        -- exact Hp.
        -- apply stamped_durable; [exact He | lia].
Qed.

Lemma covering_settle (F : Prop) G (s : Session) :
  covering F G s -> covering F G (settle s).
Proof.
  intros H. destruct (settle_cases s) as [-> | ->];
    [exact H | now apply covering_flushed].
Qed.

Lemma covering_add (F : Prop) G (s s' : Session) (r : Row) :
  env s' = env s -> txn s' = txn s -> pending s' = pending s ++ [r] ->
  (tick s <= tick s')%nat ->
  covering F G s -> covering F G s'.
Proof.
  intros He Htx Hpe Hk [Hes H]. split; [congruence |].
  intros Hle. destruct (H ltac:(lia)) as [HF [[Ht [Hpr Hl]] Hc]].
  split; [exact HF | split].
  - split; [lia | split; rewrite Htx; assumption].
  - intros c Hg. destruct (Hc c Hg) as [sup [Hn Ho]]. exists sup.
    rewrite Htx, Hpe. split; [exact Hn |].
    destruct Ho as [Ho | [o [Hin Hp]]]; [now left | right].
    exists o. split; [| exact Hp].
    rewrite pending_rows_app. apply in_or_app. now left.
Qed.

Lemma covering_weaken (F F' : Prop) (G G' : uuid * string -> Prop) (s : Session) :
  ((tick s <= T)%nat -> F -> F' /\ forall c, G' c -> G c) ->
  covering F G s -> covering F' G' s.
Proof.
  intros Hw [He H]. split; [exact He |]. intros Hle.
  destruct (H Hle) as [HF [Hs Hc]]. destruct (Hw Hle HF) as [HF' Hg].
  split; [exact HF' | split; [exact Hs |]]. intros c Hc'. apply Hc, Hg, Hc'.
Qed.

Lemma covering_more (F : Prop) G (s : Session) (c : uuid * string) :
  covering F G s -> ((tick s <= T)%nat -> covered s c) ->
  covering F (fun c' => G c' \/ c' = c) s.
Proof.
  intros [He H] Hc. split; [exact He |]. intros Hle.
  destruct (H Hle) as [HF [Hs Hg]]. split; [exact HF | split; [exact Hs |]].
  intros c' [Hc' | ->]; auto.
Qed.

Section Candidates.

Variable py_hash : string -> Z.
Variable rng : Type.
Variable seed_rng : Z -> rng.
Variable rng_uniform : rng -> R -> R -> R * rng.
Variable rng_gauss : rng -> R -> R -> R * rng.
Variable rng_choice : rng -> nat -> nat * rng.
Variable rng_randint : rng -> Z -> Z -> Z * rng.

(** The candidates a job works through, given its SKUs and sources. *)
Definition candidates_of (k : string) (sources : list string)
  (c : uuid * string) : Prop :=
  exists p source raw,
    sku_product k P0 = Some p /\ In source sources
    /\ In raw (_simulate_offers_for_sku py_hash rng seed_rng rng_uniform rng_gauss
                 rng_choice rng_randint k source 4)
    /\ c = (product_id p, raw_supplier_name raw).

Lemma get_or_create_covers (F : Prop) G (n : string) (rating : R)
  (s s1 : Session) (sup : Supplier) :
  covering F G s -> tidy s ->
  _get_or_create_supplier n rating s = (s1, inr sup) ->
  covering F G s1 /\ tidy s1
  /\ (tick s <= tick s1)%nat
  /\ named n (suppliers (txn s1)) = Some sup.
Proof.
  intros HK Ht E. unfold _get_or_create_supplier, bind in E.
  destruct (db_query _ s) as [sq [ex | found]] eqn:Eq; [discriminate |].
  apply db_query_returns in Eq. destruct Eq as [-> Hfound].
  assert (Hsq : covering F G (advance (settle s))).
  { apply (covering_same F G (settle s)); cbn; auto. now apply covering_settle. }
  assert (Hk : (tick s <= tick (settle s))%nat).
  { destruct (settle_cases s) as [-> | ->]; cbn; lia. }
  destruct found as [sup0 |].
  - inversion E; subst; clear E.
    split; [exact Hsq | split; [now apply tidy_settle | split; [cbn; lia |]]].
    cbn. symmetry. exact Hfound.
  - unfold gen_uuid, db_add, db_flush, ret in E. cbn in E.
    inversion E; subst; clear E.
    split; [| split; [reflexivity | split; [cbn; lia |]]].
    + apply covering_flushed.
      eapply (covering_add F G (advance (settle s))); [| | | | exact Hsq];
        cbn; auto.
    + rewrite suppliers_flushed. cbn [pending txn with_pending].
      rewrite pending_rows_app. rewrite (tidy_settle s Ht). cbn.
      apply named_new; [symmetry; exact Hfound | reflexivity].
Qed.

Lemma first_filter_some {A : Type} (f : A -> bool) (l : list A) (x : A) :
  first (filter f l) = Some x -> In x l /\ f x = true.
Proof.
  intros H. apply filter_In. destruct (filter f l) as [| y l']; [discriminate |].
  cbn in H. inversion H; subst. now left.
Qed.

Lemma named_settle (n : string) (s : Session) (sup : Supplier) :
  named n (suppliers (txn s)) = Some sup ->
  named n (suppliers (txn (settle s))) = Some sup.
Proof.
  intros H. destruct (settle_cases s) as [-> | ->]; [exact H |].
  rewrite suppliers_flushed. now apply named_app.
Qed.

Lemma tick_settle (s : Session) : (tick s <= tick (settle s))%nat.
Proof. destruct (settle_cases s) as [-> | ->]; cbn; lia. Qed.

Lemma scrape_candidate_covers (F : Prop) G (p : Product) (cnt : nat)
  (raw : RawOffer) :
  hoare (fun s => covering F G s /\ tidy s) (scrape_candidate p cnt raw)
    (fun _ s =>
       covering F (fun c => G c \/ c = (product_id p, raw_supplier_name raw)) s
       /\ tidy s).
Proof.
  intros s s' cnt' [HK Ht] E. unfold scrape_candidate, bind in E.
  destruct (_get_or_create_supplier _ _ s) as [s1 [ex | sup]] eqn:E1;
    [discriminate |].
  destruct (get_or_create_covers F G _ _ _ _ _ HK Ht E1) as [HK1 [Ht1 [Hk1 Hn1]]].
  unfold utcnow, get_settings in E.
  cbn -[db_query Z.mul Z.sub existing_offer] in E.
  destruct (db_query _ (advance s1)) as [s2 [ex | existing]] eqn:E2;
    [discriminate |].
  apply db_query_returns in E2. destruct E2 as [-> Hex].
  set (sb := settle (advance s1)) in *.
  assert (HKb : covering F G sb).
  { apply covering_settle. apply (covering_same F G s1); cbn; auto. }
  assert (Htb : tidy sb) by (apply tidy_settle; exact Ht1).
  assert (Hnb : named (raw_supplier_name raw) (suppliers (txn sb)) = Some sup)
    by (apply named_settle; exact Hn1).
  assert (Hkb : (S (tick s1) <= tick sb)%nat) by apply (tick_settle (advance s1)).
  destruct existing as [o' |].
  - inversion E; subst; clear E. split; [| exact Htb].
    apply covering_more; [apply (covering_same F G sb); cbn; auto |].
    cbn [tick advance]. intros Hle. exists sup. split; [exact Hnb |]. left.
    symmetry in Hex. apply first_filter_some in Hex. destruct Hex as [Hin Hf].
    unfold fresh_offer in Hf. apply andb_prop in Hf. destruct Hf as [Hf Hc].
    apply andb_prop in Hf. destruct Hf as [Hs Hp].
    apply Nat.eqb_eq in Hs, Hp. apply Z.leb_le in Hc.
    exists o'. split; [exact Hin | split; [unfold pair_of; cbn [fst]; congruence |]].
    destruct HKb as [_ HKb]. destruct (HKb ltac:(lia)) as [_ [[_ [_ Hl]] _]].
    destruct HK1 as [He1 HK1]. destruct (HK1 ltac:(lia)) as [_ [[Ht0 _] _]].
    apply (Hl o' (tick s1)); [exact Hin | lia |].
    unfold fresh_at, ttl_seconds. rewrite <- He1. exact Hc.
  - unfold gen_uuid, db_add, ret in E. cbn -[Z.mul Z.sub] in E.
    inversion E; subst; clear E. split.
    + apply covering_more.
      * eapply (covering_add F G sb); [| | | | exact HKb]; cbn; auto.
      * intros _. exists sup. split; [exact Hnb |]. right.
        eexists. split.
        -- cbn [pending with_pending]. rewrite pending_rows_app.
           apply in_or_app. right. cbn. left. reflexivity.
        -- reflexivity.
    + unfold tidy. cbn [pending with_pending]. rewrite pending_rows_app.
      unfold tidy in Htb. cbn [pending] in Htb. rewrite Htb. reflexivity.
Qed.

Definition covering_inv (F : Prop) (G : uuid * string -> Prop) (s : Session)
  : Prop :=
  covering F G s /\ tidy s.

Lemma covering_inv_mono (F : Prop) (G G' : uuid * string -> Prop) (s : Session) :
  (forall c, G' c -> G c) -> covering_inv F G s -> covering_inv F G' s.
Proof.
  intros Hg [HK Ht]. split; [| exact Ht].
  apply (covering_weaken F F G G'); [| exact HK]. auto.
Qed.

Lemma scrape_sku_covers (F : Prop) G (sources : list string) (cnt : nat)
  (k : string) :
  hoare (covering_inv F G)
    (scrape_sku py_hash rng seed_rng rng_uniform rng_gauss rng_choice rng_randint
       sources cnt k)
    (fun _ => covering_inv F (fun c => G c \/ candidates_of k sources c)).
Proof.
  intros s s' cnt' [HK Ht] E. unfold scrape_sku, bind in E.
  destruct (db_query _ s) as [sq [ex | product]] eqn:Eq; [discriminate |].
  apply db_query_returns in Eq. destruct Eq as [-> Hp].
  assert (Hq : covering_inv (F /\ sku_product k P0 = product) G
                 (advance (settle s))).
  { split; [| now apply tidy_settle].
    apply (covering_same _ G (settle s)); cbn; auto.
    pose proof (covering_settle F G s HK) as [He H]. split; [exact He |].
    intros Hle. destruct (H Hle) as [HF [Hs Hc]].
    split; [| split; [exact Hs | exact Hc]]. split; [exact HF |].
    destruct Hs as [_ [Hpr _]]. rewrite Hp, <- Hpr. reflexivity. }
  destruct product as [p |].
  - assert (Hloop :
      hoare (covering_inv (F /\ sku_product k P0 = Some p) G)
        (foldM
           (fun collected source =>
              foldM (scrape_candidate p)
                (_simulate_offers_for_sku py_hash rng seed_rng rng_uniform
                   rng_gauss rng_choice rng_randint k source 4) collected)
           sources cnt)
        (fun _ =>
           covering_inv (F /\ sku_product k P0 = Some p)
             (fun c =>
                G c
                \/ exists source,
                     In source sources
                     /\ exists raw,
                          In raw (_simulate_offers_for_sku py_hash rng seed_rng
                                    rng_uniform rng_gauss rng_choice rng_randint
                                    k source 4)
                          /\ c = (product_id p, raw_supplier_name raw)))).
    { apply (hoare_foldM_grow (covering_inv (F /\ sku_product k P0 = Some p))
               (fun source c =>
                  exists raw,
                    In raw (_simulate_offers_for_sku py_hash rng seed_rng
                              rng_uniform rng_gauss rng_choice rng_randint
                              k source 4)
                    /\ c = (product_id p, raw_supplier_name raw))).
      - intros G1 G2 s0. apply covering_inv_mono.
      - intros G1 cnt1 source _.
        apply (hoare_foldM_grow (covering_inv (F /\ sku_product k P0 = Some p))
                 (fun raw c => c = (product_id p, raw_supplier_name raw))).
        + intros G2 G3 s0. apply covering_inv_mono.
        + intros G2 cnt2 raw _. apply scrape_candidate_covers. }
    destruct (Hloop _ _ _ Hq E) as [HK' Ht']. split; [| exact Ht'].
    refine (covering_weaken _ _ _ _ _ _ HK').
    intros _ [HF Hp']. split; [exact HF |].
    intros c [Hc | [p' [source [raw [Hsku [Hsrc [Hraw ->]]]]]]]; [now left |].
    right. exists source. split; [exact Hsrc |]. exists raw.
    split; [exact Hraw |]. congruence.
  - inversion E; subst; clear E. destruct Hq as [HK' Ht']. split; [| exact Ht'].
    refine (covering_weaken _ _ _ _ _ _ HK').
    intros _ [HF Hp']. split; [exact HF |].
    intros c [Hc | [p' [source [raw [Hsku _]]]]]; [exact Hc | congruence].
Qed.

(** The whole of the work of a job covers the candidates of its SKUs. *)
Lemma scraper_work_covers (F : Prop) (skus sources : list string) :
  hoare (covering_inv F (fun _ => False))
    (scraper_work py_hash rng seed_rng rng_uniform rng_gauss rng_choice
       rng_randint skus sources)
    (fun _ =>
       covering_inv F
         (fun c => exists k, In k skus /\ candidates_of k sources c)).
Proof.
  unfold scraper_work. eapply hoare_conseq.
  - apply (hoare_foldM_grow (covering_inv F)
             (fun k c => candidates_of k sources c)).
    + intros G1 G2 s0. apply covering_inv_mono.
    + intros G1 cnt k _. apply scrape_sku_covers.
  - intros s Hs. exact Hs.
  - cbv beta. intros _ s. apply covering_inv_mono. intros c Hc. now right.
Qed.

(** **** The second job *)

Section Idle.

Variable S1 : list Supplier.
Variable O1 : list SupplierOffer.

(** The candidate [c] is settled in the tables [S1] and [O1]. *)
Definition settled (c : uuid * string) : Prop :=
  exists sup o,
    named (snd c) S1 = Some sup /\ In o O1
    /\ pair_of o = (supplier_id sup, fst c) /\ durable o.

(** The invariant of the second job: as long as the readings stay below
    [T], [F] holds, nothing was counted, nothing is pending and the tables
    are as the job found them. *)
Definition idle (F : Prop) (cnt : nat) (s : Session) : Prop :=
  env s = e
  /\ ((tick s <= T)%nat ->
      F /\ cnt = 0%nat /\ (t0 <= tick s)%nat /\ pending s = []
      /\ products (txn s) = P0 /\ suppliers (txn s) = S1
      /\ supplier_offers (txn s) = O1).

Lemma idle_same (F : Prop) (cnt : nat) (s s' : Session) :
  env s' = env s -> txn s' = txn s -> pending s' = pending s ->
  (tick s <= tick s')%nat ->
  idle F cnt s -> idle F cnt s'.
Proof.
  intros He Ht Hp Hk [Hes H]. split; [congruence |]. intros Hle.
  rewrite Ht, Hp. destruct (H ltac:(lia)) as [HF [Hc [Ht0 Hr]]].
  split; [exact HF | split; [exact Hc | split; [lia | exact Hr]]].
Qed.

Lemma idle_settle (F : Prop) (cnt : nat) (s : Session) :
  idle F cnt s -> idle F cnt (settle s).
Proof.
  intros HI. destruct (settle_cases s) as [-> | ->]; [exact HI |].
  destruct HI as [He H]. split; [exact He |]. cbn [tick flushed]. intros Hle.
  destruct (H ltac:(lia)) as [HF [Hc [Ht0 [Hp [Hpr [Hs Ho]]]]]].
  rewrite products_flushed, suppliers_flushed, supplier_offers_flushed, Hp.
  cbn. rewrite !app_nil_r.
  split; [exact HF | split; [exact Hc | split; [lia | auto]]].
Qed.

Lemma idle_weaken (F F' : Prop) (cnt : nat) (s : Session) :
  (F -> F') -> idle F cnt s -> idle F' cnt s.
Proof.
  intros Hf [He H]. split; [exact He |]. intros Hle.
  destruct (H Hle) as [HF Hr]. split; [apply Hf, HF | exact Hr].
Qed.

Lemma get_or_create_idle (F : Prop) (cnt : nat) (n : string) (rating : R)
  (s s1 : Session) (sup : Supplier) :
  (F -> exists sup0, named n S1 = Some sup0) ->
  idle F cnt s ->
  _get_or_create_supplier n rating s = (s1, inr sup) ->
  idle F cnt s1 /\ ((tick s1 <= T)%nat -> named n S1 = Some sup).
Proof.
  intros Hn HI E. unfold _get_or_create_supplier, bind in E.
  destruct (db_query _ s) as [sq [ex | found]] eqn:Eq; [discriminate |].
  apply db_query_returns in Eq. destruct Eq as [-> Hfound].
  pose proof (idle_settle F cnt s HI) as HIs.
  unfold supplier_named in Hfound. fold (named n (suppliers (txn (settle s)))) in Hfound.
  destruct found as [sup0 |].
  - inversion E; subst; clear E. split.
    + apply (idle_same F cnt (settle s)); cbn; auto.
    + cbn [tick advance]. intros Hle. destruct HIs as [_ H].
      destruct (H ltac:(lia)) as [_ [_ [_ [_ [_ [Hs _]]]]]].
      rewrite <- Hs. symmetry. exact Hfound.
  - unfold gen_uuid, db_add, db_flush, ret in E. cbn in E.
    inversion E; subst; clear E.
    assert (Hno : (S (S (tick (settle s))) <= T)%nat -> False).
    { intros Hle. destruct HIs as [_ H].
      destruct (H ltac:(lia)) as [HF [_ [_ [_ [_ [Hs _]]]]]].
      destruct (Hn HF) as [sup0 Hsup0]. rewrite Hs in Hfound. congruence. }
    split; [split |].
    + cbn. apply HIs.
    + cbn [tick flushed with_pending]. intros Hle. destruct (Hno Hle).
    + cbn [tick flushed with_pending]. intros Hle. destruct (Hno Hle).
Qed.

Lemma scrape_candidate_idle (F : Prop) (p : Product) (cnt : nat) (raw : RawOffer) :
  (F -> settled (product_id p, raw_supplier_name raw)) ->
  hoare (idle F cnt) (scrape_candidate p cnt raw) (fun cnt' => idle F cnt').
Proof.
  intros Hset s s' cnt' HI E. unfold scrape_candidate, bind in E.
  destruct (_get_or_create_supplier _ _ s) as [s1 [ex | sup]] eqn:E1;
    [discriminate |].
  apply (get_or_create_idle F cnt) in E1; [| | exact HI].
  2:{ intros HF. destruct (Hset HF) as [sup0 [_ [Hs0 _]]]. eauto. }
  destruct E1 as [HI1 Hn1].
  unfold utcnow, get_settings in E.
  cbn -[db_query Z.mul Z.sub existing_offer] in E.
  destruct (db_query _ (advance s1)) as [s2 [ex | existing]] eqn:E2;
    [discriminate |].
  apply db_query_returns in E2. destruct E2 as [-> Hex].
  set (sb := settle (advance s1)) in *.
  assert (HIb : idle F cnt sb).
  { apply idle_settle. apply (idle_same F cnt s1); cbn; auto. }
  assert (Hkb : (S (tick s1) <= tick sb)%nat) by apply (tick_settle (advance s1)).
  destruct existing as [o' |].
  - inversion E; subst; clear E. apply (idle_same F cnt' sb); cbn; auto.
  - unfold gen_uuid, db_add, ret in E. cbn -[Z.mul Z.sub] in E.
    inversion E; subst; clear E. split; [cbn; apply HIb |].
    cbn [tick with_pending]. intros Hle. exfalso.
    destruct HIb as [_ HIb].
    destruct (HIb ltac:(lia)) as [HF [_ [_ [_ [_ [_ Ho]]]]]].
    destruct HI1 as [He1 HI1]. destruct (HI1 ltac:(lia)) as [_ [_ [Ht0 _]]].
    destruct (Hset HF) as [sup0 [o [Hs0 [Hin [Hp Hd]]]]].
    cbn [fst snd] in Hs0, Hp. rewrite (Hn1 ltac:(lia)) in Hs0.
    inversion Hs0; subst sup0; clear Hs0.
    symmetry in Hex. unfold existing_offer in Hex. apply first_none in Hex.
    assert (Hf : In o (filter
                         (fresh_offer (supplier_id sup) (product_id p)
                            (clock (env s1) (tick s1)
                             - 3600 * scraper_ttl_hours (settings (env s1))))
                         (supplier_offers (txn sb)))).
    { apply filter_In. split; [rewrite Ho; exact Hin |].
      unfold fresh_offer. unfold pair_of in Hp. inversion Hp.
      rewrite !Nat.eqb_refl. cbn [andb]. apply Z.leb_le. rewrite He1.
      apply (Hd (tick s1)). lia. }
    rewrite Hex in Hf. contradiction.
Qed.

Lemma scrape_sku_idle (F : Prop) (sources : list string) (cnt : nat) (k : string) :
  (forall c, candidates_of k sources c -> settled c) ->
  hoare (idle F cnt)
    (scrape_sku py_hash rng seed_rng rng_uniform rng_gauss rng_choice rng_randint
       sources cnt k)
    (fun cnt' => idle F cnt').
Proof.
  intros Hset s s' cnt' HI E. unfold scrape_sku, bind in E.
  destruct (db_query _ s) as [sq [ex | product]] eqn:Eq; [discriminate |].
  apply db_query_returns in Eq. destruct Eq as [-> Hp].
  assert (Hq : idle (F /\ sku_product k P0 = product) cnt (advance (settle s))).
  { apply (idle_same _ cnt (settle s)); cbn; auto.
    pose proof (idle_settle F cnt s HI) as [He H]. split; [exact He |].
    intros Hle. destruct (H Hle) as [HF [Hc [Ht0 [Hpe [Hpr Hr]]]]].
    split; [| auto]. split; [exact HF |]. rewrite Hp, <- Hpr. reflexivity. }
  destruct product as [p |].
  - apply (idle_weaken (F /\ sku_product k P0 = Some p) F); [tauto |].
    refine (hoare_foldM (idle (F /\ sku_product k P0 = Some p)) _ sources cnt
              _ _ _ _ Hq E).
    intros cnt1 source Hsrc.
    apply (hoare_foldM (idle (F /\ sku_product k P0 = Some p))).
    intros cnt2 raw Hraw. apply scrape_candidate_idle.
    intros [_ Hsku]. apply Hset. exists p, source, raw. auto.
  - inversion E; subst; clear E.
    apply (idle_weaken (F /\ sku_product k P0 = None) F); [tauto | exact Hq].
Qed.

Lemma scraper_work_idle (F : Prop) (skus sources : list string) :
  (forall c, (exists k, In k skus /\ candidates_of k sources c) -> settled c) ->
  hoare (idle F 0)
    (scraper_work py_hash rng seed_rng rng_uniform rng_gauss rng_choice
       rng_randint skus sources)
    (fun cnt => idle F cnt).
Proof.
  intros Hset. unfold scraper_work. apply (hoare_foldM (idle F)).
  intros cnt k Hk. apply scrape_sku_idle. intros c Hc. apply Hset. eauto.
Qed.

End Idle.

End Candidates.
End Coverage.

Ltac rising_steps :=
  repeat first
    [ apply rising_ret | apply rising_raise | apply rising_lift
    | apply rising_query | apply rising_utcnow | apply rising_gen_uuid
    | apply rising_add | apply rising_flush | apply rising_update
    | apply rising_get_settings | apply rising_commit | apply rising_rollback
    | apply rising_bind | apply rising_try_except | apply rising_foldM
    | match goal with
      | |- forall _, _ => intro
      | |- rising _ (match ?x with _ => _ end) => destruct x
      end ].

Lemma run_scraper_job_rising
  (py_hash : string -> Z) (rng : Type) (seed_rng : Z -> rng)
  (rng_uniform rng_gauss : rng -> R -> R -> R * rng)
  (rng_choice : rng -> nat -> nat * rng) (rng_randint : rng -> Z -> Z -> Z * rng)
  (id : uuid) (skus : list string) (sources : option (list string)) :
  rising (fun w => tick (session w))
    (run_scraper_job py_hash rng seed_rng rng_uniform rng_gauss rng_choice
       rng_randint id skus sources).
Proof.
  unfold run_scraper_job, scraper_work, scrape_sku, scrape_candidate,
    _get_or_create_supplier, scraper_finish.
  rising_steps.
Qed.

Lemma covered_settled (e : Env) (t0 T : nat) (s : Session) (c : uuid * string) :
  pending s = [] ->
  covered e t0 T s c ->
  settled e t0 T (suppliers (txn s)) (supplier_offers (txn s)) c.
Proof.
  intros Hp [sup [Hn [[o [Hin [Hpair Hd]]] | [o [Hin _]]]]].
  - exists sup, o. auto.
  - rewrite Hp in Hin. destruct Hin.
Qed.

(** C7.  A job completes, and a second job is run with the same SKUs
    and sources (the sources being deterministic, both jobs see the same
    candidates).  If the clock readings of the two jobs lie within the TTL
    of one another, and no offer that was there before the first job
    expires between the first reading and the last, the second job inserts
    no offer and no supplier, and if it completes it reports
    [offers_collected = 0]. *)
Theorem second_job_inserts_nothing
  (py_hash : string -> Z) (rng : Type) (seed_rng : Z -> rng)
  (rng_uniform rng_gauss : rng -> R -> R -> R * rng)
  (rng_choice : rng -> nat -> nat * rng) (rng_randint : rng -> Z -> Z -> Z * rng)
  (id1 id2 : uuid) (skus : list string) (sources : option (list string))
  (w w1 w2 : World) (u : unit) (r2 : result unit) :
  pending (session w) = [] ->
  txn (session w) = committed w ->
  run_scraper_job py_hash rng seed_rng rng_uniform rng_gauss rng_choice rng_randint
    id1 skus sources w = (w1, inr u) ->
  run_scraper_job py_hash rng seed_rng rng_uniform rng_gauss rng_choice rng_randint
    id2 skus sources w1 = (w2, r2) ->
  within_ttl (env (session w)) (tick (session w)) (tick (session w2)) ->
  lasting (env (session w)) (tick (session w)) (tick (session w2))
    (supplier_offers (committed w)) ->
  supplier_offers (committed w2) = supplier_offers (committed w1)
  /\ suppliers (committed w2) = suppliers (committed w1)
  /\ (forall u2, r2 = inr u2 ->
      forall job, In job (scraper_jobs (committed w2)) -> job_id job = id2 ->
        offers_collected job = 0%nat /\ job_status job = Done).
Proof.
  intros Hp Ht Hrun1 Hrun2 Httl Hlast.
  assert (Hmono : (tick (session w1) <= tick (session w2))%nat).
  { pose proof (run_scraper_job_rising py_hash rng seed_rng rng_uniform rng_gauss
                  rng_choice rng_randint id2 skus sources w1) as H.
    rewrite Hrun2 in H. exact H. }
  set (e := env (session w)) in *. set (t0 := tick (session w)) in *.
  set (T := tick (session w2)) in *.
  set (srcs := match sources with
               | None => map fst SOURCE_PROFILES
               | Some l => l
               end).
  set (P0 := products (committed w)).
  (* the first job *)
  unfold run_scraper_job in Hrun1. apply resolved_then in Hrun1.
  destruct Hrun1 as [[_ [e0 Habs]] | [s1 [job0 [d [_ [_ [Hs1 Htr]]]]]]];
    [discriminate |].
  destruct (started_clean id1 (with_status Running) w s1 Hp Ht Hs1)
    as [He [Hk [Hpend [Hoff [Hsup Hprod]]]]].
  apply transaction_success in Htr.
  destruct Htr as [s2 [cnt [s3 [Hwork [Hfin [Hc Hsess]]]]]].
  match type of Hwork with
  | _ ?s = _ => set (s0 := s) in *
  end.
  assert (Hinv0 : covering_inv e t0 T P0 True (fun _ => False) s0).
  { split; [split; [exact He |] | unfold tidy; now rewrite Hpend].
    intros _. split; [exact I | split; [| contradiction]].
    split; [exact Hk | split; [exact Hprod | now rewrite Hoff]]. }
  pose proof (scraper_work_covers e t0 T P0 Httl py_hash rng seed_rng
                rng_uniform rng_gauss rng_choice rng_randint True skus srcs
                s0 s2 cnt Hinv0 Hwork) as [Hcov _].
  apply scraper_finish_state in Hfin.
  assert (Hcov1 : covering e t0 T P0 True
                    (fun c => exists k, In k skus
                       /\ candidates_of P0 py_hash rng seed_rng rng_uniform
                            rng_gauss rng_choice rng_randint k srcs c)
                    (session w1)).
  { rewrite Hsess. apply covering_flushed; [exact Httl |].
    apply (covering_same e t0 T P0 _ _ (flushed s2));
      try (rewrite Hfin; reflexivity).
    - rewrite Hfin. cbn. lia.
    - apply covering_flushed; [exact Httl | exact Hcov]. }
  assert (Hpend1 : pending (session w1) = []) by (rewrite Hsess; reflexivity).
  assert (Htxn1 : txn (session w1) = committed w1) by (rewrite Hsess, Hc; reflexivity).
  destruct Hcov1 as [He1 Hcov1].
  destruct (Hcov1 Hmono) as [_ [[Ht01 [Hprod1 _]] Hset]].
  assert (Hsettled : forall c,
            (exists k, In k skus
               /\ candidates_of P0 py_hash rng seed_rng rng_uniform
                    rng_gauss rng_choice rng_randint k srcs c) ->
            settled e t0 T (suppliers (committed w1))
              (supplier_offers (committed w1)) c).
  { intros c Hcand. rewrite <- Htxn1. apply covered_settled; auto. }
  (* the second job *)
  unfold run_scraper_job in Hrun2. apply resolved_then in Hrun2.
  destruct Hrun2 as [[Hc2 [e0 ->]] | [s1' [job1 [d' [_ [_ [Hs1' Htr2]]]]]]].
  { rewrite Hc2. split; [reflexivity | split; [reflexivity | discriminate]]. }
  destruct (started_clean id2 (with_status Running) w1 s1' Hpend1 Htxn1 Hs1')
    as [He' [Hk' [Hpend' [Hoff' [Hsup' Hprod']]]]].
  destruct r2 as [e2 | u2].
  - apply transaction_failure in Htr2; [| apply scraper_finish_total].
    destruct Htr2 as [s2' [_ [Hc2 _]]]. rewrite Hc2.
    cbn [supplier_offers suppliers update_job set_scraper_jobs].
    split; [exact Hoff' | split; [exact Hsup' | discriminate]].
  - apply transaction_success in Htr2.
    destruct Htr2 as [s2' [cnt' [s3' [Hwork' [Hfin' [Hc2 Hsess2]]]]]].
    match type of Hwork' with
    | _ ?s = _ => set (s0' := s) in *
    end.
    assert (Hidle0 : idle e t0 T P0 (suppliers (committed w1))
                       (supplier_offers (committed w1)) True 0 s0').
    { split; [congruence |]. intros _.
      split; [exact I | split; [reflexivity | split; [lia |]]].
      split; [exact Hpend' | split; [| split; [exact Hsup' | exact Hoff']]].
      rewrite <- Hprod1, Htxn1. exact Hprod'. }
    pose proof (scraper_work_idle e t0 T P0 py_hash rng seed_rng rng_uniform
                  rng_gauss rng_choice rng_randint _ _ True skus srcs Hsettled
                  s0' s2' cnt' Hidle0 Hwork') as [_ Hidle].
    apply scraper_finish_state in Hfin'.
    assert (Htick : T = S (S (S (tick s2')))).
    { unfold T. rewrite Hsess2, Hfin'. reflexivity. }
    destruct (Hidle ltac:(lia)) as [_ [Hcnt [_ [Hpe [_ [Hsu Ho]]]]]].
    rewrite Hc2, Hfin'. cbn. rewrite Hpe. cbn.
    split; [exact Ho | split; [exact Hsu |]].
    intros _ _ job Hin Hid. rewrite <- Hcnt.
    eapply completed_job; [| exact Hid].
    cbn. exact Hin.
Qed.

(** *** Jobs run on concrete worlds *)

(** Stand-ins for [hash] and [random.Random]: every draw returns the least
    value allowed, so that every candidate names the first supplier. *)
Definition fixed_hash (_ : string) : Z := 0%Z.
Definition fixed_seed (_ : Z) : nat := 0%nat.
Definition lowest_uniform (g : nat) (a b : R) : R * nat := (a, S g).
Definition mean_gauss (g : nat) (mu sigma : R) : R * nat := (mu, S g).
Definition first_choice (g n : nat) : nat * nat := (0%nat, S g).
Definition lowest_randint (g : nat) (a b : Z) : Z * nat := (a, S g).

Definition new_job (id : uuid) : ScraperJob :=
  {| job_id := id; job_status := Pending; offers_collected := 0;
     job_error := None; job_completed_at := None |}.

(** One product, two jobs waiting, no supplier and no offer yet. *)
Definition one_sku_db : Database :=
  {| products := [{| product_id := 1; sku := "SKU-A" |}];
     locations := []; suppliers := []; supplier_offers := [];
     demand_history := []; cost_parameters := [];
     scraper_jobs := [new_job 1; new_job 2];
     forecast_runs := []; forecast_results := []; inventory_policy_runs := [];
     inventory_policy_results := []; optimisation_runs := [];
     optimisation_allocations := [] |}.

(** The same, with an offer of the first supplier captured at time 0. *)
Definition old_offer_db : Database :=
  {| products := [{| product_id := 1; sku := "SKU-A" |}];
     locations := [];
     suppliers :=
       [{| supplier_id := 7; name := "Shenzhen TechParts Co."; rating := 4.5;
           region := "Asia"; country := "CN";
           incoterms_supported := ["FOB"; "CIF"]%string |}];
     supplier_offers :=
       [{| offer_id := 50; so_supplier_id := 7; so_product_id := 1;
           price := 9; currency := "USD"; moq := 100;
           lead_time_days := Some 14%Z; capacity_units := Some 5000%Z;
           captured_at := 0; source := "mock_alibaba"; confidence := 0.75 |}];
     demand_history := []; cost_parameters := [];
     scraper_jobs := [new_job 1; new_job 2];
     forecast_runs := []; forecast_results := []; inventory_policy_runs := [];
     inventory_policy_results := []; optimisation_runs := [];
     optimisation_allocations := [] |}.

Definition one_sku_run (id : uuid) (w : World) : World * result unit :=
  run_scraper_job fixed_hash nat fixed_seed lowest_uniform mean_gauss first_choice
    lowest_randint id ["SKU-A"%string] (Some ["mock_alibaba"%string]) w.

(** The first 28 readings are taken 23 hours after time 0, the later ones
    25 hours after it; the TTL is 24 hours. *)
Definition two_hours_apart : Env :=
  {| clock := fun n => if (n <? 28)%nat then (82800 + Z.of_nat n)%Z
                       else (90000 + Z.of_nat n)%Z;
     query_fault := fun _ => None;
     autoflush := true;
     settings := default_settings |}.


Definition after_first (e : Env) (d : Database) : World :=
  fst (one_sku_run 1 (world_of e d)).

Definition after_second (e : Env) (d : Database) : World :=
  fst (one_sku_run 2 (after_first e d)).

Lemma pair_eta {A B : Type} (p : A * B) (b : B) : snd p = b -> p = (fst p, b).
Proof. destruct p; cbn; congruence. Qed.


(** The first job, 23 hours after the old offer was captured, skips all
    four candidates; the second, two hours later, finds the old offer
    stale and inserts one. *)
Lemma second_job_counterexample :
  snd (one_sku_run 1 (world_of two_hours_apart old_offer_db)) = inr tt
  /\ snd (one_sku_run 2 (after_first two_hours_apart old_offer_db)) = inr tt
  /\ within_ttl two_hours_apart 0
       (tick (session (after_second two_hours_apart old_offer_db)))
  /\ map captured_at
       (supplier_offers (committed (after_first two_hours_apart old_offer_db)))
     = [0%Z]
  /\ map captured_at
       (supplier_offers (committed (after_second two_hours_apart old_offer_db)))
     = [0%Z; 90038%Z]
  /\ map offers_collected
       (scraper_jobs (committed (after_second two_hours_apart old_offer_db)))
     = [0%nat; 1%nat].
Proof.
  split; [vm_compute; reflexivity |].
  split; [vm_compute; reflexivity |].
  split.
  - assert (Hk : tick (session (after_second two_hours_apart old_offer_db))
                 = 56%nat) by (vm_compute; reflexivity).
    rewrite Hk. intros i j Hi Hj. unfold ttl_seconds.
    cbn [clock two_hours_apart settings scraper_ttl_hours default_settings].
    destruct (i <? 28)%nat; destruct (j <? 28)%nat; lia.
  - split; [vm_compute; reflexivity |].
    split; vm_compute; reflexivity.
Qed.

Lemma quiet_within_ttl (T : nat) :
  (Z.of_nat T <= 86400)%Z -> within_ttl quiet_env 0 T.
Proof.
  intros HT i j Hi Hj. unfold ttl_seconds.
  cbn [clock quiet_env settings scraper_ttl_hours default_settings]. lia.
Qed.

Lemma second_job_inserts_nothing_witness :
  supplier_offers (committed (after_second quiet_env one_sku_db))
  = supplier_offers (committed (after_first quiet_env one_sku_db))
  /\ suppliers (committed (after_second quiet_env one_sku_db))
     = suppliers (committed (after_first quiet_env one_sku_db))
  /\ (forall u2, snd (one_sku_run 2 (after_first quiet_env one_sku_db)) = inr u2 ->
      forall job,
        In job (scraper_jobs (committed (after_second quiet_env one_sku_db))) ->
        job_id job = 2%nat ->
        offers_collected job = 0%nat /\ job_status job = Done).
Proof.
  refine (second_job_inserts_nothing fixed_hash nat fixed_seed lowest_uniform
            mean_gauss first_choice lowest_randint 1 2 ["SKU-A"%string]
            (Some ["mock_alibaba"%string]) (world_of quiet_env one_sku_db)
            (after_first quiet_env one_sku_db) (after_second quiet_env one_sku_db)
            tt (snd (one_sku_run 2 (after_first quiet_env one_sku_db)))
            _ _ _ _ _ _).
  - reflexivity.
  - reflexivity.
  - unfold after_first, one_sku_run. apply pair_eta. vm_compute. reflexivity.
  - unfold after_second, after_first, one_sku_run. apply surjective_pairing.
  - apply quiet_within_ttl. vm_compute. intros H. discriminate H.
  - intros o i [].
Defined.


(** What the first job leaves on the empty tables: one offer for the four
    candidates, which all name the same supplier. *)
Lemma one_sku_first_job :
  map pair_of (supplier_offers (committed (after_first quiet_env one_sku_db)))
  = [(1000%nat, 1%nat)]
  /\ map offers_collected (scraper_jobs (committed (after_first quiet_env one_sku_db)))
     = [1%nat; 0%nat].
Proof. split; vm_compute; reflexivity. Qed.

End Scraper.

(** ** Failure of a stage *)
Module Failure.
Import Py Db Orm OrmOps Stage.



End Failure.

(** ** More on the inventory mathematics *)
Module InventoryFacts.
Import Py InventoryMath.
Open Scope R_scope.

(** A value with [n] decimals is its own rounding. *)
Lemma round_decimal (k : Z) (n : nat) : round (IZR k / 10 ^ n) n = IZR k / 10 ^ n.
Proof.
  unfold round. pose proof (pow10_pos n) as Hp.
  replace (IZR k / 10 ^ n * 10 ^ n) with (IZR k) by (field; lra).
  now rewrite round_half_even_IZR.
Qed.

Lemma round_nonpos (x : R) (n : nat) : x <= 0 -> round x n <= 0.
Proof.
  intros H. rewrite <- (round_IZR 0 n). now apply round_mono.
Qed.

Lemma compute_eoq_ge_one (D S H e : R) : compute_eoq D S H = inr e -> 1 <= e.
Proof.
  unfold compute_eoq.
  destruct (Rle_dec H 0); [intros E; inversion E; apply Rmax_l |].
  destruct (Rle_dec D 0); [intros E; inversion E; apply Rmax_l |].
  destruct (math_sqrt _); cbn [rbind]; intros E; inversion E. apply Rmax_l.
Qed.

(** The order quantity is never below 1, and the only failure is the square
    root of a negative number: a negative setup cost with positive demand
    and holding cost. *)
Theorem compute_eoq_at_least_one (D S H : R) :
  (forall e, compute_eoq D S H = inr e -> 1 <= e)
  /\ ((exists e, compute_eoq D S H = inl e) <-> 0 < H /\ 0 < D /\ S < 0).
Proof.
  unfold compute_eoq.
  destruct (Rle_dec H 0) as [HH | HH].
  { split.
    - intros e E. inversion E. apply Rmax_l.
    - split; [intros [e E]; discriminate | lra]. }
  destruct (Rle_dec D 0) as [HD | HD].
  { split.
    - intros e E. inversion E. apply Rmax_l.
    - split; [intros [e E]; discriminate | lra]. }
  assert (Hinv : 0 < / H) by (apply Rinv_0_lt_compat; lra).
  unfold math_sqrt. destruct (Rlt_dec (2 * D * S / H) 0) as [Hneg | Hpos]; cbn [rbind].
  - split; [intros e E; discriminate |].
    split; [intros _ | eauto].
    repeat split; try lra.
    destruct (Rlt_dec S 0) as [HS | HS]; [exact HS |].
    exfalso. apply (Rlt_irrefl 0). eapply Rle_lt_trans; [| exact Hneg].
    apply Rmult_le_pos; [nra | lra].
  - split; [intros e E; inversion E; apply Rmax_l |].
    split; [intros [e E]; discriminate |].
    intros [_ [_ HS]]. exfalso. apply Hpos.
    unfold Rdiv. assert (2 * D * S < 0) by nra. nra.
Qed.

(** The safety stock never fails and is never negative; it is 0 for a lead
    time that is not positive, for a demand without spread, and for a
    quantile that is not positive (a service level of one half or less). *)
Theorem compute_safety_stock_total (norm_ppf : R -> R) (sigma L SL sigma_L : R) :
  exists ss,
    compute_safety_stock norm_ppf sigma L SL sigma_L = inr ss
    /\ 0 <= ss
    /\ (L <= 0 -> ss = 0)
    /\ (sigma = 0 -> ss = 0)
    /\ (norm_ppf SL <= 0 -> ss = 0).
Proof.
  unfold compute_safety_stock.
  destruct (Rle_dec L 0) as [HL | HL].
  { exists 0. repeat split; auto; lra. }
  assert (Hv : 0 <= sigma ^ 2 * L + sigma ^ 2 * sigma_L ^ 2).
  { assert (0 <= sigma ^ 2) by (simpl; nra).
    assert (0 <= sigma_L ^ 2) by (simpl; nra). nra. }
  rewrite math_sqrt_nonneg by exact Hv. cbn [rbind].
  eexists. split; [reflexivity |]. split; [apply Rmax_l |].
  split; [lra |]. split.
  - intros ->. replace (0 ^ 2 * L + 0 ^ 2 * sigma_L ^ 2) with 0 by ring.
    rewrite sqrt_0, Rmult_0_r. change 0 with (IZR 0) at 2.
    rewrite round_IZR. apply Rmax_left. lra.
  - intros Hz. apply Rmax_left. apply round_nonpos.
    pose proof (sqrt_pos (sigma ^ 2 * L + sigma ^ 2 * sigma_L ^ 2)). nra.
Qed.

(** A safety stock is a non-negative number with one decimal. *)
Lemma compute_safety_stock_decimal (norm_ppf : R -> R) (sd L sl sL ss : R) :
  compute_safety_stock norm_ppf sd L sl sL = inr ss ->
  0 <= ss /\ round ss 1 = ss.
Proof.
  unfold compute_safety_stock.
  destruct (Rle_dec L 0).
  - intros E. inversion E. split; [lra |].
    change 0 with (IZR 0). apply round_IZR.
  - destruct (math_sqrt _) as [e | s]; cbn [rbind]; intros E; inversion E.
    split; [apply Rmax_l |].
    unfold Rmax. destruct (Rle_dec _ _).
    + unfold round at 2. apply round_decimal.
    + change 0 with (IZR 0). apply round_IZR.
Qed.

Lemma compute_rop_ge_safety_stock (norm_ppf : R -> R) (mean L sd sl sL ss : R) :
  compute_safety_stock norm_ppf sd L sl sL = inr ss ->
  0 <= mean -> 0 <= L -> ss <= compute_rop mean L ss.
Proof.
  intros Hss Hm HL.
  destruct (compute_safety_stock_decimal _ _ _ _ _ _ Hss) as [H0 Hdec].
  unfold compute_rop. assert (Hx : 0 <= mean * L + ss) by nra.
  rewrite Rmax_right by now apply round_nonneg.
  rewrite <- Hdec at 1. apply round_mono. nra.
Qed.

(** The reorder point is never negative; it is within 0.05 of
    [mean * L + ss] when that is not negative and 0 otherwise; and with a
    safety stock computed by [compute_safety_stock], a demand and a lead
    time that are not negative, it is at least the safety stock. *)
Theorem compute_rop_covers_safety_stock (norm_ppf : R -> R)
  (mean L sd sl sL ss : R) :
  compute_safety_stock norm_ppf sd L sl sL = inr ss ->
  0 <= mean -> 0 <= L ->
  ss <= compute_rop mean L ss
  /\ Rabs (compute_rop mean L ss - (mean * L + ss)) <= 0.05.
Proof.
  intros Hss Hm HL.
  destruct (compute_safety_stock_decimal _ _ _ _ _ _ Hss) as [H0 Hdec].
  unfold compute_rop. assert (Hx : 0 <= mean * L + ss) by nra.
  rewrite Rmax_right by now apply round_nonneg.
  split.
  - rewrite <- Hdec at 1. apply round_mono. nra.
  - pose proof (round_err (mean * L + ss) 1) as He. simpl in He. lra.
Qed.

Lemma compute_rop_covers_safety_stock_witness :
  164.5 <= compute_rop 100 4 164.5
  /\ Rabs (compute_rop 100 4 164.5 - (100 * 4 + 164.5)) <= 0.05.
Proof.
  apply (compute_rop_covers_safety_stock (fun _ => 1.645) 100 4 50 0.95 0 164.5);
    [| lra | lra].
  unfold compute_safety_stock. destruct (Rle_dec 4 0); [lra |].
  rewrite math_sqrt_nonneg by (simpl; lra). cbn [rbind].
  replace (50 ^ 2 * 4 + 50 ^ 2 * 0 ^ 2) with (100 * 100) by ring.
  rewrite sqrt_square by lra.
  rewrite (round_unique _ 1 1645) by (simpl; lra).
  f_equal. simpl. rewrite Rmax_right by lra. lra.
Defined.

(** Whatever its arguments, the reorder point is not negative, and it is 0
    when the lead-time demand plus the safety stock is not positive. *)
Theorem compute_rop_nonneg (mean L ss : R) :
  0 <= compute_rop mean L ss
  /\ (mean * L + ss <= 0 -> compute_rop mean L ss = 0).
Proof.
  unfold compute_rop. split; [apply Rmax_l |].
  intros H. apply Rmax_left. now apply round_nonpos.
Qed.

(** The three costs are rounded separately: the total is within 0.015 of the
    sum of the two parts; all are 0 for an order quantity that is not
    positive, and none is negative for arguments that are not. *)
Theorem annual_inventory_cost_parts (eoq D S H : R) :
  Rabs (total (annual_inventory_cost eoq D S H)
        - (ordering (annual_inventory_cost eoq D S H)
           + holding (annual_inventory_cost eoq D S H))) <= 0.015
  /\ (eoq <= 0 ->
      annual_inventory_cost eoq D S H = {| ordering := 0; holding := 0; total := 0 |})
  /\ (0 < eoq -> 0 <= D -> 0 <= S -> 0 <= H ->
      0 <= ordering (annual_inventory_cost eoq D S H)
      /\ 0 <= holding (annual_inventory_cost eoq D S H)
      /\ 0 <= total (annual_inventory_cost eoq D S H)).
Proof.
  unfold annual_inventory_cost.
  destruct (Rle_dec eoq 0) as [He | He]; cbn [ordering holding total].
  - split; [| split; [reflexivity | intros; lra]].
    replace (0 - (0 + 0)) with 0 by ring. rewrite Rabs_R0. lra.
  - split; [| split; [intros; lra |]].
    + pose proof (round_err (D / eoq * S) 2) as H1.
      pose proof (round_err (eoq / 2 * H) 2) as H2.
      pose proof (round_err (D / eoq * S + eoq / 2 * H) 2) as H3.
      apply Rabs_le_inv in H1, H2, H3. simpl in H1, H2, H3.
      apply Rabs_le. lra.
    + intros Hq HD HS HH.
      assert (0 < / eoq) by now apply Rinv_0_lt_compat.
      assert (0 <= D / eoq * S).
      { unfold Rdiv. apply Rmult_le_pos; [apply Rmult_le_pos; lra | lra]. }
      assert (0 <= eoq / 2 * H) by nra.
      repeat split; apply round_nonneg; lra.
Qed.

End InventoryFacts.

(** ** More on the forecast error metrics *)
Module MetricsFacts.
Import Py ForecastMetrics.
Open Scope R_scope.

(** [smape]: the symmetric percentage error over the periods where actual
    and forecast are not both 0. *)
Definition smape (actual forecast : list R) : result R :=
  (denom <- Forecast.np_add (map Rabs actual) (map Rabs forecast) ;;
   let mask := map nonzero denom in
   if negb (existsb (fun b => b) mask) then inr 0
   else
     if negb (Nat.eqb (length actual) (length mask))
        || negb (Nat.eqb (length forecast) (length mask))
     then inl (IndexError "boolean index did not match indexed array")
     else
       let sel := filter (fun t => nonzero (snd t))
                    (combine (combine actual forecast) denom) in
       inr (np_mean (map (fun t => 2 * Rabs (fst (fst t) - snd (fst t)) / snd t) sel)
            * 100))%result.

Lemma np_mean_between (lo hi : R) (xs : list R) :
  xs <> [] -> Forall (fun x => lo <= x <= hi) xs -> lo <= np_mean xs <= hi.
Proof.
  intros Hne Hall. unfold np_mean.
  assert (Hn : 0 < INR (length xs)).
  { apply lt_0_INR. destruct xs; [contradiction | simpl; lia]. }
  assert (Hs : lo * INR (length xs) <= fsum xs <= hi * INR (length xs)).
  { clear Hne Hn. induction Hall as [| x xs Hx _ IH].
    - simpl. lra.
    - change (length (x :: xs)) with (S (length xs)). rewrite S_INR.
      simpl fsum. lra. }
  assert (Hi : 0 < / INR (length xs)) by now apply Rinv_0_lt_compat.
  unfold Rdiv. split.
  - replace lo with (lo * INR (length xs) * / INR (length xs)) by (field; lra).
    apply Rmult_le_compat_r; lra.
  - replace hi with (hi * INR (length xs) * / INR (length xs)) by (field; lra).
    apply Rmult_le_compat_r; lra.
Qed.

Lemma fsum_abs_nonneg (xs : list R) : 0 <= fsum (map Rabs xs).
Proof.
  apply fsum_nonneg. apply Forall_forall. intros y Hy.
  apply in_map_iff in Hy. destruct Hy as [z [<- _]]. apply Rabs_pos.
Qed.

Lemma abs_error_sum_nonneg (a f : list R) : 0 <= abs_error_sum a f.
Proof.
  unfold abs_error_sum. apply fsum_nonneg. apply Forall_forall. intros y Hy.
  apply in_map_iff in Hy. destruct Hy as [z [<- _]]. apply Rabs_pos.
Qed.

Lemma abs_error_sum_same (a : list R) : abs_error_sum a a = 0.
Proof.
  unfold abs_error_sum. induction a as [| x a IH]; simpl; [reflexivity |].
  rewrite IH. replace (x - x) with 0 by ring. rewrite Rabs_R0. lra.
Qed.

(** [wape] on arrays of equal length returns a number that is not negative,
    and 0 for a perfect forecast; actuals that are all 0 give 0 whatever the
    forecast's length; otherwise arrays of different lengths, none of
    length one, make the subtraction raise. *)
Theorem wape_range (actual forecast : list R) :
  (length actual = length forecast ->
   exists w, wape actual forecast = inr w /\ 0 <= w
             /\ (forecast = actual -> w = 0))
  /\ (fsum (map Rabs actual) <> 0 ->
      length actual <> length forecast ->
      length actual <> 1%nat -> length forecast <> 1%nat ->
      wape actual forecast
      = inl (ValueError "operands could not be broadcast together")).
Proof.
  split.
  - intros Hlen. unfold wape, np_sub.
    destruct (Req_dec_T (fsum (map Rabs actual)) 0) as [Hz | Hz].
    + exists 0. repeat split; auto; lra.
    + rewrite Hlen, Nat.eqb_refl. cbn [rbind]. eexists. split; [reflexivity |].
      rewrite map_map. fold (abs_error_sum actual forecast).
      pose proof (fsum_abs_nonneg actual) as Hp.
      pose proof (abs_error_sum_nonneg actual forecast) as He.
      assert (Hi : 0 < / fsum (map Rabs actual)) by (apply Rinv_0_lt_compat; lra).
      split; [unfold Rdiv; nra |].
      intros ->. rewrite abs_error_sum_same. unfold Rdiv. ring.
  - intros Hz Hlen Ha Hf. unfold wape, np_sub.
    destruct (Req_dec_T _ 0); [contradiction |].
    apply Nat.eqb_neq in Hlen, Ha, Hf. rewrite Hlen, Ha, Hf. reflexivity.
Qed.

Lemma wape_range_witness :
  exists w, wape [100; 200] [110; 180] = inr w /\ 0 <= w
            /\ ([110; 180] = [100; 200] -> w = 0).
Proof. apply (proj1 (wape_range [100; 200] [110; 180])). reflexivity. Defined.

Lemma mask_none (xs : list R) :
  existsb (fun b => b) (map nonzero xs) = false <-> Forall (fun x => x = 0) xs.
Proof.
  induction xs as [| x xs IH]; cbn.
  - split; [constructor | reflexivity].
  - unfold nonzero at 1. destruct (Req_dec_T x 0) as [E | E]; cbn.
    + rewrite IH. split; [now constructor | now inversion 1].
    + split; [discriminate | inversion 1; contradiction].
Qed.

Lemma mask_some {A : Type} (p : A -> bool) (l : list A) :
  existsb (fun b => b) (map p l) = true -> filter p l <> [].
Proof.
  induction l as [| x l IH]; cbn; [discriminate |].
  destruct (p x); cbn; [discriminate | exact IH].
Qed.

Lemma np_mean_zeros (xs : list R) : Forall (fun x => x = 0) xs -> np_mean xs = 0.
Proof.
  intros H. unfold np_mean.
  assert (fsum xs = 0) as -> by (induction H; simpl; lra).
  unfold Rdiv. ring.
Qed.

(** [mape] is 0 when every actual is 0, whatever the forecast; on arrays of
    equal length it returns a number that is not negative, 0 for a perfect
    forecast; with arrays of different lengths and an actual that is not 0
    the boolean indexing raises. *)
Theorem mape_range (actual forecast : list R) :
  (Forall (fun a => a = 0) actual -> mape actual forecast = inr 0)
  /\ (length actual = length forecast ->
      exists m, mape actual forecast = inr m /\ 0 <= m
                /\ (forecast = actual -> m = 0))
  /\ (length actual <> length forecast ->
      ~ Forall (fun a => a = 0) actual ->
      mape actual forecast
      = inl (IndexError "boolean index did not match indexed array")).
Proof.
  unfold mape. split; [| split].
  - intros H. apply mask_none in H. now rewrite H.
  - intros Hlen. destruct (existsb _ _) eqn:Em; cbn [negb].
    + rewrite Hlen, Nat.eqb_refl. cbn [negb]. eexists. split; [reflexivity |].
      split.
      * apply Rmult_le_pos; [| lra]. apply np_mean_nonneg.
        apply Forall_forall. intros y Hy. apply in_map_iff in Hy.
        destruct Hy as [z [<- _]]. apply Rabs_pos.
      * intros ->. rewrite np_mean_zeros; [ring |].
        apply Forall_forall. intros y Hy. apply in_map_iff in Hy.
        destruct Hy as [[a b] [<- Hin]]. apply filter_In in Hin.
        destruct Hin as [Hin _]. cbn [fst snd].
        assert (a = b) as ->.
        { clear -Hin. induction actual as [| x l IH]; cbn in Hin; [contradiction |].
          destruct Hin as [E | Hin]; [now inversion E | auto]. }
        replace ((b - b) / b) with 0 by (unfold Rdiv; ring). apply Rabs_R0.
    + exists 0. repeat split; auto; lra.
  - intros Hlen Hnz. destruct (existsb _ _) eqn:Em; cbn [negb].
    + apply Nat.eqb_neq in Hlen. now rewrite Hlen.
    + apply mask_none in Em. contradiction.
Qed.

Lemma smape_terms (a f : list R) :
  length a = length f ->
  Forall (fun t => snd t = Rabs (fst (fst t)) + Rabs (snd (fst t)))
    (combine (combine a f)
       (map (fun p => fst p + snd p) (combine (map Rabs a) (map Rabs f))))
  /\ map snd (combine (combine a f)
                (map (fun p => fst p + snd p) (combine (map Rabs a) (map Rabs f))))
     = map (fun p => fst p + snd p) (combine (map Rabs a) (map Rabs f)).
Proof.
  revert f. induction a as [| x a IH]; intros [| y f] Hlen; try discriminate.
  - split; [constructor | reflexivity].
  - cbn in Hlen. injection Hlen as Hlen. destruct (IH f Hlen) as [H1 H2].
    cbn. split; [constructor; [reflexivity | exact H1] | now rewrite H2].
Qed.

(** On arrays of equal length [smape] returns a percentage between 0 and
    200, and 0 for a perfect forecast. *)
Theorem smape_range (actual forecast : list R) :
  length actual = length forecast ->
  exists v, smape actual forecast = inr v /\ 0 <= v <= 200
            /\ (forecast = actual -> v = 0).
Proof.
  intros Hlen. unfold smape, Forecast.np_add.
  rewrite !length_map, Hlen, Nat.eqb_refl. cbn [rbind].
  destruct (smape_terms actual forecast Hlen) as [Hterms Hsnd].
  set (denom := map (fun p => fst p + snd p)
                  (combine (map Rabs actual) (map Rabs forecast))) in *.
  destruct (existsb _ _) eqn:Em; cbn [negb].
  2:{ exists 0. repeat split; auto; lra. }
  assert (Hl : length denom = length forecast).
  { unfold denom. rewrite length_map, length_combine, !length_map, Hlen.
    apply Nat.min_id. }
  rewrite !length_map, Hl, ?Hlen, Nat.eqb_refl. cbn [negb orb].
  eexists. split; [reflexivity |].
  set (sel := filter (fun t => nonzero (snd t)) (combine (combine actual forecast) denom)).
  assert (Hne : sel <> []).
  { unfold sel. apply mask_some. rewrite <- map_map, Hsnd. exact Em. }
  assert (Hall : Forall (fun t : R * R * R =>
                    0 <= 2 * Rabs (fst (fst t) - snd (fst t)) / snd t <= 2) sel).
  { apply Forall_forall. intros [[a f] d] Hin. apply filter_In in Hin.
    destruct Hin as [Hin Hnz]. rewrite Forall_forall in Hterms.
    specialize (Hterms _ Hin). cbn [fst snd] in *.
    unfold nonzero in Hnz. destruct (Req_dec_T d 0) as [| Hd]; [discriminate |].
    pose proof (Rabs_pos a). pose proof (Rabs_pos f).
    pose proof (Rabs_pos (a - f)) as Hp.
    assert (Htri : Rabs (a - f) <= Rabs a + Rabs f).
    { unfold Rminus. eapply Rle_trans; [apply Rabs_triang |].
      rewrite Rabs_Ropp. lra. }
    assert (Hd0 : 0 < d) by lra.
    assert (Hi : 0 < / d) by now apply Rinv_0_lt_compat.
    unfold Rdiv. split; [nra |].
    replace 2 with (2 * d * / d) at 2 by (field; lra).
    apply Rmult_le_compat_r; lra. }
  split.
  - assert (Hm : 0 <= np_mean (map (fun t : R * R * R =>
                     2 * Rabs (fst (fst t) - snd (fst t)) / snd t) sel) <= 2).
    { apply np_mean_between.
      - destruct sel; [contradiction | discriminate].
      - apply Forall_forall. intros y Hy. apply in_map_iff in Hy.
        destruct Hy as [t [<- Ht]]. rewrite Forall_forall in Hall. now apply Hall. }
    lra.
  - intros Heq. rewrite np_mean_zeros; [ring |].
    apply Forall_forall. intros y Hy. apply in_map_iff in Hy.
    destruct Hy as [[[a f] d] [<- Hin]]. unfold sel in Hin.
    apply filter_In in Hin. destruct Hin as [Hin _]. cbn [fst snd].
    assert (a = f) as ->.
    { apply in_combine_l in Hin. subst forecast. clear -Hin.
      induction actual as [| x l IH]; cbn in Hin; [contradiction |].
      destruct Hin as [E | Hin]; [now inversion E | auto]. }
    replace (f - f) with 0 by ring. rewrite Rabs_R0. unfold Rdiv. ring.
Qed.

Lemma smape_range_witness :
  exists v, smape [100; 0] [50; 0] = inr v /\ 0 <= v <= 200
            /\ ([50; 0] = [100; 0] -> v = 0).
Proof. apply (smape_range [100; 0] [50; 0]). reflexivity. Defined.

End MetricsFacts.

(** ** [ORDER BY ... LIMIT n] *)
Module Sorting.
Import Py Db Stage.

Section OrderBy.

Context {A : Type}.
Variable leb : A -> A -> bool.

Hypothesis leb_total : forall a b, leb a b = true \/ leb b a = true.
Hypothesis leb_trans :
  forall a b c, leb a b = true -> leb b c = true -> leb a c = true.

Definition le (a b : A) : Prop := leb a b = true.

Lemma insert_by_permutation (x : A) (l : list A) :
  Permutation (insert_by leb x l) (x :: l).
Proof.
  induction l as [| y l IH]; cbn; [reflexivity |].
  destruct (leb x y); [reflexivity |].
  rewrite IH. apply perm_swap.
Qed.

Lemma order_by_permutation (l : list A) : Permutation (order_by leb l) l.
Proof.
  induction l as [| x l IH]; cbn; [reflexivity |].
  rewrite insert_by_permutation. now constructor.
Qed.

Lemma insert_by_sorted (x : A) (l : list A) :
  StronglySorted le l -> StronglySorted le (insert_by leb x l).
Proof.
  induction 1 as [| y l Hs IH Hall]; cbn.
  - repeat constructor.
  - destruct (leb x y) eqn:E.
    + constructor; [now constructor |].
      constructor; [exact E |].
      eapply Forall_impl; [| exact Hall]. intros z Hz. now apply (leb_trans x y z).
    + constructor; [exact IH |].
      assert (Hyx : le y x) by (destruct (leb_total x y); [congruence | assumption]).
      apply Forall_forall. intros z Hz.
      apply (Permutation_in _ (insert_by_permutation x l)) in Hz.
      destruct Hz as [<- | Hz]; [exact Hyx |].
      rewrite Forall_forall in Hall. now apply Hall.
Qed.

Lemma order_by_sorted (l : list A) : StronglySorted le (order_by leb l).
Proof.
  induction l as [| x l IH]; cbn; [constructor | now apply insert_by_sorted].
Qed.

Lemma sorted_firstn (n : nat) (l : list A) :
  StronglySorted le l -> StronglySorted le (firstn n l).
Proof.
  intros H. revert n. induction H as [| x l Hs IH Hall]; intros [| n]; cbn;
    try constructor; auto.
  apply Forall_forall. intros y Hy. rewrite Forall_forall in Hall.
  apply Hall. rewrite <- (firstn_skipn n l). apply in_or_app. now left.
Qed.

Lemma sorted_firstn_skipn (n : nat) (l : list A) (a b : A) :
  StronglySorted le l -> In a (firstn n l) -> In b (skipn n l) -> le a b.
Proof.
  intros H. revert n. induction H as [| x l Hs IH Hall]; intros [| n]; cbn;
    try contradiction.
  intros [<- | Ha] Hb.
  - rewrite Forall_forall in Hall. apply Hall.
    rewrite <- (firstn_skipn n l). apply in_or_app. now right.
  - now apply (IH n).
Qed.

(** The first [n] of the sorted rows: sorted, and no later row comes before
    one of them. *)
Lemma top_n (n : nat) (l : list A) :
  StronglySorted le (firstn n (order_by leb l))
  /\ Permutation (firstn n (order_by leb l) ++ skipn n (order_by leb l)) l
  /\ forall a b, In a (firstn n (order_by leb l)) ->
                 In b (skipn n (order_by leb l)) -> le a b.
Proof.
  split; [apply sorted_firstn, order_by_sorted | split].
  - rewrite firstn_skipn. apply order_by_permutation.
  - intros a b. apply sorted_firstn_skipn, order_by_sorted.
Qed.

(** The first of the sorted rows is a least one. *)
Lemma first_order_by :
  forall l,
    match first (order_by leb l) with
    | Some x => In x l /\ forall y, In y l -> le x y
    | None => l = []
    end.
Proof.
  intros l. pose proof (order_by_sorted l) as Hs.
  pose proof (order_by_permutation l) as Hp.
  destruct (order_by leb l) as [| x rest]; cbn.
  - now apply Permutation_nil in Hp.
  - split; [apply (Permutation_in _ Hp); now left |].
    intros y Hy. apply (Permutation_in _ (Permutation_sym Hp)) in Hy.
    inversion Hs as [| ? ? _ Hall]; subst. destruct Hy as [<- | Hy].
    + destruct (leb_total x x); assumption.
    + rewrite Forall_forall in Hall. now apply Hall.
Qed.

End OrderBy.

Lemma sorted_impl {A : Type} (P Q : A -> A -> Prop) (l : list A) :
  (forall a b, P a b -> Q a b) -> StronglySorted P l -> StronglySorted Q l.
Proof.
  intros H. induction 1 as [| x l Hs IH Hall]; constructor; [exact IH |].
  eapply Forall_impl; [| exact Hall]. intros b. apply H.
Qed.

(** Ordering by a real-valued column. *)
Lemma Rleb_le (x y : R) : Rleb x y = true <-> (x <= y)%R.
Proof. unfold Rleb. destruct (Rle_dec x y); split; auto; discriminate. Qed.

Lemma by_column_total {A : Type} (f : A -> R) (a b : A) :
  Rleb (f a) (f b) = true \/ Rleb (f b) (f a) = true.
Proof. rewrite !Rleb_le. lra. Qed.

Lemma by_column_trans {A : Type} (f : A -> R) (a b c : A) :
  Rleb (f a) (f b) = true -> Rleb (f b) (f c) = true -> Rleb (f a) (f c) = true.
Proof. rewrite !Rleb_le. lra. Qed.

End Sorting.

(** ** Offers, cheapest first *)
Module OfferQueries.
Import Py Db Orm OrmOps Stage Sorting.
Open Scope st_scope.

(** [run_inventory_policy] takes the lead time from the cheapest offer of
    the product, whatever its age: an offer of the product no other offer of
    which has a lower price; there is none only if the product has no offer. *)
Theorem cheapest_offer_is_cheapest (product : uuid) (d : Database) :
  match Inventory.cheapest_offer product d with
  | Some o =>
      In o (supplier_offers d) /\ so_product_id o = product
      /\ forall o', In o' (supplier_offers d) -> so_product_id o' = product ->
                    (price o <= price o')%R
  | None =>
      forall o', In o' (supplier_offers d) -> so_product_id o' <> product
  end.
Proof.
  unfold Inventory.cheapest_offer.
  pose proof (first_order_by (fun a b => Rleb (price a) (price b))
                (by_column_total price) (by_column_trans price)
                (filter (fun o => Nat.eqb (so_product_id o) product)
                   (supplier_offers d))) as H.
  destruct (first _) as [o |].
  - destruct H as [Hin Hmin]. apply filter_In in Hin. destruct Hin as [Hin Hp].
    apply Nat.eqb_eq in Hp. repeat split; auto.
    intros o' Hin' Hp'. apply Rleb_le. apply Hmin. apply filter_In.
    split; [exact Hin' | now apply Nat.eqb_eq].
  - intros o' Hin' Hp'.
    assert (Hf : In o' (filter (fun o => Nat.eqb (so_product_id o) product)
                          (supplier_offers d))).
    { apply filter_In. split; [exact Hin' | now apply Nat.eqb_eq]. }
    rewrite H in Hf. contradiction.
Qed.

(** The offers of a product with their suppliers (the inner join and the
    filter of [_load_offers]). *)
Definition joined_offers (pid : uuid) (d : Database) : list (SupplierOffer * Supplier) :=
  filter (fun os => Nat.eqb (so_product_id (fst os)) pid)
    (flat_map
       (fun o => map (fun s => (o, s))
                   (filter (fun s => Nat.eqb (supplier_id s) (so_supplier_id o))
                      (suppliers d)))
       (supplier_offers d)).

Lemma in_joined_offers (pid : uuid) (d : Database) (os : SupplierOffer * Supplier) :
  In os (joined_offers pid d)
  <-> In (fst os) (supplier_offers d) /\ In (snd os) (suppliers d)
      /\ supplier_id (snd os) = so_supplier_id (fst os)
      /\ so_product_id (fst os) = pid.
Proof.
  unfold joined_offers. rewrite filter_In, in_flat_map, Nat.eqb_eq. split.
  - intros [[o [Ho Hin]] Hp]. apply in_map_iff in Hin.
    destruct Hin as [s [<- Hs]]. apply filter_In in Hs. destruct Hs as [Hs He].
    apply Nat.eqb_eq in He. cbn in *. auto.
  - intros [Ho [Hs [He Hp]]]. split; [| exact Hp].
    exists (fst os). split; [exact Ho |]. apply in_map_iff. exists (snd os).
    split; [now destruct os |]. apply filter_In. split; [exact Hs |].
    now apply Nat.eqb_eq.
Qed.

(** [_load_offers] reads, for a product, at most [max_per_product] offers,
    each with the supplier it names, by ascending price; the offers left
    out are none of them cheaper than one that is read.  An offer whose
    supplier row is missing is not read. *)
Theorem offers_of_cheapest (pid : uuid) (n : nat) (d : Database) :
  (length (Optimizer.offers_of pid n d) <= n)%nat
  /\ StronglySorted (fun a b => (price (fst a) <= price (fst b))%R)
       (Optimizer.offers_of pid n d)
  /\ (forall os, In os (Optimizer.offers_of pid n d) ->
        In (fst os) (supplier_offers d) /\ In (snd os) (suppliers d)
        /\ supplier_id (snd os) = so_supplier_id (fst os)
        /\ so_product_id (fst os) = pid)
  /\ exists rest,
       Permutation (Optimizer.offers_of pid n d ++ rest) (joined_offers pid d)
       /\ forall a b, In a (Optimizer.offers_of pid n d) -> In b rest ->
                      (price (fst a) <= price (fst b))%R.
Proof.
  unfold Optimizer.offers_of. fold (joined_offers pid d).
  set (leb := fun a b : SupplierOffer * Supplier => Rleb (price (fst a)) (price (fst b))).
  destruct (top_n leb (by_column_total (fun os => price (fst os)))
              (by_column_trans (fun os => price (fst os))) n (joined_offers pid d))
    as [Hs [Hp Hle]].
  split; [apply firstn_le_length | split; [| split]].
  - eapply sorted_impl; [| exact Hs].
    intros a b Hab. now apply Rleb_le.
  - intros os Hin. apply in_joined_offers.
    apply (Permutation_in _ Hp). apply in_or_app. now left.
  - exists (skipn n (order_by leb (joined_offers pid d))). split; [exact Hp |].
    intros a b Ha Hb. apply Rleb_le. now apply Hle.
Qed.

End OfferQueries.

(** ** More on the scraper ([agents/scraper/agent.py]) *)
Module ScraperFacts.
Import Py Db Orm OrmOps Stage Sorting Scraper.
Open Scope st_scope.

(** *** The synthetic candidates *)

Section Simulation.

Variable py_hash : string -> Z.
Variable rng : Type.
Variable seed_rng : Z -> rng.
Variable rng_uniform : rng -> R -> R -> R * rng.
Variable rng_gauss : rng -> R -> R -> R * rng.
Variable rng_choice : rng -> nat -> nat * rng.
Variable rng_randint : rng -> Z -> Z -> Z * rng.

(** [SOURCE_PROFILES.get(source, SOURCE_PROFILES["mock_alibaba"])]. *)
Definition profile_of (source : string) : Profile :=
  match dict_get String.eqb source SOURCE_PROFILES with
  | Some p => p
  | None => mock_alibaba
  end.

(** What holds of every candidate, whatever the generator draws. *)
Definition well_formed (sku source : string) (raw : RawOffer) : Prop :=
  raw_sku raw = sku /\ raw_source raw = source /\ raw_currency raw = "USD"%string
  /\ (1 <= raw_price raw)%R /\ (raw_rating raw <= 5)%R.

(** What holds besides when [rng.choice] picks an index of the sequence. *)
Definition well_chosen (source : string) (raw : RawOffer) : Prop :=
  In (raw_supplier_name raw) SUPPLIER_NAMES
  /\ In (raw_moq raw) (moq_options (profile_of source)).

Lemma simulate_offer_well_formed (sku source : string) (profile : Profile)
  (base_price : R) (g : rng) :
  well_formed sku source
    (fst (simulate_offer rng rng_uniform rng_gauss rng_choice rng_randint
            sku source profile base_price g)).
Proof.
  unfold simulate_offer.
  destruct (rng_uniform g _ _) as [factor g1].
  destruct (rng_gauss g1 _ _) as [noise g2].
  destruct (rng_uniform g2 _ _) as [rating0 g3].
  destruct (rng_choice g3 _) as [moq_i g4].
  destruct (rng_randint g4 _ _) as [lead_time g5].
  destruct (rng_uniform g5 _ _) as [confidence g6].
  destruct (rng_uniform g6 _ _) as [ship0 g7].
  destruct (rng_randint g7 _ _) as [capacity g8].
  destruct (rng_choice g8 _) as [name_i g9].
  cbn [fst]. unfold well_formed.
  cbn [raw_sku raw_source raw_currency raw_price raw_rating].
  repeat split; [apply Rmax_l |].
  replace 5%R with (round 5 1) at 2 by (change 5%R with (IZR 5); apply round_IZR).
  apply round_mono, Rmin_l.
Qed.

Lemma simulate_offer_well_chosen (sku source : string) (profile : Profile)
  (base_price : R) (g : rng) :
  (forall g n, (0 < n)%nat -> (fst (rng_choice g n) < n)%nat) ->
  moq_options profile <> [] ->
  In (raw_supplier_name
        (fst (simulate_offer rng rng_uniform rng_gauss rng_choice rng_randint
                sku source profile base_price g))) SUPPLIER_NAMES
  /\ In (raw_moq
           (fst (simulate_offer rng rng_uniform rng_gauss rng_choice rng_randint
                   sku source profile base_price g))) (moq_options profile).
Proof.
  intros Hchoice Hne. unfold simulate_offer.
  destruct (rng_uniform g _ _) as [factor g1].
  destruct (rng_gauss g1 _ _) as [noise g2].
  destruct (rng_uniform g2 _ _) as [rating0 g3].
  pose proof (Hchoice g3 (length (moq_options profile))) as Hm.
  destruct (rng_choice g3 _) as [moq_i g4].
  destruct (rng_randint g4 _ _) as [lead_time g5].
  destruct (rng_uniform g5 _ _) as [confidence g6].
  destruct (rng_uniform g6 _ _) as [ship0 g7].
  destruct (rng_randint g7 _ _) as [capacity g8].
  pose proof (Hchoice g8 (length SUPPLIER_NAMES)) as Hn.
  destruct (rng_choice g8 _) as [name_i g9].
  cbn [fst raw_supplier_name raw_moq] in *. split.
  - apply nth_In. apply Hn. cbn. lia.
  - apply nth_In. apply Hm. destruct (moq_options profile); [contradiction | cbn; lia].
Qed.

Lemma simulate_loop_all (P : RawOffer -> Prop) (sku source : string)
  (profile : Profile) (base_price : R) (n : nat) (g : rng) :
  (forall g, P (fst (simulate_offer rng rng_uniform rng_gauss rng_choice
                       rng_randint sku source profile base_price g))) ->
  length (simulate_loop rng rng_uniform rng_gauss rng_choice rng_randint
            sku source profile base_price n g) = n
  /\ Forall P (simulate_loop rng rng_uniform rng_gauss rng_choice rng_randint
                 sku source profile base_price n g).
Proof.
  intros HP. revert g. induction n as [| n IH]; intros g; cbn [simulate_loop].
  - split; [reflexivity | constructor].
  - specialize (HP g).
    destruct (simulate_offer _ _ _ _ _ _ _ _ _ g) as [offer g'].
    destruct (IH g') as [Hl Hall]. cbn [length]. split; [now rewrite Hl |].
    constructor; assumption.
Qed.

Lemma profile_options (source : string) : moq_options (profile_of source) <> [].
Proof.
  unfold profile_of, dict_get, SOURCE_PROFILES. cbn [find fst snd].
  destruct (String.eqb source "mock_alibaba"); [cbn; discriminate |].
  destruct (String.eqb source "mock_globalsources"); [cbn; discriminate |].
  destruct (String.eqb source "mock_made_in_china"); cbn; discriminate.
Qed.

(** [_simulate_offers_for_sku] returns [n_suppliers] candidates, each for
    the SKU and source asked for, in USD, with a price of at least 1 and a
    rating of at most 5; when [rng.choice] picks an element of its sequence,
    each names one of the fifteen suppliers and an order minimum of the
    source's profile (the profile of [mock_alibaba] for an unknown source). *)
Theorem simulated_offers_shape (sku source : string) (n : nat) :
  length (_simulate_offers_for_sku py_hash rng seed_rng rng_uniform rng_gauss
            rng_choice rng_randint sku source n) = n
  /\ Forall (well_formed sku source)
       (_simulate_offers_for_sku py_hash rng seed_rng rng_uniform rng_gauss
          rng_choice rng_randint sku source n)
  /\ ((forall g m, (0 < m)%nat -> (fst (rng_choice g m) < m)%nat) ->
      Forall (well_chosen source)
        (_simulate_offers_for_sku py_hash rng seed_rng rng_uniform rng_gauss
           rng_choice rng_randint sku source n)).
Proof.
  unfold _simulate_offers_for_sku. fold (profile_of source).
  split; [| split].
  - apply (simulate_loop_all (fun _ => True)). auto.
  - apply (simulate_loop_all (well_formed sku source)).
    intros g. apply simulate_offer_well_formed.
  - intros Hchoice. apply (simulate_loop_all (well_chosen source)).
    intros g. apply simulate_offer_well_chosen; [exact Hchoice |].
    apply profile_options.
Qed.

End Simulation.

(** *** The best offers of a product *)

(** An entry of the list [get_best_offers_for_product] returns ([captured_at]
    is handed over in ISO format). *)
Record BestOffer : Type := {
  bo_offer_id : uuid;
  bo_supplier_id : uuid;
  bo_supplier_name : string;
  bo_supplier_rating : R;
  bo_price : R;
  bo_currency : string;
  bo_moq : Z;
  bo_lead_time_days : option Z;
  bo_capacity_units : option Z;
  bo_confidence : R;
  bo_source : string;
  bo_captured_at : datetime }.

Definition best_offer (os : SupplierOffer * Supplier) : BestOffer :=
  {| bo_offer_id := offer_id (fst os);
     bo_supplier_id := supplier_id (snd os);
     bo_supplier_name := name (snd os);
     bo_supplier_rating := rating (snd os);
     bo_price := price (fst os);
     bo_currency := currency (fst os);
     bo_moq := moq (fst os);
     bo_lead_time_days := lead_time_days (fst os);
     bo_capacity_units := capacity_units (fst os);
     bo_confidence := confidence (fst os);
     bo_source := source (fst os);
     bo_captured_at := captured_at (fst os) |}.

(** The offers of the product captured at [cutoff] or later, with their
    suppliers. *)
Definition recent_offers (product : uuid) (cutoff : datetime) (d : Database)
  : list (SupplierOffer * Supplier) :=
  filter (fun os => Nat.eqb (so_product_id (fst os)) product
                    && Z.leb cutoff (captured_at (fst os)))
    (flat_map
       (fun o => map (fun s => (o, s))
                   (filter (fun s => Nat.eqb (supplier_id s) (so_supplier_id o))
                      (suppliers d)))
       (supplier_offers d)).

Definition get_best_offers_for_product (product : uuid) (top_n : nat)
  (max_age_hours : Z) : ST Session (list BestOffer) :=
  now <- utcnow ;;
  let cutoff := (now - 3600 * max_age_hours)%Z in
  offers <- db_query (fun d =>
              firstn top_n
                (order_by (fun a b => Rleb (price (fst a)) (price (fst b)))
                   (recent_offers product cutoff d))) ;;
  ret (map best_offer offers).

Lemma in_recent_offers (product : uuid) (cutoff : datetime) (d : Database)
  (os : SupplierOffer * Supplier) :
  In os (recent_offers product cutoff d)
  <-> In (fst os) (supplier_offers d) /\ In (snd os) (suppliers d)
      /\ supplier_id (snd os) = so_supplier_id (fst os)
      /\ so_product_id (fst os) = product
      /\ (cutoff <= captured_at (fst os))%Z.
Proof.
  unfold recent_offers.
  rewrite filter_In, in_flat_map, andb_true_iff, Nat.eqb_eq, Z.leb_le. split.
  - intros [[o [Ho Hin]] [Hp Hc]]. apply in_map_iff in Hin.
    destruct Hin as [s [<- Hs]]. apply filter_In in Hs. destruct Hs as [Hs He].
    apply Nat.eqb_eq in He. cbn in *. auto.
  - intros [Ho [Hs [He [Hp Hc]]]]. split; [| auto].
    exists (fst os). split; [exact Ho |]. apply in_map_iff. exists (snd os).
    split; [now destruct os |]. apply filter_In. split; [exact Hs |].
    now apply Nat.eqb_eq.
Qed.

Lemma settle_clean (s : Session) :
  pending s = [] ->
  txn (settle s) = txn s /\ pending (settle s) = [] /\ env (settle s) = env s.
Proof.
  intros Hp. destruct (settle_cases s) as [-> | ->]; [auto |].
  cbn. rewrite Hp. auto.
Qed.

Lemma sorted_map {A B : Type} (f : A -> B) (P : B -> B -> Prop) (l : list A) :
  StronglySorted (fun a b => P (f a) (f b)) l -> StronglySorted P (map f l).
Proof.
  induction 1 as [| x l Hs IH Hall]; cbn; constructor; [exact IH |].
  apply Forall_forall. intros y Hy. apply in_map_iff in Hy.
  destruct Hy as [z [<- Hz]]. rewrite Forall_forall in Hall. now apply Hall.
Qed.

(** [get_best_offers_for_product] writes nothing and returns at most
    [top_n] entries by ascending price, each an offer of the product
    captured within [max_age_hours] of the call, together with its
    supplier; an offer of that kind that is not returned is no cheaper than
    any entry returned. *)
Theorem best_offers_cheapest_recent (product : uuid) (top_n : nat)
  (max_age_hours : Z) (s s' : Session) (result : list BestOffer) :
  pending s = [] ->
  get_best_offers_for_product product top_n max_age_hours s = (s', inr result) ->
  txn s' = txn s /\ pending s' = []
  /\ (length result <= top_n)%nat
  /\ StronglySorted (fun a b => (bo_price a <= bo_price b)%R) result
  /\ (forall b, In b result ->
      exists o sup,
        b = best_offer (o, sup)
        /\ In o (supplier_offers (txn s)) /\ In sup (suppliers (txn s))
        /\ supplier_id sup = so_supplier_id o /\ so_product_id o = product
        /\ (clock (env s) (tick s) - 3600 * max_age_hours <= captured_at o)%Z)
  /\ (forall o sup,
        In o (supplier_offers (txn s)) -> In sup (suppliers (txn s)) ->
        supplier_id sup = so_supplier_id o -> so_product_id o = product ->
        (clock (env s) (tick s) - 3600 * max_age_hours <= captured_at o)%Z ->
        In (best_offer (o, sup)) result
        \/ forall b, In b result -> (bo_price b <= price o)%R).
Proof.
  intros Hp E. unfold get_best_offers_for_product, bind, utcnow in E.
  cbn -[db_query Z.mul Z.sub] in E.
  destruct (db_query _ (advance s)) as [sq [ex | rows]] eqn:Eq; [discriminate |].
  apply db_query_returns in Eq. destruct Eq as [-> Hrows].
  inversion E; subst s' result; clear E.
  destruct (settle_clean (advance s) Hp) as [Ht [Hpe _]].
  rewrite Ht in Hrows. cbn [txn advance] in Hrows.
  set (cutoff := (clock (env s) (tick s) - 3600 * max_age_hours)%Z) in *.
  set (leb := fun a b : SupplierOffer * Supplier => Rleb (price (fst a)) (price (fst b))) in *.
  destruct (Sorting.top_n leb (by_column_total (fun os => price (fst os)))
              (by_column_trans (fun os => price (fst os))) top_n
              (recent_offers product cutoff (txn s))) as [Hs [Hperm Hle]].
  rewrite <- Hrows in Hs, Hperm, Hle.
  split; [exact Ht | split; [exact Hpe |]].
  split; [rewrite length_map, Hrows; apply firstn_le_length |].
  split; [| split].
  - apply sorted_map. eapply sorted_impl; [| exact Hs].
    intros a b Hab. now apply Rleb_le.
  - intros b Hb. apply in_map_iff in Hb. destruct Hb as [[o sup] [<- Hin]].
    exists o, sup. split; [reflexivity |].
    assert (Hr : In (o, sup) (recent_offers product cutoff (txn s))).
    { apply (Permutation_in _ Hperm). apply in_or_app. now left. }
    apply in_recent_offers in Hr. cbn [fst snd] in Hr. tauto.
  - intros o sup Ho Hsup Hid Hprod Hrec.
    assert (Hr : In (o, sup) (recent_offers product cutoff (txn s)))
      by (apply in_recent_offers; cbn [fst snd]; auto).
    apply (Permutation_in _ (Permutation_sym Hperm)) in Hr.
    apply in_app_or in Hr. destruct Hr as [Hr | Hr].
    + left. now apply in_map.
    + right. intros b Hb. apply in_map_iff in Hb. destruct Hb as [a [<- Ha]].
      cbn [bo_price best_offer]. apply Rleb_le. apply (Hle a (o, sup) Ha Hr).
Qed.

(** The entries returned for product 1 on the tables with one old offer. *)
Definition old_offer_entries : list BestOffer :=
  match snd (get_best_offers_for_product 1 5 48
               (session (world_of quiet_env old_offer_db))) with
  | inr l => l
  | inl _ => []
  end.

Lemma best_offers_cheapest_recent_witness :
  txn (fst (get_best_offers_for_product 1 5 48
              (session (world_of quiet_env old_offer_db))))
  = txn (session (world_of quiet_env old_offer_db))
  /\ pending (fst (get_best_offers_for_product 1 5 48
                     (session (world_of quiet_env old_offer_db)))) = []
  /\ (length old_offer_entries <= 5)%nat
  /\ StronglySorted (fun a b => (bo_price a <= bo_price b)%R) old_offer_entries
  /\ (forall b, In b old_offer_entries ->
      exists o sup,
        b = best_offer (o, sup)
        /\ In o (supplier_offers (txn (session (world_of quiet_env old_offer_db))))
        /\ In sup (suppliers (txn (session (world_of quiet_env old_offer_db))))
        /\ supplier_id sup = so_supplier_id o /\ so_product_id o = 1%nat
        /\ (clock (env (session (world_of quiet_env old_offer_db)))
              (tick (session (world_of quiet_env old_offer_db))) - 3600 * 48
            <= captured_at o)%Z)
  /\ (forall o sup,
        In o (supplier_offers (txn (session (world_of quiet_env old_offer_db)))) ->
        In sup (suppliers (txn (session (world_of quiet_env old_offer_db)))) ->
        supplier_id sup = so_supplier_id o -> so_product_id o = 1%nat ->
        (clock (env (session (world_of quiet_env old_offer_db)))
           (tick (session (world_of quiet_env old_offer_db))) - 3600 * 48
         <= captured_at o)%Z ->
        In (best_offer (o, sup)) old_offer_entries
        \/ forall b, In b old_offer_entries -> (bo_price b <= price o)%R).
Proof.
  refine (best_offers_cheapest_recent 1 5 48
            (session (world_of quiet_env old_offer_db))
            (fst (get_best_offers_for_product 1 5 48
                    (session (world_of quiet_env old_offer_db))))
            old_offer_entries _ _).
  - reflexivity.
  - unfold old_offer_entries. apply pair_eta. vm_compute. reflexivity.
Defined.

(** *** Suppliers are created once *)

Section Names.

Variable py_hash : string -> Z.
Variable rng : Type.
Variable seed_rng : Z -> rng.
Variable rng_uniform : rng -> R -> R -> R * rng.
Variable rng_gauss : rng -> R -> R -> R * rng.
Variable rng_choice : rng -> nat -> nat * rng.
Variable rng_randint : rng -> Z -> Z -> Z * rng.

Variable base : list Supplier.

(** The invariant of a job: no supplier is pending, the suppliers' names
    are distinct, and the suppliers found at the start are still there,
    first and unchanged. *)
Definition names_inv (s : Session) : Prop :=
  tidy s
  /\ NoDup (map name (suppliers (txn s)))
  /\ exists new, suppliers (txn s) = base ++ new.

Lemma names_inv_same (s s' : Session) :
  suppliers (txn s') = suppliers (txn s) -> pending s' = pending s ->
  names_inv s -> names_inv s'.
Proof.
  intros Hs Hp [Ht [Hn Hb]]. unfold names_inv, tidy. rewrite Hs, Hp. auto.
Qed.

Lemma names_inv_flushed (s : Session) : names_inv s -> names_inv (flushed s).
Proof.
  intros [Ht [Hn Hb]]. unfold names_inv.
  rewrite suppliers_flushed, Ht, app_nil_r. split; [reflexivity | auto].
Qed.

Lemma names_inv_tick_stable : tick_stable names_inv.
Proof.
  intros s H. split; [| now apply names_inv_flushed].
  now apply (names_inv_same s).
Qed.

Lemma named_none (n : string) (l : list Supplier) :
  named n l = None -> ~ In n (map name l).
Proof.
  unfold named. intros H Hin. apply first_none in H.
  apply in_map_iff in Hin. destruct Hin as [sup [Hn Hs]].
  assert (Hf : In sup (filter (fun s => String.eqb (name s) n) l)).
  { apply filter_In. split; [exact Hs |]. now apply String.eqb_eq. }
  rewrite H in Hf. contradiction.
Qed.

Lemma get_or_create_names (n : string) (rating : R) :
  hoare names_inv (_get_or_create_supplier n rating) (fun _ s => names_inv s).
Proof.
  intros s s' sup HI E. unfold _get_or_create_supplier, bind in E.
  destruct (db_query _ s) as [sq [ex | found]] eqn:Eq; [discriminate |].
  apply db_query_returns in Eq. destruct Eq as [-> Hfound].
  assert (Hs : names_inv (settle s)).
  { destruct (settle_cases s) as [-> | ->]; [exact HI | now apply names_inv_flushed]. }
  destruct found as [sup0 |].
  - inversion E; subst; clear E. now apply (names_inv_same (settle s)).
  - unfold gen_uuid, db_add, db_flush, ret in E. cbn in E.
    inversion E; subst; clear E.
    destruct Hs as [Ht [Hn [new Hb]]]. unfold names_inv.
    rewrite suppliers_flushed. cbn [pending txn with_pending].
    rewrite pending_rows_app. unfold tidy in Ht. rewrite Ht. cbn.
    split; [reflexivity | split].
    + rewrite map_app. cbn [map name]. apply NoDup_snoc; [exact Hn |].
      apply named_none. symmetry. exact Hfound.
    + exists (new ++ [{| supplier_id := uuid_counter (settle s); name := n;
                         rating := rating; region := "Asia"; country := "CN";
                         incoterms_supported := ["FOB"%string; "CIF"%string] |}]).
      now rewrite Hb, app_assoc.
Qed.

Lemma scrape_candidate_names (product : Product) (cnt : nat) (raw : RawOffer) :
  hoare names_inv (scrape_candidate product cnt raw) (fun _ s => names_inv s).
Proof.
  unfold scrape_candidate.
  apply hoare_bind_inv; [apply get_or_create_names |]. intros sup.
  apply hoare_bind_inv; [apply hoare_utcnow, names_inv_tick_stable |]. intros now.
  eapply hoare_bind; [apply hoare_get_settings |]. intros st. cbv beta.
  apply hoare_bind_inv; [apply hoare_query_inv, names_inv_tick_stable |].
  intros [o |]; [apply hoare_ret; auto |].
  intros s s' a [Ht [Hn Hb]] E. unfold bind, gen_uuid, db_add, ret in E.
  cbn -[Z.mul Z.sub] in E. inversion E; subst; clear E.
  unfold names_inv, tidy. cbn [pending txn with_pending].
  rewrite pending_rows_app. unfold tidy in Ht. rewrite Ht. cbn. auto.
Qed.

Lemma scraper_work_names (skus sources : list string) :
  hoare names_inv
    (scraper_work py_hash rng seed_rng rng_uniform rng_gauss rng_choice
       rng_randint skus sources)
    (fun _ s => names_inv s).
Proof.
  unfold scraper_work. apply hoare_foldM_inv. intros cnt k. unfold scrape_sku.
  apply hoare_bind_inv; [apply hoare_query_inv, names_inv_tick_stable |].
  intros [product |]; [| apply hoare_ret; auto].
  apply hoare_foldM_inv. intros cnt1 src.
  apply hoare_foldM_inv. intros cnt2 raw. apply scrape_candidate_names.
Qed.

End Names.

(** [run_scraper_job] creates a supplier only for a name that no supplier
    has: if the suppliers' names are distinct before a job, they are distinct
    after it, however the job ends; and the job only adds suppliers, after
    the ones that were there, which it leaves as they were. *)
Theorem supplier_names_stay_distinct
  (py_hash : string -> Z) (rng : Type) (seed_rng : Z -> rng)
  (rng_uniform rng_gauss : rng -> R -> R -> R * rng)
  (rng_choice : rng -> nat -> nat * rng) (rng_randint : rng -> Z -> Z -> Z * rng)
  (id : uuid) (skus : list string) (sources : option (list string))
  (w w' : World) (r : result unit) :
  pending (session w) = [] ->
  txn (session w) = committed w ->
  NoDup (map name (suppliers (committed w))) ->
  run_scraper_job py_hash rng seed_rng rng_uniform rng_gauss rng_choice rng_randint
    id skus sources w = (w', r) ->
  NoDup (map name (suppliers (committed w')))
  /\ exists new, suppliers (committed w') = suppliers (committed w) ++ new.
Proof.
  intros Hp Ht Hnd Hrun.
  unfold run_scraper_job in Hrun. apply resolved_then in Hrun.
  destruct Hrun as [[Hc _] | [s1 [job0 [d [_ [_ [Hs1 Htr]]]]]]].
  { rewrite Hc. split; [exact Hnd | exists []; now rewrite app_nil_r]. }
  destruct (started_clean id (with_status Running) w s1 Hp Ht Hs1)
    as [_ [_ [Hpend [_ [Hsup _]]]]].
  destruct r as [e0 | u].
  - apply transaction_failure in Htr; [| apply scraper_finish_total].
    destruct Htr as [s2 [_ [Hc _]]]. rewrite Hc.
    cbn [suppliers update_job set_scraper_jobs]. rewrite Hsup.
    split; [exact Hnd | exists []; now rewrite app_nil_r].
  - apply transaction_success in Htr.
    destruct Htr as [s2 [cnt [s3 [Hwork [Hfin [Hc Hsess]]]]]].
    match type of Hwork with
    | _ ?s = _ => set (s0 := s) in *
    end.
    assert (Hinv0 : names_inv (suppliers (committed w)) s0).
    { unfold names_inv, tidy. rewrite Hpend, Hsup.
      split; [reflexivity | split; [exact Hnd | exists []; now rewrite app_nil_r]]. }
    pose proof (scraper_work_names py_hash rng seed_rng rng_uniform rng_gauss
                  rng_choice rng_randint (suppliers (committed w)) skus _
                  s0 s2 cnt Hinv0 Hwork) as Hinv2.
    apply scraper_finish_state in Hfin.
    apply names_inv_flushed in Hinv2.
    assert (Hinv3 : names_inv (suppliers (committed w)) (flushed s3)).
    { apply names_inv_flushed.
      apply (names_inv_same _ (flushed s2)); [| | exact Hinv2];
        rewrite Hfin; reflexivity. }
    rewrite Hc. destruct Hinv3 as [_ [Hn Hb]]. auto.
Qed.

Lemma supplier_names_stay_distinct_witness :
  NoDup (map name (suppliers (committed (after_first quiet_env one_sku_db))))
  /\ exists new,
       suppliers (committed (after_first quiet_env one_sku_db))
       = suppliers (committed (world_of quiet_env one_sku_db)) ++ new.
Proof.
  refine (supplier_names_stay_distinct fixed_hash nat fixed_seed lowest_uniform
            mean_gauss first_choice lowest_randint 1 ["SKU-A"%string]
            (Some ["mock_alibaba"%string]) (world_of quiet_env one_sku_db)
            (after_first quiet_env one_sku_db)
            (snd (one_sku_run 1 (world_of quiet_env one_sku_db)))
            _ _ _ _).
  - reflexivity.
  - reflexivity.
  - constructor.
  - unfold after_first, one_sku_run. apply surjective_pairing.
Defined.

(** *** SKUs that no product has *)

(** A job whose SKUs are all unknown writes no offer and no supplier, and
    if it completes it reports [offers_collected = 0]. *)
Theorem unknown_skus_collect_nothing
  (py_hash : string -> Z) (rng : Type) (seed_rng : Z -> rng)
  (rng_uniform rng_gauss : rng -> R -> R -> R * rng)
  (rng_choice : rng -> nat -> nat * rng) (rng_randint : rng -> Z -> Z -> Z * rng)
  (id : uuid) (skus : list string) (sources : option (list string))
  (w w' : World) (r : result unit) :
  pending (session w) = [] ->
  txn (session w) = committed w ->
  (forall k, In k skus -> product_with_sku k (committed w) = None) ->
  run_scraper_job py_hash rng seed_rng rng_uniform rng_gauss rng_choice rng_randint
    id skus sources w = (w', r) ->
  supplier_offers (committed w') = supplier_offers (committed w)
  /\ suppliers (committed w') = suppliers (committed w)
  /\ (forall u, r = inr u ->
      forall job, In job (scraper_jobs (committed w')) -> job_id job = id ->
        offers_collected job = 0%nat /\ job_status job = Done).
Proof.
  intros Hp Ht Hunknown Hrun.
  unfold run_scraper_job in Hrun. apply resolved_then in Hrun.
  destruct Hrun as [[Hc [e0 ->]] | [s1 [job0 [d [_ [_ [Hs1 Htr]]]]]]].
  { rewrite Hc. split; [reflexivity | split; [reflexivity | discriminate]]. }
  destruct (started_clean id (with_status Running) w s1 Hp Ht Hs1)
    as [He [Hk [Hpend [Hoff [Hsup Hprod]]]]].
  destruct r as [e0 | u].
  - apply transaction_failure in Htr; [| apply scraper_finish_total].
    destruct Htr as [s2 [_ [Hc _]]]. rewrite Hc.
    cbn [supplier_offers suppliers update_job set_scraper_jobs].
    split; [exact Hoff | split; [exact Hsup | discriminate]].
  - apply transaction_success in Htr.
    destruct Htr as [s2 [cnt [s3 [Hwork [Hfin [Hc Hsess]]]]]].
    match type of Hwork with
    | _ ?s = _ => set (s0 := s) in *
    end.
    set (e := env (session w)). set (t0 := tick (session w)).
    set (T := tick (session w')). set (P0 := products (committed w)).
    assert (Hidle0 : idle e t0 T P0 (suppliers (committed w))
                       (supplier_offers (committed w)) True 0 s0).
    { split; [exact He |]. intros _. repeat split; auto. }
    assert (Hnone : forall c,
              (exists k, In k skus
                 /\ candidates_of P0 py_hash rng seed_rng rng_uniform rng_gauss
                      rng_choice rng_randint k
                      match sources with
                      | None => map fst SOURCE_PROFILES
                      | Some l => l
                      end c) ->
              settled e t0 T (suppliers (committed w))
                (supplier_offers (committed w)) c).
    { intros c [k [Hin [p [src [raw [Hsku _]]]]]].
      specialize (Hunknown k Hin). unfold product_with_sku in Hunknown.
      unfold sku_product, P0 in Hsku. congruence. }
    pose proof (scraper_work_idle e t0 T P0 py_hash rng seed_rng rng_uniform
                  rng_gauss rng_choice rng_randint _ _ True skus _ Hnone
                  s0 s2 cnt Hidle0 Hwork) as [_ Hidle].
    apply scraper_finish_state in Hfin.
    assert (Htick : T = S (S (S (tick s2)))).
    { unfold T. rewrite Hsess, Hfin. reflexivity. }
    destruct (Hidle ltac:(lia)) as [_ [Hcnt [_ [Hpe [_ [Hsu Ho]]]]]].
    rewrite Hc, Hfin. cbn. rewrite Hpe. cbn.
    split; [exact Ho | split; [exact Hsu |]].
    intros _ _ job Hin Hid. rewrite <- Hcnt.
    eapply completed_job; [| exact Hid].
    cbn. exact Hin.
Qed.

Lemma unknown_skus_collect_nothing_witness :
  supplier_offers
    (committed
       (fst (run_scraper_job fixed_hash nat fixed_seed lowest_uniform mean_gauss
               first_choice lowest_randint 1 ["SKU-Z"%string] None
               (world_of quiet_env one_sku_db))))
  = supplier_offers (committed (world_of quiet_env one_sku_db))
  /\ suppliers
       (committed
          (fst (run_scraper_job fixed_hash nat fixed_seed lowest_uniform mean_gauss
                  first_choice lowest_randint 1 ["SKU-Z"%string] None
                  (world_of quiet_env one_sku_db))))
     = suppliers (committed (world_of quiet_env one_sku_db))
  /\ (forall u,
        snd (run_scraper_job fixed_hash nat fixed_seed lowest_uniform mean_gauss
               first_choice lowest_randint 1 ["SKU-Z"%string] None
               (world_of quiet_env one_sku_db)) = inr u ->
        forall job,
          In job (scraper_jobs
                    (committed
                       (fst (run_scraper_job fixed_hash nat fixed_seed
                               lowest_uniform mean_gauss first_choice
                               lowest_randint 1 ["SKU-Z"%string] None
                               (world_of quiet_env one_sku_db))))) ->
          job_id job = 1%nat ->
          offers_collected job = 0%nat /\ job_status job = Done).
Proof.
  refine (unknown_skus_collect_nothing fixed_hash nat fixed_seed lowest_uniform
            mean_gauss first_choice lowest_randint 1 ["SKU-Z"%string] None
            (world_of quiet_env one_sku_db) _ _ _ _ _ _).
  - reflexivity.
  - reflexivity.
  - intros k [<- | []]. reflexivity.
  - apply surjective_pairing.
Defined.

End ScraperFacts.

(** ** More on the optimiser ([agents/optimizer/agent.py]) *)
Module OptimizerFacts.
Import Py Db Orm OrmOps Stage Optimizer.
Open Scope st_scope.

(** *** Dictionaries *)

Section Dict.

Context {K V : Type}.
Variable eqb : K -> K -> bool.
Hypothesis eqb_eq : forall a b, eqb a b = true <-> a = b.

Lemma eqb_refl (k : K) : eqb k k = true.
Proof. now apply eqb_eq. Qed.

Lemma eqb_neq (a b : K) : a <> b -> eqb a b = false.
Proof.
  intros H. destruct (eqb a b) eqn:E; [| reflexivity].
  apply eqb_eq in E. contradiction.
Qed.

Lemma dict_get_set_same (k : K) (v : V) (d : list (K * V)) :
  dict_get eqb k (dict_set eqb k v d) = Some v.
Proof.
  unfold dict_get. induction d as [| [k' v'] d IH]; cbn.
  - now rewrite eqb_refl.
  - destruct (eqb k k') eqn:E; cbn; [now rewrite eqb_refl |].
    rewrite E. exact IH.
Qed.

Lemma dict_get_set_other (k k2 : K) (v : V) (d : list (K * V)) :
  k <> k2 -> dict_get eqb k (dict_set eqb k2 v d) = dict_get eqb k d.
Proof.
  intros Hne. unfold dict_get. induction d as [| [k' v'] d IH]; cbn.
  - now rewrite (eqb_neq k k2 Hne).
  - destruct (eqb k2 k') eqn:E; cbn.
    + apply eqb_eq in E. subst k'. now rewrite (eqb_neq k k2 Hne).
    + destruct (eqb k k'); [reflexivity | exact IH].
Qed.

End Dict.

Lemma pair_eqb_eq (a b : uuid * uuid) : pair_eqb a b = true <-> a = b.
Proof.
  unfold pair_eqb. rewrite andb_true_iff, !Nat.eqb_eq.
  destruct a, b; cbn. split; [intros [-> ->]; reflexivity | intros E; now inversion E].
Qed.

(** *** The aggregated demand *)

Definition quantile (use_p90 : bool) (r : ForecastResult) : R :=
  if use_p90 then p90 r else p50 r.

(** The forecast rows of a run for a product and a location. *)
Definition forecast_rows (forecast_run_id p l : uuid) (d : Database)
  : list ForecastResult :=
  filter (fun r => Nat.eqb (fr_run_id r) forecast_run_id
                   && Nat.eqb (fr_product_id r) p && Nat.eqb (fr_location_id r) l)
    (forecast_results d).

Definition add_demand (use_p90 : bool) (demand : list (uuid * uuid * R))
  (r : ForecastResult) : list (uuid * uuid * R) :=
  let key := (fr_product_id r, fr_location_id r) in
  dict_set pair_eqb key
    (match dict_get pair_eqb key demand with Some v => v | None => 0%R end
     + quantile use_p90 r)%R
    demand.

Lemma get_add_demand_same (use_p90 : bool) (acc : list (uuid * uuid * R))
  (r : ForecastResult) :
  dict_get pair_eqb (fr_product_id r, fr_location_id r) (add_demand use_p90 acc r)
  = Some (match dict_get pair_eqb (fr_product_id r, fr_location_id r) acc with
          | Some v => v
          | None => 0%R
          end + quantile use_p90 r)%R.
Proof. unfold add_demand. apply (dict_get_set_same pair_eqb pair_eqb_eq). Qed.

Lemma get_add_demand_other (use_p90 : bool) (acc : list (uuid * uuid * R))
  (r : ForecastResult) (k : uuid * uuid) :
  k <> (fr_product_id r, fr_location_id r) ->
  dict_get pair_eqb k (add_demand use_p90 acc r) = dict_get pair_eqb k acc.
Proof. intros H. unfold add_demand. now apply (dict_get_set_other pair_eqb pair_eqb_eq). Qed.

Lemma aggregated (use_p90 : bool) (k : uuid * uuid) (rows : list ForecastResult)
  (acc : list (uuid * uuid * R)) :
  dict_get pair_eqb k (fold_left (add_demand use_p90) rows acc)
  = match filter (fun r => pair_eqb k (fr_product_id r, fr_location_id r)) rows with
    | [] => dict_get pair_eqb k acc
    | m =>
        Some (match dict_get pair_eqb k acc with Some v => v | None => 0%R end
              + fsum (map (quantile use_p90) m))%R
    end.
Proof.
  revert acc. induction rows as [| r rows IH]; intros acc; cbn [fold_left filter].
  - reflexivity.
  - rewrite IH. destruct (pair_eqb k (fr_product_id r, fr_location_id r)) eqn:E.
    + apply pair_eqb_eq in E. subst k. rewrite get_add_demand_same.
      destruct (filter _ rows) as [| r' m]; cbn [map fsum fold_right];
        f_equal; ring.
    + assert (Hne : k <> (fr_product_id r, fr_location_id r)).
      { intros ->. rewrite (proj2 (pair_eqb_eq _ _) eq_refl) in E. discriminate. }
      rewrite get_add_demand_other by exact Hne. reflexivity.
Qed.

Lemma filter_filter {A : Type} (f g : A -> bool) (l : list A) :
  filter f (filter g l) = filter (fun x => g x && f x) l.
Proof.
  induction l as [| x l IH]; cbn; [reflexivity |].
  destruct (g x); cbn; [destruct (f x); now rewrite IH | exact IH].
Qed.

Lemma existsb_eqb (x : uuid) (l : list uuid) :
  existsb (Nat.eqb x) l = true <-> In x l.
Proof.
  rewrite existsb_exists. split.
  - intros [y [Hy E]]. apply Nat.eqb_eq in E. now subst.
  - intros H. exists x. split; [exact H | apply Nat.eqb_refl].
Qed.

(** [_load_demand] on a session with nothing pending: the demand of a
    product at a location is the sum, over the rows of the forecast run for
    them, of P50 (or of P90); there is no entry when there is no such row or
    when the product or the location was not asked for. *)
Theorem load_demand_sums (forecast_run_id : uuid) (product_ids location_ids : list uuid)
  (use_p90 : bool) (s s' : Session) (demand : list (uuid * uuid * R)) :
  pending s = [] ->
  _load_demand forecast_run_id product_ids location_ids use_p90 s = (s', inr demand) ->
  forall p l,
    dict_get pair_eqb (p, l) demand
    = if existsb (Nat.eqb p) product_ids && existsb (Nat.eqb l) location_ids
      then match forecast_rows forecast_run_id p l (txn s) with
           | [] => None
           | rows => Some (fsum (map (quantile use_p90) rows))
           end
      else None.
Proof.
  intros Hp E p l. unfold _load_demand, bind in E.
  destruct (db_query _ s) as [sq [ex | rows]] eqn:Eq; [discriminate |].
  apply db_query_returns in Eq. destruct Eq as [-> Hrows].
  inversion E; subst s' demand; clear E.
  destruct (ScraperFacts.settle_clean s Hp) as [Ht _]. rewrite Ht in Hrows.
  change (fold_left _ rows []) with (fold_left (add_demand use_p90) rows []).
  rewrite aggregated. cbn [dict_get find option_map].
  rewrite Hrows, filter_filter.
  destruct (existsb (Nat.eqb p) product_ids && existsb (Nat.eqb l) location_ids)
    eqn:Ein.
  - apply andb_prop in Ein. destruct Ein as [Ep El].
    unfold forecast_rows.
    rewrite (filter_ext
               (fun x => Nat.eqb (fr_run_id x) forecast_run_id
                         && existsb (Nat.eqb (fr_product_id x)) product_ids
                         && existsb (Nat.eqb (fr_location_id x)) location_ids
                         && pair_eqb (p, l) (fr_product_id x, fr_location_id x))
               (fun r => Nat.eqb (fr_run_id r) forecast_run_id
                         && Nat.eqb (fr_product_id r) p
                         && Nat.eqb (fr_location_id r) l)).
    + match goal with
      | |- context [match ?m with [] => None | _ => _ end] => destruct m
      end; [reflexivity |]. f_equal. ring.
    + intros x. unfold pair_eqb. cbn [fst snd].
      destruct (Nat.eqb p (fr_product_id x)) eqn:E1.
      * apply Nat.eqb_eq in E1. subst p. rewrite Ep, Nat.eqb_refl.
        destruct (Nat.eqb l (fr_location_id x)) eqn:E2.
        -- apply Nat.eqb_eq in E2. subst l. rewrite El, Nat.eqb_refl.
           now rewrite !andb_true_r.
        -- rewrite (Nat.eqb_sym (fr_location_id x) l), E2.
           now rewrite !andb_false_r.
      * rewrite (Nat.eqb_sym (fr_product_id x) p), E1. cbn.
        now rewrite !andb_false_r.
  - rewrite (filter_ext
               (fun x => Nat.eqb (fr_run_id x) forecast_run_id
                         && existsb (Nat.eqb (fr_product_id x)) product_ids
                         && existsb (Nat.eqb (fr_location_id x)) location_ids
                         && pair_eqb (p, l) (fr_product_id x, fr_location_id x))
               (fun _ => false)).
    + clear. induction (forecast_results (txn s)); cbn; auto.
    + intros x. unfold pair_eqb. cbn [fst snd].
      destruct (Nat.eqb p (fr_product_id x)) eqn:E1; [| now rewrite andb_false_r].
      destruct (Nat.eqb l (fr_location_id x)) eqn:E2; [| now rewrite andb_false_r].
      apply Nat.eqb_eq in E1, E2. subst p l. cbn.
      rewrite andb_true_r. apply andb_false_iff in Ein.
      destruct Ein as [-> | ->]; [now rewrite andb_false_r | now rewrite !andb_false_r].
Qed.

Lemma load_demand_sums_witness :
  dict_get pair_eqb (1%nat, 1%nat) [((1%nat, 1%nat), (0 + 100.04)%R)]
  = if existsb (Nat.eqb 1) [1%nat] && existsb (Nat.eqb 1) [1%nat]
    then match forecast_rows 1 1 1
                 (txn (session (world_of quiet_env decimal_demand_db))) with
         | [] => None
         | rows => Some (fsum (map (quantile false) rows))
         end
    else None.
Proof.
  refine (load_demand_sums 1 [1%nat] [1%nat] false
            (session (world_of quiet_env decimal_demand_db))
            (fst (_load_demand 1 [1%nat] [1%nat] false
                    (session (world_of quiet_env decimal_demand_db))))
            [((1%nat, 1%nat), (0 + 100.04)%R)] _ _ 1%nat 1%nat).
  - reflexivity.
  - apply Scraper.pair_eta. unfold _load_demand, world_of. st_eval. reflexivity.
Defined.

(** *** The model that is handed to the solver *)

Section Built.

Variable products : list Product.
Variable locations : list Location.
Variable offers_by_product : list (uuid * list Offer).
Variable demand : list (uuid * uuid * R).
Variable cost_params : list (uuid * uuid * Cost).
Variable safety_stocks : list (uuid * uuid * R).
Variable ship_cost_fraction : R.
Variable max_suppliers_per_product : Z.

Definition built : Problem :=
  build products locations offers_by_product demand cost_params safety_stocks
    ship_cost_fraction max_suppliers_per_product.

(** The variables a constraint mentions. *)
Definition mentions (c : Constraint) : list Var :=
  map snd (terms (lhs c)) ++ map snd (terms (rhs c)).

Lemma triple_eqb_eq (a b : uuid * uuid * uuid) : triple_eqb a b = true <-> a = b.
Proof.
  unfold triple_eqb. rewrite andb_true_iff, pair_eqb_eq, Nat.eqb_eq.
  destruct a as [a1 a2], b as [b1 b2]; cbn.
  split; [intros [-> ->]; reflexivity | intros E; now inversion E].
Qed.

Lemma declared_x (p s l : uuid) :
  in_x products locations offers_by_product (p, s, l) = true ->
  In (x_ p s l) (variables built).
Proof.
  unfold in_x. rewrite existsb_exists. intros [k [Hk E]].
  apply triple_eqb_eq in E. subst k. cbn [variables built build].
  apply in_or_app. left. apply in_map_iff. exists (p, s, l). auto.
Qed.

Lemma declared_y (p s : uuid) :
  in_y products offers_by_product (p, s) = true -> In (y_ p s) (variables built).
Proof.
  unfold in_y. rewrite existsb_exists. intros [k [Hk E]].
  apply pair_eqb_eq in E. subst k. cbn [variables built build].
  apply in_or_app. right. apply in_or_app. left.
  apply in_map_iff. exists (p, s). auto.
Qed.

Lemma declared_inv (p l : uuid) :
  in_inv products locations (p, l) = true ->
  In (inv_ p l) (variables built) /\ In (bo_ p l) (variables built).
Proof.
  unfold in_inv. rewrite existsb_exists. intros [k [Hk E]].
  apply pair_eqb_eq in E. subst k. cbn [variables built build]. split.
  - apply in_or_app. right. apply in_or_app. right. apply in_or_app. left.
    apply in_map_iff. exists (p, l). auto.
  - apply in_or_app. right. apply in_or_app. right. apply in_or_app. right.
    apply in_map_iff. exists (p, l). auto.
Qed.

Lemma in_guarded {A B : Type} (b : A -> bool) (f : A -> B) (l : list A) (v : B) :
  In v (flat_map (fun a => if b a then [f a] else []) l) ->
  exists a, In a l /\ b a = true /\ v = f a.
Proof.
  intros H. apply in_flat_map in H. destruct H as [a [Ha H]].
  destruct (b a) eqn:E; [| contradiction].
  destruct H as [<- | []]. eauto.
Qed.

Lemma vars_lp_sum (vs : list Var) : map snd (terms (lp_sum vs)) = vs.
Proof.
  unfold lp_sum. cbn [terms]. rewrite map_map. cbn. apply map_id.
Qed.

(** The model mentions only variables it declares: in every constraint and
    in the objective. *)
Theorem build_well_formed :
  (forall c, In c (constraints built) ->
     forall v, In v (mentions c) -> In v (variables built))
  /\ (forall t, In t (terms (objective built)) -> In (snd t) (variables built)).
Proof.
  split.
  - intros c Hc v Hv. cbn [constraints built build] in Hc.
    apply in_flat_map in Hc. destruct Hc as [product [_ Hc]].
    unfold product_constraints in Hc.
    destruct (offers_for offers_by_product (product_id product)) as [| o0 os] eqn:Eo;
      [contradiction |].
    remember (o0 :: os) as offers eqn:Hoffers. clear Hoffers.
    set (pid := product_id product) in *.
    apply in_app_or in Hc. destruct Hc as [Hc | Hc].
    + apply in_flat_map in Hc. destruct Hc as [loc [_ Hc]].
      destruct (in_inv products locations (pid, location_id loc)) eqn:Ei;
        [| contradiction].
      destruct (declared_inv _ _ Ei) as [Hinv Hbo].
      destruct Hc as [<- | [<- | []]]; unfold mentions in Hv;
        cbn [lhs rhs terms const var minus plus map snd app] in Hv.
      * rewrite !map_app, vars_lp_sum in Hv. cbn in Hv.
        rewrite app_nil_r in Hv.
        apply in_app_or in Hv. destruct Hv as [Hv | [<- | []]]; [| exact Hbo].
        apply in_app_or in Hv. destruct Hv as [Hv | [<- | []]]; [| exact Hinv].
        apply in_guarded in Hv. destruct Hv as [offer [_ [Ex ->]]].
        now apply declared_x.
      * destruct Hv as [<- | []]. exact Hinv.
    + apply in_app_or in Hc. destruct Hc as [Hc | Hc].
      * apply in_flat_map in Hc. destruct Hc as [offer [_ Hc]].
        destruct (in_y products offers_by_product (pid, o_supplier_id offer)) eqn:Ey;
          [| contradiction].
        pose proof (declared_y _ _ Ey) as Hy.
        assert (Hx : forall v,
                  In v (flat_map
                          (fun loc =>
                             if in_x products locations offers_by_product
                                  (pid, o_supplier_id offer, location_id loc)
                             then [x_ pid (o_supplier_id offer) (location_id loc)]
                             else []) locations) ->
                  In v (variables built)).
        { intros v' Hv'. apply in_guarded in Hv'.
          destruct Hv' as [loc [_ [Ex ->]]]. now apply declared_x. }
        destruct Hc as [<- | [<- | [<- | []]]]; unfold mentions in Hv;
          cbn [lhs rhs scaled] in Hv; rewrite vars_lp_sum in Hv;
          cbn [terms map snd] in Hv;
          (apply in_app_or in Hv; destruct Hv as [Hv | [<- | []]];
           [now apply Hx | exact Hy]).
      * destruct (flat_map _ offers) as [| b0 bs] eqn:Eb; [contradiction |].
        destruct Hc as [<- | []]. unfold mentions in Hv.
        cbn [lhs rhs const terms map] in Hv. rewrite vars_lp_sum, app_nil_r in Hv.
        rewrite <- Eb in Hv. apply in_guarded in Hv.
        destruct Hv as [o [_ [Ey ->]]]. now apply declared_y.
  - intros t Ht. cbn [objective built build terms] in Ht.
    unfold objective_terms in Ht.
    apply in_flat_map in Ht. destruct Ht as [product [_ Ht]].
    apply in_app_or in Ht. destruct Ht as [Ht | Ht].
    + apply in_flat_map in Ht. destruct Ht as [offer [_ Ht]].
      apply in_flat_map in Ht. destruct Ht as [loc [_ Ht]].
      destruct (in_x _ _ _ _) eqn:Ex; [| contradiction].
      destruct Ht as [<- | []]. cbn [snd]. now apply declared_x.
    + apply in_flat_map in Ht. destruct Ht as [loc [_ Ht]].
      destruct (in_inv _ _ _) eqn:Ei; [| contradiction].
      destruct (declared_inv _ _ Ei) as [Hinv Hbo].
      cbn [app] in Ht. destruct Ht as [<- | [<- | []]]; assumption.
Qed.

End Built.

(** *** The solution that is read off the solver *)

Definition no_costs : CostBreakdown :=
  {| procurement := 0; shipping := 0; holding := 0; penalty := 0 |}.

(** What [_build_and_solve] returns, when it returns: the solver's status;
    at most 20 binding constraints; no allocation, no binding constraint and
    no cost when the status is neither "Optimal" nor "Not Solved"; and
    otherwise allocations that each belong to a product, one of its loaded
    offers and a location, at the offer's price, with a quantity of at least
    0.5 and a total cost within 0.015 of its procurement and shipping parts
    (the three are rounded one by one). *)
Theorem solution_shape (cbc_solve : Problem -> Z -> result Solved)
  (products : list Product) (locations : list Location)
  (offers_by_product : list (uuid * list Offer))
  (demand : list (uuid * uuid * R)) (cost_params : list (uuid * uuid * Cost))
  (safety_stocks : list (uuid * uuid * R)) (ship_cost_fraction : R)
  (max_suppliers_per_product time_limit : Z) (out : string * Solution) :
  _build_and_solve cbc_solve products locations offers_by_product demand
    cost_params safety_stocks ship_cost_fraction max_suppliers_per_product
    time_limit = inr out ->
  sol_status (snd out) = fst out
  /\ (length (sol_binding_constraints (snd out)) <= 20)%nat
  /\ (String.eqb (fst out) "Optimal" || String.eqb (fst out) "Not Solved" = false ->
      allocations (snd out) = [] /\ sol_binding_constraints (snd out) = []
      /\ sol_cost_breakdown (snd out) = no_costs)
  /\ (forall a, In a (allocations (snd out)) ->
      (exists product offer loc,
         In product products
         /\ In offer (offers_for offers_by_product (product_id product))
         /\ In loc locations
         /\ a_product_id a = product_id product
         /\ a_supplier_id a = o_supplier_id offer
         /\ a_supplier_name a = o_supplier_name offer
         /\ a_location_id a = location_id loc
         /\ a_unit_cost a = o_price offer)
      /\ (0.5 <= a_qty a)%R
      /\ (Rabs (a_total_cost a - (a_total_procurement a + a_total_shipping a))
          <= 0.015)%R).
Proof.
  unfold _build_and_solve, rbind.
  destruct (cbc_solve _ _) as [e | solved]; [discriminate |].
  intros E. inversion E; subst out; clear E. cbn [fst snd]. unfold extract.
  destruct (String.eqb (status solved) "Optimal"
            || String.eqb (status solved) "Not Solved") eqn:Es;
    cbn [sol_status sol_binding_constraints allocations sol_cost_breakdown].
  - split; [reflexivity |]. split; [apply firstn_le_length |].
    split; [discriminate |].
    intros a Ha. apply in_map_iff in Ha. destruct Ha as [[[a' proc] ship] [<- Ha]].
    cbn [fst]. unfold extract_allocations in Ha.
    apply in_flat_map in Ha. destruct Ha as [product [Hp Ha]].
    apply in_flat_map in Ha. destruct Ha as [offer [Ho Ha]].
    apply in_flat_map in Ha. destruct Ha as [loc [Hl Ha]].
    destruct (in_x _ _ _ _); [| contradiction].
    destruct (Rlt_dec 0.5 _) as [Hq | Hq]; [| contradiction].
    destruct Ha as [Ha | []]. inversion Ha; subst; clear Ha.
    cbn [a_product_id a_supplier_id a_supplier_name a_location_id a_unit_cost
         a_qty a_total_cost a_total_procurement a_total_shipping].
    split; [exists product, offer, loc; repeat split; auto |].
    split; [now apply round_half |].
    match goal with
    | |- (Rabs (round (?p + ?q) 2 - (round ?p 2 + round ?q 2)) <= _)%R =>
        pose proof (round_err p 2) as H1; pose proof (round_err q 2) as H2;
        pose proof (round_err (p + q) 2) as H3
    end.
    apply Rabs_le_inv in H1, H2, H3. simpl in H1, H2, H3. apply Rabs_le. lra.
  - split; [reflexivity |]. split; [cbn; lia |].
    split; [intros _; repeat split; reflexivity | intros a []].
Qed.

(** What [_build_and_solve] returns for the one offer and the demand of
    100.04 units of the example above. *)
Definition decimal_demand_solution : string * Solution :=
  match _build_and_solve lp_optimum (products decimal_demand_db)
          (locations decimal_demand_db)
          [(1%nat, [{| o_offer_id := 1; o_supplier_id := 1;
                       o_supplier_name := "Apex Industrial Ltd"; o_price := 10;
                       o_moq := 50; o_capacity := 5000; o_lead_time_days := 30 |}])]
          [((1%nat, 1%nat), 100.04%R)] [] [] 0.08 3 5 with
  | inr out => out
  | inl _ => (""%string,
              {| sol_status := ""; sol_total_cost := 0; allocations := [];
                 sol_cost_breakdown := no_costs; sol_binding_constraints := [] |})
  end.

Lemma solution_shape_witness :
  sol_status (snd decimal_demand_solution) = fst decimal_demand_solution
  /\ (length (sol_binding_constraints (snd decimal_demand_solution)) <= 20)%nat
  /\ (String.eqb (fst decimal_demand_solution) "Optimal"
      || String.eqb (fst decimal_demand_solution) "Not Solved" = false ->
      allocations (snd decimal_demand_solution) = []
      /\ sol_binding_constraints (snd decimal_demand_solution) = []
      /\ sol_cost_breakdown (snd decimal_demand_solution) = no_costs)
  /\ (forall a, In a (allocations (snd decimal_demand_solution)) ->
      (exists product offer loc,
         In product (products decimal_demand_db)
         /\ In offer
              (offers_for
                 [(1%nat, [{| o_offer_id := 1; o_supplier_id := 1;
                              o_supplier_name := "Apex Industrial Ltd";
                              o_price := 10; o_moq := 50; o_capacity := 5000;
                              o_lead_time_days := 30 |}])]
                 (product_id product))
         /\ In loc (locations decimal_demand_db)
         /\ a_product_id a = product_id product
         /\ a_supplier_id a = o_supplier_id offer
         /\ a_supplier_name a = o_supplier_name offer
         /\ a_location_id a = location_id loc
         /\ a_unit_cost a = o_price offer)
      /\ (0.5 <= a_qty a)%R
      /\ (Rabs (a_total_cost a - (a_total_procurement a + a_total_shipping a))
          <= 0.015)%R).
Proof.
  refine (solution_shape lp_optimum (products decimal_demand_db)
            (locations decimal_demand_db) _ [((1%nat, 1%nat), 100.04%R)] [] []
            0.08 3 5 decimal_demand_solution _).
  reflexivity.
Defined.

End OptimizerFacts.

(** ** More on the four runners *)
Module RunnerFacts.
Import Py Db Orm OrmOps Stage.
Open Scope st_scope.

(** *** A run record that does not exist *)

Lemma unresolved {A R : Type} (q : Database -> option R) (e0 : exn)
  (k : R -> ST World A) (w : World) :
  query_fault (env (session w)) (tick (settle (session w))) = None ->
  q (txn (settle (session w))) = None ->
  bind (lift (db_query q))
    (fun run => match run with None => raise e0 | Some run => k run end) w
  = ({| committed := committed w; session := advance (settle (session w)) |},
     inl e0).
Proof.
  unfold bind, lift, db_query, raise, settle.
  destruct (autoflush (env (session w))); cbn [env flushed];
    intros Hq Hn; rewrite Hq, Hn; reflexivity.
Qed.

(** When the statement that looks the run record up finds none, each runner
    raises [ValueError] at once: nothing is committed, and the session holds
    what it held (flushed, if the session autoflushes). *)
Theorem missing_record_raises :
  (forall py_hash rng (seed_rng : Z -> rng) rng_uniform rng_gauss rng_choice
          rng_randint id skus sources w,
      query_fault (env (session w)) (tick (settle (session w))) = None ->
      Scraper.find_job id (txn (settle (session w))) = None ->
      exists msg,
        Scraper.run_scraper_job py_hash rng seed_rng rng_uniform rng_gauss
          rng_choice rng_randint id skus sources w
        = ({| committed := committed w; session := advance (settle (session w)) |},
           inl (ValueError msg)))
  /\ (forall arima_fit prophet_predict ets_fit resample date_range
             id sku_ids horizon frequency w,
      query_fault (env (session w)) (tick (settle (session w))) = None ->
      Forecast.find_run id (txn (settle (session w))) = None ->
      exists msg,
        Forecast.run_forecast arima_fit prophet_predict ets_fit resample date_range
          id sku_ids horizon frequency w
        = ({| committed := committed w; session := advance (settle (session w)) |},
           inl (ValueError msg)))
  /\ (forall norm_ppf id forecast_run_id periods_per_year w,
      query_fault (env (session w)) (tick (settle (session w))) = None ->
      Inventory.find_run id (txn (settle (session w))) = None ->
      exists msg,
        Inventory.run_inventory_policy norm_ppf id forecast_run_id periods_per_year w
        = ({| committed := committed w; session := advance (settle (session w)) |},
           inl (ValueError msg)))
  /\ (forall cbc_solve id forecast_run_id inventory_run_id product_ids use_p90
             max_suppliers w,
      query_fault (env (session w)) (tick (settle (session w))) = None ->
      Optimizer.find_run id (txn (settle (session w))) = None ->
      exists msg,
        Optimizer.run_optimisation cbc_solve id forecast_run_id inventory_run_id
          product_ids use_p90 max_suppliers w
        = ({| committed := committed w; session := advance (settle (session w)) |},
           inl (ValueError msg))).
Proof.
  repeat split; intros; eexists; apply unresolved; assumption.
Qed.

Lemma missing_record_raises_witness :
  exists msg,
    Scraper.one_sku_run 9 (world_of quiet_env Scraper.one_sku_db)
    = ({| committed := committed (world_of quiet_env Scraper.one_sku_db);
          session := advance (settle (session (world_of quiet_env Scraper.one_sku_db))) |},
       inl (ValueError msg)).
Proof.
  apply (proj1 missing_record_raises); reflexivity.
Defined.

(** *** A run that completes *)

Lemma runs_insert_rows (t : datetime) (rows : list Row) (d : Database) :
  scraper_jobs (insert_rows t d rows) = scraper_jobs d
  /\ forecast_runs (insert_rows t d rows) = forecast_runs d
  /\ inventory_policy_runs (insert_rows t d rows) = inventory_policy_runs d
  /\ optimisation_runs (insert_rows t d rows) = optimisation_runs d.
Proof.
  unfold insert_rows. revert d. induction rows as [| r rows IH]; intros d; cbn.
  - auto.
  - destruct (IH (insert_row t d r)) as [H1 [H2 [H3 H4]]].
    rewrite H1, H2, H3, H4. destruct r; cbn; auto.
Qed.

Lemma in_updated {A : Type} (key : A -> uuid) (id : uuid) (f : A -> A) (l : list A)
  (x : A) :
  (forall a, key (f a) = key a) ->
  In x (map (fun a => if Nat.eqb (key a) id then f a else a) l) ->
  key x = id -> exists a, In a l /\ x = f a.
Proof.
  intros Hk Hin Hid. apply in_map_iff in Hin. destruct Hin as [a [Ha Hin]].
  destruct (Nat.eqb (key a) id) eqn:E.
  - eauto.
  - subst x. apply Nat.eqb_neq in E. contradiction.
Qed.

(** When a runner returns, the record of the run is committed with its
    closing status and a completion time: "done" for the scraper, the
    forecast and the inventory policy, "optimal" or "infeasible" for the
    optimiser. *)
Theorem completed_run_is_marked :
  (forall py_hash rng (seed_rng : Z -> rng) rng_uniform rng_gauss rng_choice
          rng_randint id skus sources w w' u,
      Scraper.run_scraper_job py_hash rng seed_rng rng_uniform rng_gauss
        rng_choice rng_randint id skus sources w = (w', inr u) ->
      forall job, In job (scraper_jobs (committed w')) -> job_id job = id ->
        job_status job = Done /\ exists t, job_completed_at job = Some t)
  /\ (forall arima_fit prophet_predict ets_fit resample date_range
             id sku_ids horizon frequency w w' u,
      Forecast.run_forecast arima_fit prophet_predict ets_fit resample date_range
        id sku_ids horizon frequency w = (w', inr u) ->
      forall run, In run (forecast_runs (committed w')) -> frun_id run = id ->
        frun_status run = Done /\ exists t, frun_completed_at run = Some t)
  /\ (forall norm_ppf id forecast_run_id periods_per_year w w' u,
      Inventory.run_inventory_policy norm_ppf id forecast_run_id periods_per_year w
      = (w', inr u) ->
      forall run, In run (inventory_policy_runs (committed w')) -> irun_id run = id ->
        irun_status run = Done /\ exists t, irun_completed_at run = Some t)
  /\ (forall cbc_solve id forecast_run_id inventory_run_id product_ids use_p90
             max_suppliers w w' u,
      Optimizer.run_optimisation cbc_solve id forecast_run_id inventory_run_id
        product_ids use_p90 max_suppliers w = (w', inr u) ->
      forall run, In run (optimisation_runs (committed w')) -> orun_id run = id ->
        (orun_status run = Optimal \/ orun_status run = Infeasible)
        /\ exists t, orun_completed_at run = Some t).
Proof.
  split; [| split; [| split]].
  - intros py_hash rng seed_rng rng_uniform rng_gauss rng_choice rng_randint
      id skus sources w w' u Hrun job Hin Hid.
    unfold Scraper.run_scraper_job in Hrun. apply resolved_then in Hrun.
    destruct Hrun as [[_ [e Habs]] | [s1 [run0 [d [_ [_ [_ Htr]]]]]]];
      [discriminate |].
    apply transaction_success in Htr.
    destruct Htr as [s2 [a [s3 [_ [Hfin [Hc _]]]]]].
    apply Scraper.scraper_finish_state in Hfin.
    rewrite Hc in Hin. cbn [txn flushed] in Hin.
    rewrite (proj1 (runs_insert_rows _ _ _)), Hfin in Hin.
    cbn [txn with_txn scraper_jobs Scraper.update_job set_scraper_jobs] in Hin.
    apply (in_updated job_id) in Hin; [| reflexivity | exact Hid].
    destruct Hin as [j0 [_ ->]]. cbn. eauto.
  - intros arima_fit prophet_predict ets_fit resample date_range
      id sku_ids horizon frequency w w' u Hrun run Hin Hid.
    unfold Forecast.run_forecast in Hrun. apply resolved_then in Hrun.
    destruct Hrun as [[_ [e Habs]] | [s1 [run0 [d [_ [_ [_ Htr]]]]]]];
      [discriminate |].
    apply transaction_success in Htr.
    destruct Htr as [s2 [a [s3 [_ [Hfin [Hc _]]]]]].
    unfold Forecast.forecast_finish, bind, utcnow, db_update in Hfin.
    inversion Hfin; subst s3; clear Hfin.
    rewrite Hc in Hin. cbn [txn flushed] in Hin.
    rewrite (proj1 (proj2 (runs_insert_rows _ _ _))) in Hin.
    cbn [txn with_txn forecast_runs Forecast.update_run set_forecast_runs] in Hin.
    apply (in_updated frun_id) in Hin; [| reflexivity | exact Hid].
    destruct Hin as [j0 [_ ->]]. cbn. eauto.
  - intros norm_ppf id forecast_run_id periods_per_year w w' u Hrun run Hin Hid.
    unfold Inventory.run_inventory_policy in Hrun. apply resolved_then in Hrun.
    destruct Hrun as [[_ [e Habs]] | [s1 [run0 [d [_ [_ [_ Htr]]]]]]];
      [discriminate |].
    apply transaction_success in Htr.
    destruct Htr as [s2 [a [s3 [_ [Hfin [Hc _]]]]]].
    unfold Inventory.policy_finish, bind, utcnow, db_update in Hfin.
    inversion Hfin; subst s3; clear Hfin.
    rewrite Hc in Hin. cbn [txn flushed] in Hin.
    rewrite (proj1 (proj2 (proj2 (runs_insert_rows _ _ _)))) in Hin.
    cbn [txn with_txn inventory_policy_runs Inventory.update_run
         set_inventory_policy_runs] in Hin.
    apply (in_updated irun_id) in Hin; [| reflexivity | exact Hid].
    destruct Hin as [j0 [_ ->]]. cbn. eauto.
  - intros cbc_solve id forecast_run_id inventory_run_id product_ids use_p90
      max_suppliers w w' u Hrun run Hin Hid.
    unfold Optimizer.run_optimisation in Hrun. apply resolved_then in Hrun.
    destruct Hrun as [[_ [e Habs]] | [s1 [run0 [d [_ [_ [_ Htr]]]]]]];
      [discriminate |].
    apply transaction_success in Htr.
    destruct Htr as [s2 [a [s3 [_ [Hfin [Hc _]]]]]].
    unfold Optimizer.optimisation_finish, bind, utcnow, db_update in Hfin.
    inversion Hfin; subst s3; clear Hfin.
    rewrite Hc in Hin. cbn [txn flushed] in Hin.
    rewrite (proj2 (proj2 (proj2 (runs_insert_rows _ _ _)))) in Hin.
    cbn [txn with_txn optimisation_runs Optimizer.update_run
         set_optimisation_runs] in Hin.
    apply (in_updated orun_id) in Hin; [| reflexivity | exact Hid].
    destruct Hin as [j0 [_ ->]]. cbn.
    split; [destruct (String.eqb _ _); auto | eauto].
Qed.

Lemma completed_run_is_marked_witness :
  job_status {| job_id := 1; job_status := Done; offers_collected := 1;
                job_error := None; job_completed_at := Some 27%Z |} = Done
  /\ exists t,
       job_completed_at {| job_id := 1; job_status := Done; offers_collected := 1;
                           job_error := None; job_completed_at := Some 27%Z |}
       = Some t.
Proof.
  refine (proj1 completed_run_is_marked Scraper.fixed_hash nat Scraper.fixed_seed
            Scraper.lowest_uniform Scraper.mean_gauss Scraper.first_choice
            Scraper.lowest_randint 1%nat ["SKU-A"%string]
            (Some ["mock_alibaba"%string])
            (world_of quiet_env Scraper.one_sku_db)
            (Scraper.after_first quiet_env Scraper.one_sku_db) tt _
            {| job_id := 1; job_status := Done; offers_collected := 1;
               job_error := None; job_completed_at := Some 27%Z |} _ _).
  - unfold Scraper.after_first, Scraper.one_sku_run. apply Scraper.pair_eta.
    vm_compute. reflexivity.
  - vm_compute. left. reflexivity.
  - reflexivity.
Defined.

End RunnerFacts.

(** ** More on the inventory stage *)
Module PolicyFacts.
Import Py Db Orm OrmOps Stage InventoryMath Inventory InventoryFacts.
Open Scope st_scope.
Open Scope R_scope.

(** What holds of a row the stage computed for the run [run_id]. *)
Definition sized (run_id : uuid) (row : InventoryPolicyResult) : Prop :=
  ip_run_id row = run_id
  /\ 1 <= eoq row /\ 0 <= safety_stock row /\ 0 <= rop row /\ 0 <= demand_std row.

(** What holds besides when forecasts and lead times are not negative. *)
Definition covering_stock (row : InventoryPolicyResult) : Prop :=
  safety_stock row <= rop row /\ 0 <= avg_demand row /\ 0 <= ip_lead_time_days row.

Section Rows.

Variable norm_ppf : R -> R.
Variable w : World.
Variable run_id : uuid.

Definition sized_inv : Session -> Prop :=
  all_rows (fun row => known w row \/ sized run_id row).

Lemma stable_sized : stable (fun row => known w row \/ sized run_id row).
Proof. intros t x H; exact H. Qed.

Lemma sized_inv_tick_stable : tick_stable sized_inv.
Proof. apply tick_stable_all_rows, stable_sized. Qed.

Lemma policy_step_sized (forecast_run_id : uuid) (periods_per_year : Z)
  (n : nat) (cp : CostParameter) :
  hoare sized_inv
    (policy_step norm_ppf run_id forecast_run_id periods_per_year n cp)
    (fun _ s => sized_inv s).
Proof.
  pose proof sized_inv_tick_stable as Hts.
  unfold policy_step.
  apply hoare_bind_inv; [apply hoare_query_inv, Hts |]. intros latest.
  apply hoare_bind_inv.
  { destruct latest as [o |]; [| apply hoare_ret; auto].
    destruct (lead_time_days o); [apply hoare_ret; auto | apply hoare_raise]. }
  intros ltw.
  apply hoare_bind_inv; [apply hoare_query_inv, Hts |]. intros forecasts.
  destruct forecasts as [| f0 fs]; [apply hoare_ret; auto |].
  eapply hoare_bind; [apply hoare_lift_result |]. intros eoq_v. cbv beta.
  eapply hoare_bind; [apply hoare_lift_result |]. intros ss. cbv beta.
  eapply hoare_bind; [apply hoare_add |]. intros u.
  apply hoare_ret.
  intros s' [s [[[Hs Heoq] Hss] ->]].
  apply all_rows_add; [exact Hs |]. cbn. right. unfold sized. cbn.
  split; [reflexivity |].
  split; [eapply compute_eoq_ge_one; exact Heoq |].
  split; [eapply compute_safety_stock_nonneg; exact Hss |].
  split; [apply Rmax_l | apply round_nonneg, np_std_nonneg].
Qed.

Lemma policy_work_sized (forecast_run_id : uuid) (periods_per_year : Z) :
  hoare sized_inv (policy_work norm_ppf run_id forecast_run_id periods_per_year)
    (fun _ s => sized_inv s).
Proof.
  unfold policy_work.
  apply hoare_bind_inv; [apply hoare_query_inv, sized_inv_tick_stable |].
  intros cps. apply hoare_foldM_inv. intros a x. apply policy_step_sized.
Qed.

Lemma policy_finish_sized (n : nat) :
  hoare sized_inv (policy_finish run_id n) (fun _ s => sized_inv s).
Proof.
  unfold policy_finish.
  eapply hoare_bind; [apply hoare_utcnow, sized_inv_tick_stable |].
  intros now s s' a Hs E. inversion E; subst. exact Hs.
Qed.

(** The second invariant: forecasts and lead times that are not negative. *)
Definition stock_inv (s : Session) : Prop :=
  all_rows (fun f : ForecastResult => 0 <= p50 f) s
  /\ all_rows lead_time_ok s
  /\ all_rows (fun row => known w row \/ covering_stock row) s.

Lemma stable_covering_stock : stable (fun row => known w row \/ covering_stock row).
Proof. intros t x H; exact H. Qed.

Lemma stock_inv_tick_stable : tick_stable stock_inv.
Proof.
  apply (tick_stable_and (all_rows (fun f : ForecastResult => 0 <= p50 f))).
  - apply tick_stable_all_rows. intros t x H; exact H.
  - apply (tick_stable_and (all_rows lead_time_ok)).
    + apply tick_stable_all_rows. intros t x H; exact H.
    + apply tick_stable_all_rows, stable_covering_stock.
Qed.

Lemma policy_step_stock (forecast_run_id : uuid) (periods_per_year : Z)
  (n : nat) (cp : CostParameter) :
  hoare stock_inv
    (policy_step norm_ppf run_id forecast_run_id periods_per_year n cp)
    (fun _ s => stock_inv s).
Proof.
  unfold policy_step.
  eapply hoare_bind; [apply hoare_query, stock_inv_tick_stable |].
  intros latest_offer. cbv beta.
  eapply hoare_bind with (R := fun ltw s => stock_inv s /\ 0 <= ltw).
  { destruct latest_offer as [o |].
    - destruct (lead_time_days o) as [days |] eqn:Ed; [| apply hoare_raise].
      apply hoare_ret. intros s [Hs [s0 [d [Hs0 [Hrd Eq]]]]].
      split; [exact Hs |].
      assert (Hok : lead_time_ok o).
      { destruct Hs0 as [_ [Ho _]].
        assert (Hst : stable lead_time_ok) by (intros t x H; exact H).
        pose proof (all_rows_reads _ _ _ Hst Ho Hrd) as Hall.
        rewrite Forall_forall in Hall. apply Hall.
        symmetry in Eq. apply in_first, in_order_by, filter_In in Eq. apply Eq. }
      specialize (Hok days Ed). apply IZR_le in Hok. lra.
    - apply hoare_ret. intros s [Hs _]. split; [exact Hs | lra]. }
  intros ltw.
  eapply hoare_bind with
    (R := fun fs s => stock_inv s /\ 0 <= ltw
                      /\ Forall (fun f : ForecastResult => 0 <= p50 f) fs).
  { intros s s' fs [Hs Hl] E.
    pose proof (hoare_query stock_inv _ stock_inv_tick_stable s s' fs Hs E)
      as [Hs' [s0 [d [Hs0 [Hrd Eq]]]]].
    split; [exact Hs' | split; [exact Hl |]].
    destruct Hs0 as [Hf _].
    assert (Hst : stable (fun f : ForecastResult => 0 <= p50 f))
      by (intros t x H; exact H).
    pose proof (all_rows_reads _ _ _ Hst Hf Hrd) as Hall.
    rewrite Forall_forall in Hall |- *. intros f Hin. apply Hall.
    subst fs. apply in_order_by, filter_In in Hin. apply Hin. }
  intros forecasts.
  destruct forecasts as [| f0 fs]; [apply hoare_ret; tauto |].
  set (p50_values := map p50 (f0 :: fs)).
  eapply hoare_bind; [apply hoare_lift_result |]. intros eoq_v. cbv beta.
  eapply hoare_bind; [apply hoare_lift_result |]. intros ss. cbv beta.
  eapply hoare_bind; [apply hoare_add |]. intros u.
  apply hoare_ret.
  intros s' [s [[[[Hs [Hl Hfs]] Heoq] Hss] ->]].
  destruct Hs as [Hf [Ho Hr]].
  split; [| split].
  - apply all_rows_add; cbn; auto.
  - apply all_rows_add; cbn; auto.
  - apply all_rows_add; [exact Hr |]. cbn. right.
    assert (Hmean : 0 <= np_mean p50_values).
    { apply np_mean_nonneg. unfold p50_values.
      rewrite Forall_forall in Hfs |- *. intros x Hx.
      apply in_map_iff in Hx. destruct Hx as [f [<- Hin]]. auto. }
    unfold covering_stock. cbn.
    split; [eapply compute_rop_ge_safety_stock; eauto |].
    split; apply round_nonneg; [exact Hmean | lra].
Qed.

Lemma policy_work_stock (forecast_run_id : uuid) (periods_per_year : Z) :
  hoare stock_inv (policy_work norm_ppf run_id forecast_run_id periods_per_year)
    (fun _ s => stock_inv s).
Proof.
  unfold policy_work.
  apply hoare_bind_inv; [apply hoare_query_inv, stock_inv_tick_stable |].
  intros cps. apply hoare_foldM_inv. intros a x. apply policy_step_stock.
Qed.

Lemma policy_finish_stock (n : nat) :
  hoare stock_inv (policy_finish run_id n) (fun _ s => stock_inv s).
Proof.
  unfold policy_finish.
  eapply hoare_bind; [apply hoare_utcnow, stock_inv_tick_stable |].
  intros now s s' a Hs E. inversion E; subst. exact Hs.
Qed.

End Rows.

(** Every row that [run_inventory_policy] commits and that the table did
    not hold before carries the run's id, an order quantity of at least 1,
    and a safety stock, a reorder point and a demand deviation that are not
    negative. *)
Theorem policy_rows_sized (norm_ppf : R -> R) (run_id forecast_run_id : uuid)
  (periods_per_year : Z) (w w' : World) (r : result unit) :
  run_inventory_policy norm_ppf run_id forecast_run_id periods_per_year w = (w', r) ->
  forall row, In row (inventory_policy_results (committed w')) ->
    known w row \/ sized run_id row.
Proof.
  intros Hrun row Hin.
  assert (Hinv : sized_inv w run_id (session w)).
  { split; apply Forall_forall; intros x Hx; left; unfold known; auto. }
  unfold run_inventory_policy in Hrun.
  apply resolved_then in Hrun.
  destruct Hrun as [[Hc _] | [s1 [run [d [_ [_ [Hs1 Htr]]]]]]].
  - left. left. now rewrite <- Hc.
  - assert (Hinv1 : sized_inv w run_id s1).
    { destruct Hs1 as [-> | ->]; repeat apply sized_inv_tick_stable; exact Hinv. }
    pose proof (transaction_all_rows
                  (fun row => known w row \/ sized run_id row) (sized_inv w run_id)
                  (update_run run_id (with_status Running))
                  (policy_work norm_ppf run_id forecast_run_id periods_per_year)
                  (policy_finish run_id)
                  (fun _ => update_run run_id (with_status Failed))
                  {| committed := committed w; session := s1 |} w' r
                  (stable_sized w run_id) (sized_inv_tick_stable w run_id)) as Hall.
    cbv beta in Hall.
    assert (Hrows : Forall (fun row => known w row \/ sized run_id row)
                      (sel (committed w'))).
    { eapply Hall; try exact Htr.
      - intros s Hs. apply Hs.
      - intros s Hs. exact Hs.
      - reflexivity.
      - apply policy_work_sized.
      - intros a. apply policy_finish_sized.
      - exact Hinv1. }
    rewrite Forall_forall in Hrows. apply Hrows, Hin.
Qed.

Lemma policy_rows_sized_witness :
  known (world_of quiet_env long_lead_db) long_lead_row \/ sized 1 long_lead_row.
Proof.
  refine (policy_rows_sized ppf_095 1 1 52 (world_of quiet_env long_lead_db)
            (fst (run_inventory_policy ppf_095 1 1 52
                    (world_of quiet_env long_lead_db)))
            (snd (run_inventory_policy ppf_095 1 1 52
                    (world_of quiet_env long_lead_db))) _ long_lead_row _).
  - apply surjective_pairing.
  - rewrite long_lead_run. now left.
Defined.

(** When the forecasts' P50 values and the offers' lead times are not
    negative, every row that [run_inventory_policy] commits and that the
    table did not hold before has a reorder point of at least its safety
    stock, and a mean demand and a lead time that are not negative. *)
Theorem policy_rows_cover_safety_stock (norm_ppf : R -> R)
  (run_id forecast_run_id : uuid) (periods_per_year : Z) (w w' : World)
  (r : result unit) :
  all_rows (fun f : ForecastResult => 0 <= p50 f) (session w) ->
  all_rows lead_time_ok (session w) ->
  run_inventory_policy norm_ppf run_id forecast_run_id periods_per_year w = (w', r) ->
  forall row, In row (inventory_policy_results (committed w')) ->
    known w row \/ covering_stock row.
Proof.
  intros Hf Ho Hrun row Hin.
  assert (Hinv : stock_inv w (session w)).
  { repeat split; try apply Hf; try apply Ho;
      apply Forall_forall; intros x Hx; left; unfold known; auto. }
  unfold run_inventory_policy in Hrun.
  apply resolved_then in Hrun.
  destruct Hrun as [[Hc _] | [s1 [run [d [_ [_ [Hs1 Htr]]]]]]].
  - left. left. now rewrite <- Hc.
  - assert (Hinv1 : stock_inv w s1).
    { destruct Hs1 as [-> | ->]; repeat apply stock_inv_tick_stable; exact Hinv. }
    pose proof (transaction_all_rows
                  (fun row => known w row \/ covering_stock row) (stock_inv w)
                  (update_run run_id (with_status Running))
                  (policy_work norm_ppf run_id forecast_run_id periods_per_year)
                  (policy_finish run_id)
                  (fun _ => update_run run_id (with_status Failed))
                  {| committed := committed w; session := s1 |} w' r
                  (stable_covering_stock w) (stock_inv_tick_stable w)) as Hall.
    cbv beta in Hall.
    assert (Hrows : Forall (fun row => known w row \/ covering_stock row)
                      (sel (committed w'))).
    { eapply Hall; try exact Htr.
      - intros s Hs. apply Hs.
      - intros s Hs. exact Hs.
      - reflexivity.
      - apply (policy_work_stock norm_ppf w run_id).
      - intros a. apply (policy_finish_stock w run_id).
      - exact Hinv1. }
    rewrite Forall_forall in Hrows. apply Hrows, Hin.
Qed.

Lemma policy_rows_cover_safety_stock_witness :
  known (world_of quiet_env long_lead_db) long_lead_row \/ covering_stock long_lead_row.
Proof.
  refine (policy_rows_cover_safety_stock ppf_095 1 1 52
            (world_of quiet_env long_lead_db)
            (fst (run_inventory_policy ppf_095 1 1 52
                    (world_of quiet_env long_lead_db)))
            (snd (run_inventory_policy ppf_095 1 1 52
                    (world_of quiet_env long_lead_db))) _ _ _ long_lead_row _).
  - split; cbn; repeat constructor; cbn; lra.
  - split; cbn; repeat constructor.
    intros days E; cbn in E; inversion E; lia.
  - apply surjective_pairing.
  - rewrite long_lead_run. now left.
Defined.

(** *** An offer without a lead time *)

Definition policy_row (r : Row) : Prop :=
  match r with RInventoryPolicyResult _ => True | _ => False end.

Section NullLeadTime.

Variable norm_ppf : R -> R.
Variable d0 : Database.

(** The offers and cost parameters are those of [d0], and only policy rows
    are pending. *)
Definition offers_inv (s : Session) : Prop :=
  supplier_offers (txn s) = supplier_offers d0
  /\ cost_parameters (txn s) = cost_parameters d0
  /\ Forall policy_row (pending s).

Lemma insert_policy_rows (t : datetime) (rows : list Row) (d : Database) :
  Forall policy_row rows ->
  supplier_offers (insert_rows t d rows) = supplier_offers d
  /\ cost_parameters (insert_rows t d rows) = cost_parameters d.
Proof.
  unfold insert_rows. revert d.
  induction rows as [| r rows IH]; intros d H; cbn; [auto |].
  inversion H as [| r' rows' Hr Hrows]; subst.
  destruct (IH (insert_row t d r) Hrows) as [-> ->].
  destruct r; cbn in Hr; try contradiction. cbn. auto.
Qed.

Lemma offers_inv_tick_stable : tick_stable offers_inv.
Proof.
  intros s [Ho [Hc Hp]]. split.
  - repeat split; assumption.
  - destruct (insert_policy_rows (clock (env s) (tick s)) (pending s) (txn s) Hp)
      as [Eo Ec].
    unfold offers_inv, flushed. cbn. rewrite Eo, Ec. auto.
Qed.

Lemma offers_inv_reads (s : Session) (d : Database) :
  offers_inv s -> reads d s ->
  supplier_offers d = supplier_offers d0 /\ cost_parameters d = cost_parameters d0.
Proof.
  intros Hs [-> | ->]; [| apply offers_inv_tick_stable in Hs; destruct Hs as [_ Hs]];
    split; apply Hs.
Qed.

(** The cheapest offer of the product of [cp] has no lead time. *)
Definition unquoted (cp : CostParameter) : Prop :=
  exists o, cheapest_offer (cp_product_id cp) d0 = Some o /\ lead_time_days o = None.

Lemma policy_step_offers (run_id forecast_run_id : uuid) (periods_per_year : Z)
  (n : nat) (cp : CostParameter) :
  hoare offers_inv
    (policy_step norm_ppf run_id forecast_run_id periods_per_year n cp)
    (fun _ s => offers_inv s).
Proof.
  pose proof offers_inv_tick_stable as Hts.
  unfold policy_step.
  apply hoare_bind_inv; [apply hoare_query_inv, Hts |]. intros latest.
  apply hoare_bind_inv.
  { destruct latest as [o |]; [| apply hoare_ret; auto].
    destruct (lead_time_days o); [apply hoare_ret; auto | apply hoare_raise]. }
  intros ltw.
  apply hoare_bind_inv; [apply hoare_query_inv, Hts |]. intros forecasts.
  destruct forecasts as [| f0 fs]; [apply hoare_ret; auto |].
  apply hoare_bind_inv; [apply hoare_lift_result_inv |]. intros eoq_v.
  apply hoare_bind_inv; [apply hoare_lift_result_inv |]. intros ss.
  eapply hoare_bind; [apply hoare_add |]. intros u.
  apply hoare_ret.
  intros s' [s [[Ho [Hc Hp]] ->]]. unfold offers_inv. cbn.
  repeat split; try assumption.
  apply Forall_app. split; [exact Hp |]. repeat constructor.
Qed.

Lemma policy_step_unquoted (run_id forecast_run_id : uuid) (periods_per_year : Z)
  (n : nat) (cp : CostParameter) :
  unquoted cp ->
  hoare offers_inv
    (policy_step norm_ppf run_id forecast_run_id periods_per_year n cp)
    (fun _ _ => False).
Proof.
  intros [o [Ho Hl]]. unfold policy_step.
  eapply hoare_bind; [apply hoare_query, offers_inv_tick_stable |].
  intros latest s s' a [_ [s0 [d [Hs0 [Hrd ->]]]]] E.
  destruct (offers_inv_reads s0 d Hs0 Hrd) as [Eo _].
  unfold cheapest_offer in E, Ho. rewrite Eo, Ho, Hl in E.
  unfold bind, raise in E. discriminate.
Qed.

Lemma policy_loop_unquoted (run_id forecast_run_id : uuid) (periods_per_year : Z)
  (cps : list CostParameter) (cp : CostParameter) (n : nat) :
  In cp cps -> unquoted cp ->
  hoare offers_inv
    (foldM (policy_step norm_ppf run_id forecast_run_id periods_per_year) cps n)
    (fun _ _ => False).
Proof.
  intros Hin Hcp. revert n.
  induction cps as [| x rest IH]; intros n; [destruct Hin |].
  cbn [foldM]. destruct Hin as [-> | Hin].
  - eapply hoare_bind; [apply policy_step_unquoted, Hcp |].
    intros a s s' b [].
  - eapply hoare_bind; [apply policy_step_offers |].
    intros a. apply IH, Hin.
Qed.

Lemma policy_work_unquoted (run_id forecast_run_id : uuid) (periods_per_year : Z)
  (cp : CostParameter) :
  In cp (cost_parameters d0) -> unquoted cp ->
  hoare offers_inv (policy_work norm_ppf run_id forecast_run_id periods_per_year)
    (fun _ _ => False).
Proof.
  intros Hin Hcp. unfold policy_work.
  eapply hoare_bind; [apply hoare_query, offers_inv_tick_stable |].
  intros cps s s' a [Hs [s0 [d [Hs0 [Hrd ->]]]]] E.
  destruct (offers_inv_reads s0 d Hs0 Hrd) as [_ Ec].
  rewrite Ec in E.
  exact (policy_loop_unquoted run_id forecast_run_id periods_per_year _ cp 0%nat
           Hin Hcp s s' a Hs E).
Qed.

End NullLeadTime.

(** On a session with nothing pending, a run cannot complete when some cost
    parameter's product has a cheapest offer without a lead time: the
    division [lead_time_days / 7.0] raises, whether or not the product has
    forecasts, and the runner re-raises. *)
Theorem null_lead_time_fails_run (norm_ppf : R -> R) (run_id forecast_run_id : uuid)
  (periods_per_year : Z) (w w' : World) (r : result unit)
  (cp : CostParameter) (o : SupplierOffer) :
  pending (session w) = [] ->
  In cp (cost_parameters (txn (session w))) ->
  cheapest_offer (cp_product_id cp) (txn (session w)) = Some o ->
  lead_time_days o = None ->
  run_inventory_policy norm_ppf run_id forecast_run_id periods_per_year w = (w', r) ->
  exists e, r = inl e.
Proof.
  intros Hp Hin Ho Hl Hrun.
  unfold run_inventory_policy in Hrun.
  apply resolved_then in Hrun.
  destruct Hrun as [[_ He] | [s1 [run [d [_ [_ [Hs1 Htr]]]]]]]; [exact He |].
  destruct r as [e | u]; [eauto | exfalso].
  apply transaction_success in Htr.
  destruct Htr as [s2 [a [s3 [Hwork _]]]].
  refine (policy_work_unquoted norm_ppf (txn (session w)) run_id forecast_run_id
            periods_per_year cp Hin (ex_intro _ o (conj Ho Hl)) _ s2 a _ Hwork).
  unfold started, offers_inv. cbn.
  destruct Hs1 as [-> | ->]; cbn; rewrite Hp; cbn; auto.
Qed.

(** The product of [long_lead_db], with an offer that quotes no lead time. *)
Definition unquoted_offer : SupplierOffer :=
  {| offer_id := 1; so_supplier_id := 1; so_product_id := 1; price := 10;
     currency := "USD"; moq := 100; lead_time_days := None;
     capacity_units := Some 5000%Z; captured_at := 0;
     source := "mock_alibaba"; confidence := 0.9 |}.

Definition unquoted_db : Database :=
  set_supplier_offers long_lead_db [unquoted_offer].

Lemma null_lead_time_fails_run_witness :
  exists e,
    snd (run_inventory_policy ppf_095 1 1 52 (world_of quiet_env unquoted_db))
    = inl e.
Proof.
  refine (null_lead_time_fails_run ppf_095 1 1 52 (world_of quiet_env unquoted_db)
            (fst (run_inventory_policy ppf_095 1 1 52
                    (world_of quiet_env unquoted_db)))
            (snd (run_inventory_policy ppf_095 1 1 52
                    (world_of quiet_env unquoted_db)))
            {| cp_product_id := 1; cp_location_id := 1;
               holding_cost_per_unit_period := 0.5; setup_cost := 100;
               stockout_penalty := Some 10; service_level := 0.95 |}
            unquoted_offer _ _ _ _ _).
  - reflexivity.
  - left. reflexivity.
  - reflexivity.
  - reflexivity.
  - apply surjective_pairing.
Defined.

End PolicyFacts.

(** ** More on the forecast stage *)
Module ForecastFacts.
Import Py Db Orm OrmOps Stage ForecastMetrics Forecast.
Open Scope R_scope.

(** The validation WAPE of a candidate. *)
Definition score (c : string * (R * list R * list R)) : R := fst (fst (snd c)).

Lemma best_of_in c cs : In (best_of c cs) (c :: cs).
Proof.
  unfold best_of. revert c.
  induction cs as [| x cs IH]; intros c; cbn [fold_left]; [now left |].
  destruct (Rlt_dec _ _).
  - destruct (IH x) as [H | H]; [right; left; exact H | right; right; exact H].
  - destruct (IH c) as [H | H]; [left; exact H | right; right; exact H].
Qed.

Lemma best_of_cons c y cs :
  best_of c (y :: cs) = best_of (if Rlt_dec (score y) (score c) then y else c) cs.
Proof. reflexivity. Qed.

Lemma best_of_first c cs : score (best_of c cs) <= score c.
Proof.
  revert c. induction cs as [| y cs IH]; intros c; [cbn; lra |].
  rewrite best_of_cons.
  destruct (Rlt_dec (score y) (score c)) as [Hlt | Hge].
  - specialize (IH y). lra.
  - apply IH.
Qed.

Lemma best_of_least c cs x : In x (c :: cs) -> score (best_of c cs) <= score x.
Proof.
  revert c. induction cs as [| y cs IH]; intros c Hin.
  - destruct Hin as [<- | []]. cbn. lra.
  - rewrite best_of_cons.
    destruct (Rlt_dec (score y) (score c)) as [Hlt | Hge];
      destruct Hin as [<- | [<- | Hin]].
    + pose proof (best_of_first y cs). lra.
    + apply best_of_first.
    + apply IH. now right.
    + apply best_of_first.
    + pose proof (best_of_first c cs). lra.
    + apply IH. now right.
Qed.

Section Selection.

Variable arima_fit : Series -> nat * nat * nat -> result ArimaResults.
Variable prophet_predict : Series -> nat -> string -> result (list R * list R).
Variable ets_fit : Series -> bool -> option nat -> result EtsResults.

Lemma candidate_names (st : Settings) (train validation : Series)
  (c : string * (R * list R * list R)) :
  In c (candidates arima_fit prophet_predict ets_fit st train validation) ->
  In (fst c) ["arima"; "prophet"; "ets"]%string.
Proof.
  unfold candidates, fitters. cbn [flat_map fst snd].
  rewrite !in_app_iff.
  intros [H | [H | [H | H]]]; [| | | destruct H];
    match type of H with
    | In _ (match ?r with inl _ => _ | inr _ => _ end) =>
        destruct r; [destruct H | destruct H as [<- | H]; [cbn; auto | destruct H]]
    end.
Qed.

Lemma best_model_named (st : Settings) (train validation : Series)
  (best : string * list R * list R) :
  _best_model arima_fit prophet_predict ets_fit st train validation = inr best ->
  In (fst (fst best)) ["arima"; "prophet"; "ets"; "naive"]%string.
Proof.
  unfold _best_model.
  destruct (candidates _ _ _ st train validation) as [| c cs] eqn:Ec.
  - destruct (iloc_last train); cbn [rbind]; intros E; inversion E. cbn. auto.
  - intros E; inversion E; subst; clear E. cbn [fst].
    pose proof (best_of_in c cs) as Hin. rewrite <- Ec in Hin.
    apply candidate_names in Hin. cbn in Hin |- *. tauto.
Qed.

(** [_best_model] returns one of the candidates that fitted, with the
    least validation WAPE among them; when no model fitted it returns the
    training series' last value, repeated over the validation length and
    named "naive", and it raises only when, besides, the training series
    is empty. *)
Theorem best_model_choice (st : Settings) (train validation : Series) :
  (forall name p50 std,
     _best_model arima_fit prophet_predict ets_fit st train validation = inr (name, p50, std) ->
     (candidates arima_fit prophet_predict ets_fit st train validation = []
      /\ name = "naive"%string
      /\ (exists last, iloc_last train = inr last
                       /\ p50 = repeat last (length validation))
      /\ length std = length validation)
     \/ (exists w, In (name, (w, p50, std)) (candidates arima_fit prophet_predict ets_fit st train validation)
                   /\ In name ["arima"; "prophet"; "ets"]%string
                   /\ forall c, In c (candidates arima_fit prophet_predict ets_fit st train validation) ->
                                w <= score c))
  /\ (forall e, _best_model arima_fit prophet_predict ets_fit st train validation = inl e ->
                candidates arima_fit prophet_predict ets_fit st train validation = [] /\ train = []).
Proof.
  unfold _best_model. split.
  - intros name p50 std.
    destruct (candidates _ _ _ st train validation) as [| c cs] eqn:Ec.
    + destruct (iloc_last train) as [e | last] eqn:El; cbn [rbind];
        intros E; inversion E; subst; clear E.
      left. repeat split; eauto. unfold np_full. apply repeat_length.
    + intros E. right.
      pose proof (best_of_in c cs) as Hin.
      pose proof (best_of_least c cs) as Hmin.
      destruct (best_of c cs) as [n [[w0 p] s]]. cbn in E. inversion E; subst.
      exists w0. split; [exact Hin | split].
      * rewrite <- Ec in Hin. apply candidate_names in Hin. exact Hin.
      * intros x Hx. apply (Hmin x Hx).
  - intros e.
    destruct (candidates _ _ _ st train validation) as [| c cs]; [| discriminate].
    unfold iloc_last. destruct (rev train) as [| x l] eqn:Er; cbn [rbind];
      [| discriminate].
    intros _. split; [reflexivity |].
    apply (f_equal (@rev _)) in Er. now rewrite rev_involutive in Er.
Qed.

Variable resample : string -> Series -> Series.
Variable date_range : datetime -> nat -> string -> list datetime.

(** Every forecast row that [run_forecast] commits and that the table did
    not hold before names one of the four models, and has a P50 and a P90
    that are not negative. *)
Theorem forecast_rows_name_model (run_id : uuid) (sku_ids : option (list uuid))
  (horizon : nat) (frequency : string) (w w' : World) (r : result unit) :
  run_forecast arima_fit prophet_predict ets_fit resample date_range
    run_id sku_ids horizon frequency w = (w', r) ->
  forall row, In row (forecast_results (committed w')) ->
    known w row
    \/ (In (model_used row) ["arima"; "prophet"; "ets"; "naive"]%string
        /\ 0 <= p50 row /\ 0 <= p90 row).
Proof.
  intros Hrun row Hin.
  destruct (run_forecast_rows _ _ _ _ _ _ _ _ _ _ _ _ Hrun row Hin)
    as [Hk | Hp]; [now left | right].
  destruct Hp as [st [series [hz [i [best [upper [m [u H]]]]]]]].
  destruct H as [Hbest [Hname [_ [_ [_ [Hp50 Hp90]]]]]].
  rewrite Hname, Hp50, Hp90.
  split; [eapply best_model_named; eauto | split; apply Rmax_l].
Qed.

End Selection.

Lemma forecast_rows_name_model_witness :
  known (world_of quiet_env alternating_db) alternating_row
  \/ (In (model_used alternating_row) ["arima"; "prophet"; "ets"; "naive"]%string
      /\ 0 <= p50 alternating_row /\ 0 <= p90 alternating_row).
Proof.
  refine (forecast_rows_name_model no_arima no_prophet level_ets weekly_already
            weekly_range 1 None 1 "W" (world_of quiet_env alternating_db)
            (fst (run_forecast no_arima no_prophet level_ets weekly_already
                    weekly_range 1 None 1 "W" (world_of quiet_env alternating_db)))
            (snd (run_forecast no_arima no_prophet level_ets weekly_already
                    weekly_range 1 None 1 "W" (world_of quiet_env alternating_db)))
            _ alternating_row _).
  - apply surjective_pairing.
  - rewrite alternating_run. now left.
Defined.

End ForecastFacts.

(** ** The decision orchestrator's estimate ([agents/decision/agent.py]) *)
Module Decision.
Import Py.
Open Scope R_scope.

(** [int(x)] on a float: the fraction is dropped. *)
Definition py_int (x : R) : Z :=
  if Rle_dec 0 x then Zfloor x else (- Zfloor (- x))%Z.

Section WithRandom.

(** [random.Random(seed)] and [rng.uniform(a, b)]. *)
Variable rng : Type.
Variable seed_rng : Z -> rng.
Variable rng_uniform : rng -> R -> R -> R * rng.

Definition _estimate_cost_reduction (total_cost : R) (n_products : Z) : R :=
  let g := seed_rng (py_int total_cost mod 999) in
  round (fst (rng_uniform g 14 23)) 1.

Lemma py_int_shift (x : R) (k : Z) :
  0 <= x -> (0 <= k)%Z -> py_int (x + IZR k) = (py_int x + k)%Z.
Proof.
  intros Hx Hk. apply IZR_le in Hk. unfold py_int.
  destruct (Rle_dec 0 x); [| lra].
  destruct (Rle_dec 0 (x + IZR k)); [| lra].
  apply Zfloor_addz.
Qed.

(** The estimate is a percentage between 14 and 23 whenever [rng.uniform]
    stays within its bounds; it ignores the number of products, and for a
    cost that is not negative it is the same 999 units further on: only the
    whole part of the cost modulo 999 seeds it. *)
Theorem estimate_cost_reduction_range (total_cost : R) (n_products : Z) :
  ((forall g a b, a <= b -> a <= fst (rng_uniform g a b) <= b) ->
   14 <= _estimate_cost_reduction total_cost n_products <= 23)
  /\ (forall n' k, 0 <= total_cost -> (0 <= k)%Z ->
        _estimate_cost_reduction (total_cost + 999 * IZR k) n'
        = _estimate_cost_reduction total_cost n_products).
Proof.
  unfold _estimate_cost_reduction. split.
  - intros Hu.
    destruct (Hu (seed_rng (py_int total_cost mod 999)) 14 23) as [Hlo Hhi]; [lra |].
    split.
    + apply Rle_trans with (round 14 1); [rewrite round_IZR; lra |].
      now apply round_mono.
    + apply Rle_trans with (round 23 1); [| rewrite round_IZR; lra].
      now apply round_mono.
  - intros n' k Hc Hk.
    replace (999 * IZR k) with (IZR (999 * k)) by (rewrite mult_IZR; reflexivity).
    rewrite py_int_shift by (try assumption; lia).
    replace (py_int total_cost + 999 * k)%Z with (py_int total_cost + k * 999)%Z
      by ring.
    now rewrite Z.mod_add by lia.
Qed.

End WithRandom.

Lemma estimate_cost_reduction_range_witness :
  14 <= _estimate_cost_reduction nat Scraper.fixed_seed Scraper.lowest_uniform
          1234.5 3 <= 23.
Proof.
  refine (proj1 (estimate_cost_reduction_range nat Scraper.fixed_seed
                   Scraper.lowest_uniform 1234.5 3) _).
  intros g a b Hab. cbn. lra.
Defined.

End Decision.
